(** * Youtu-Tip GUI agent: response compiler, conversation engine,
      skill store and run lifecycle manager

    A shallow embedding of the Python sources

      - [app/gui_agent/qwen_response_parser.py]  (module [ResponseParser])
      - [app/gui_agent/qwen_agent.py]            (module [Agent])
      - [app/gui_agent/skills/repository.py]     (module [Repository])
      - [app/gui_agent/qwen_skills.py]           (module [SkillManager])
      - [app/services/gui_agent.py]              (module [Service])

    together with the properties of the specification that concern them,
    and of the functions around them:

      - [app/gui_agent/qwen_prompting.py]        (module [PromptBuilder])
      - [app/gui_agent/qwen_skills.py], the cache (module [SkillCache])
      - [app/gui_agent/qwen_agent.py], [predict] (module [Qwen3VLAgent])
      - [app/api/routes_skills.py]               (module [SkillRoutes])
      - [app/api/routes_gui_agent.py]            (module [GuiRoutes])
      - [app/core/settings.py] and the environment patch of
        [app/services/gui_agent.py]              (modules [Profiles], [Execution])

    with further properties of the code itself.

    Conventions.  A Python [str] is a Rocq [string]; a character stands
    for the code point of the same number (0..255), and the character
    classes below ([isspace], [isalnum], [lower]) are Python's on that
    range.  A Python [int] is a [Z]; a Python [float] is a binary64 number
    of [SpecFloat].  A raised exception is the [Raise] case of [result].
    An insertion-ordered [dict] is an association list ([PyDict]). *)

From Stdlib Require Import ZArith List Bool Ascii String Lia.
From Stdlib Require Import Floats.SpecFloat Numbers.DecimalString Numbers.DecimalZ.
From Stdlib Require Import Lists.Finite.
Import ListNotations.

Set Implicit Arguments.
Set Warnings "-register-all".

Local Open Scope list_scope.
Local Open Scope string_scope.

(** ** Exceptions and results *)

Inductive exn : Type :=
| JSONDecodeError
| KeyError (key : string)
| IndexError
| TypeError
| ValueError (msg : string)
| OverflowError
| ZeroDivisionError
| OSError
| RuntimeError (msg : string).

Inductive result (A : Type) : Type :=
| Ok (a : A)
| Raise (e : exn).

Arguments Ok {A} a.
Arguments Raise {A} e.

Definition bind {A B : Type} (r : result A) (k : A -> result B) : result B :=
  match r with
  | Ok a => k a
  | Raise e => Raise e
  end.

Notation "x <- r ;; k" := (bind r (fun x => k))
  (at level 61, r at next level, right associativity).
Notation "' p <- r ;; k" := (bind r (fun p => k))
  (at level 61, p pattern, r at next level, right associativity).

(** ** Python string operations *)

Module PyStr.

Definition code (c : ascii) : nat := nat_of_ascii c.

Definition between (lo hi : nat) (c : ascii) : bool :=
  (lo <=? code c)%nat && (code c <=? hi)%nat.

(** [str.isspace] of one character, which is also the class [\s] of [re]. *)
Definition isspace (c : ascii) : bool :=
  between 9 13 c || between 28 32 c || (code c =? 133)%nat || (code c =? 160)%nat.

(** [str.isalnum] of one character. *)
Definition isalnum (c : ascii) : bool :=
  between 48 57 c || between 65 90 c || between 97 122 c
  || (code c =? 170)%nat || between 178 179 c || (code c =? 181)%nat
  || between 185 186 c || between 188 190 c
  || between 192 214 c || between 216 246 c || between 248 255 c.

(** The class [\w] of [re]. *)
Definition isword (c : ascii) : bool := isalnum c || (code c =? 95)%nat.

Definition lower_char (c : ascii) : ascii :=
  if between 65 90 c || between 192 214 c || between 216 222 c
  then ascii_of_nat (code c + 32)
  else c.

Fixpoint lower (s : string) : string :=
  match s with
  | EmptyString => EmptyString
  | String c s' => String (lower_char c) (lower s')
  end.

Fixpoint lstrip_by (p : ascii -> bool) (s : string) : string :=
  match s with
  | EmptyString => EmptyString
  | String c s' => if p c then lstrip_by p s' else s
  end.

Fixpoint rstrip_by (p : ascii -> bool) (s : string) : string :=
  match s with
  | EmptyString => EmptyString
  | String c s' =>
      match rstrip_by p s' with
      | EmptyString => if p c then EmptyString else String c EmptyString
      | r => String c r
      end
  end.

Definition strip_by (p : ascii -> bool) (s : string) : string :=
  rstrip_by p (lstrip_by p s).

(** [s.strip()], [s.lstrip()], [s.rstrip()]. *)
Definition strip : string -> string := strip_by isspace.
Definition lstrip : string -> string := lstrip_by isspace.
Definition rstrip : string -> string := rstrip_by isspace.

Fixpoint mem_char (chars : string) (c : ascii) : bool :=
  match chars with
  | EmptyString => false
  | String d chars' => Ascii.eqb c d || mem_char chars' c
  end.

(** [s.strip(chars)], [s.lstrip(chars)]. *)
Definition strip_chars (chars : string) : string -> string :=
  strip_by (mem_char chars).
Definition lstrip_chars (chars : string) : string -> string :=
  lstrip_by (mem_char chars).

(** [s.startswith(p)], [s.endswith(p)]. *)
Definition startswith (s p : string) : bool := String.prefix p s.

Fixpoint drop (n : nat) (s : string) : string :=
  match n, s with
  | O, _ => s
  | S n', String _ s' => drop n' s'
  | S _, EmptyString => EmptyString
  end.

Fixpoint take (n : nat) (s : string) : string :=
  match n, s with
  | S n', String c s' => String c (take n' s')
  | _, _ => EmptyString
  end.

Definition endswith (s p : string) : bool :=
  (String.length p <=? String.length s)%nat
  && String.eqb (drop (String.length s - String.length p) s) p.

(** [sub in s]. *)
Fixpoint contains (sub s : string) : bool :=
  String.prefix sub s
  || match s with
     | EmptyString => false
     | String _ s' => contains sub s'
     end.

(** [s.partition(sep)] when [sep] occurs: the text before its first
    occurrence and the text after it. *)
Fixpoint split_once (sep s : string) : option (string * string) :=
  if String.prefix sep s then Some (EmptyString, drop (String.length sep) s)
  else match s with
       | EmptyString => None
       | String c s' =>
           match split_once sep s' with
           | Some (a, b) => Some (String c a, b)
           | None => None
           end
       end.

(** [s.split(sep, 1)], a list of one or two strings. *)
Definition split1 (sep s : string) : list string :=
  match split_once sep s with
  | Some (a, b) => [a; b]
  | None => [s]
  end.

(** [s.replace(old, new)] for a non-empty [old]: occurrences are replaced
    from the left and do not overlap.  [skip] counts the characters of
    an occurrence still to be passed over. *)
Fixpoint replace_from (old new : string) (skip : nat) (s : string) : string :=
  match s with
  | EmptyString => EmptyString
  | String c s' =>
      match skip with
      | S k => replace_from old new k s'
      | O =>
          if String.prefix old s
          then new ++ replace_from old new (String.length old - 1) s'
          else String c (replace_from old new 0 s')
      end
  end.

Definition replace (old new s : string) : string := replace_from old new 0 s.

(** [s.split(sep)] for a one-character separator. *)
Fixpoint split_char (sep : ascii) (s : string) : list string :=
  match s with
  | EmptyString => [EmptyString]
  | String c s' =>
      if Ascii.eqb c sep then EmptyString :: split_char sep s'
      else match split_char sep s' with
           | h :: t => String c h :: t
           | [] => [String c EmptyString]
           end
  end.

Definition LF : ascii := ascii_of_nat 10.
Definition CR : ascii := ascii_of_nat 13.
Definition nl : string := String LF EmptyString.

(** The line boundaries of [str.splitlines]. *)
Definition is_linebreak (c : ascii) : bool :=
  between 10 13 c || between 28 30 c || (code c =? 133)%nat.

(** [s.splitlines()]; [after_cr] tells that the previous character was a
    carriage return, whose line a following line feed does not end again. *)
Fixpoint splitlines_from (after_cr : bool) (s : string) : list string :=
  match s with
  | EmptyString => []
  | String c s' =>
      if after_cr && Ascii.eqb c LF then splitlines_from false s'
      else if is_linebreak c
           then EmptyString :: splitlines_from (Ascii.eqb c CR) s'
           else match splitlines_from false s' with
                | h :: t => String c h :: t
                | [] => [String c EmptyString]
                end
  end.

Definition splitlines (s : string) : list string := splitlines_from false s.

(** [sep.join(parts)]. *)
Fixpoint join (sep : string) (parts : list string) : string :=
  match parts with
  | [] => EmptyString
  | [p] => p
  | p :: rest => p ++ sep ++ join sep rest
  end.

(** [s.count(c)] for one character. *)
Fixpoint count_char (c : ascii) (s : string) : nat :=
  match s with
  | EmptyString => O
  | String d s' => (if Ascii.eqb d c then 1 else 0) + count_char c s'
  end.

(** The characters of a string, as iterating over it yields them. *)
Fixpoint chars (s : string) : list string :=
  match s with
  | EmptyString => []
  | String c s' => String c EmptyString :: chars s'
  end.

Definition is_empty (s : string) : bool :=
  match s with EmptyString => true | _ => false end.

(** Every character of [s] satisfies [p]; with [isspace] this is
    [s.isspace()] or [s == ""]. *)
Fixpoint all_chars (p : ascii -> bool) (s : string) : bool :=
  match s with
  | EmptyString => true
  | String c s' => p c && all_chars p s'
  end.

(** [str(n)] of an [int]. *)
Definition of_Z (z : Z) : string := NilEmpty.string_of_int (Z.to_int z).

End PyStr.

(** ** Insertion-ordered dictionaries *)

Module PyDict.
Section Dict.
Variable V : Type.

Definition dict : Type := list (string * V).

(** [d.get(k)]. *)
Fixpoint get (k : string) (d : dict) : option V :=
  match d with
  | [] => None
  | (k', v) :: d' => if String.eqb k' k then Some v else get k d'
  end.

(** [k in d]. *)
Definition mem (k : string) (d : dict) : bool :=
  match get k d with Some _ => true | None => false end.

(** [d[k] = v]: an existing key keeps its place, a new one goes last. *)
Fixpoint set (k : string) (v : V) (d : dict) : dict :=
  match d with
  | [] => [(k, v)]
  | (k', v') :: d' =>
      if String.eqb k' k then (k', v) :: d' else (k', v') :: set k v d'
  end.

(** [d.pop(k, None)]. *)
Fixpoint pop (k : string) (d : dict) : dict :=
  match d with
  | [] => []
  | (k', v') :: d' =>
      if String.eqb k' k then d' else (k', v') :: pop k d'
  end.

Definition keys (d : dict) : list string := map fst d.
Definition values (d : dict) : list V := map snd d.
End Dict.
End PyDict.

(** ** Python floats (IEEE 754 binary64) *)

Module PyFloat.

Definition prec : Z := 53.
Definition emax : Z := 1024.
Definition float : Type := spec_float.

Definition is_zero (f : float) : bool :=
  match f with S754_zero _ => true | _ => false end.

(** [float(z)] of an [int]: rounded to nearest even; an [int] beyond the
    range raises. *)
Definition of_int (z : Z) : result float :=
  match binary_normalize prec emax z 0 false with
  | S754_infinity _ => Raise OverflowError
  | f => Ok f
  end.

(** [f * g] and [f / g] on floats. *)
Definition mul (f g : float) : float := SFmul prec emax f g.
Definition div (f g : float) : result float :=
  if is_zero g then Raise ZeroDivisionError
  else Ok (SFdiv prec emax f g).

(** [z / g] for an [int] [z] and a float [g]. *)
Definition int_div_float (z : Z) (g : float) : result float :=
  f <- of_int z ;; div f g.

Definition exact (z : Z) : float :=
  match z with
  | Z0 => S754_zero false
  | Zpos p => S754_finite false p 0
  | Zneg p => S754_finite true p 0
  end.

(** [a / b] on two [int]s: the quotient rounded once. *)
Definition int_truediv (a b : Z) : result float :=
  if (b =? 0)%Z then Raise ZeroDivisionError
  else match SFdiv prec emax (exact a) (exact b) with
       | S754_infinity _ => Raise OverflowError
       | f => Ok f
       end.

(** [int(f)]: truncation towards zero. *)
Definition trunc (f : float) : result Z :=
  match f with
  | S754_zero _ => Ok 0%Z
  | S754_infinity _ => Raise OverflowError
  | S754_nan => Raise (ValueError "cannot convert float NaN to integer")
  | S754_finite s m e =>
      let a := match e with
               | Zneg k => Z.shiftr (Zpos m) (Zpos k)
               | _ => Z.shiftl (Zpos m) e
               end in
      Ok (if s then Z.opp a else a)
  end.

(** The literals [1000.0] and [999.0]. *)
Definition f1000 : float := S754_finite false 1000 0.
Definition f999 : float := S754_finite false 999 0.

End PyFloat.

(** ** Decoded JSON values *)

Inductive json : Type :=
| JNull
| JBool (b : bool)
| JInt (z : Z)
| JFloat (f : PyFloat.float)
| JStr (s : string)
| JArr (items : list json)
| JObj (fields : list (string * json)).

Module PyVal.
Import PyStr.

Definition dq : string := String (ascii_of_nat 34) EmptyString.
Definition backslash : ascii := ascii_of_nat 92.

Definition is_digit (c : ascii) : bool := between 48 57 c.

(** The digits of an [int] literal after its sign: groups of digits
    separated by single underscores. *)
Fixpoint parse_digits (acc : Z) (after_digit : bool) (s : string) : option Z :=
  match s with
  | EmptyString => if after_digit then Some acc else None
  | String c s' =>
      if is_digit c
      then parse_digits (10 * acc + Z.of_nat (code c - 48)) true s'
      else if Ascii.eqb c "_" && after_digit
           then parse_digits acc false s'
           else None
  end.

(** The blanks that [int] passes over around a literal. *)
Definition int_blank (c : ascii) : bool :=
  between 9 13 c || (code c =? 32)%nat || (code c =? 133)%nat || (code c =? 160)%nat.

(** [int(s)] of a [str] in base ten. *)
Definition int_of_str (s : string) : result Z :=
  let body := strip_by int_blank s in
  let parsed :=
    match body with
    | String "-" rest => option_map Z.opp (parse_digits 0 false rest)
    | String "+" rest => parse_digits 0 false rest
    | _ => parse_digits 0 false body
    end in
  match parsed with
  | Some z => Ok z
  | None => Raise (ValueError "invalid literal for int() with base 10")
  end.

(** [int(v)]. *)
Definition py_int (v : json) : result Z :=
  match v with
  | JInt z => Ok z
  | JBool b => Ok (if b then 1 else 0)%Z
  | JFloat f => PyFloat.trunc f
  | JStr s => int_of_str s
  | JNull | JArr _ | JObj _ => Raise TypeError
  end.

(** [v * f] for a float [f]. *)
Definition py_mul_float (v : json) (f : PyFloat.float) : result PyFloat.float :=
  match v with
  | JInt z => g <- PyFloat.of_int z ;; Ok (PyFloat.mul g f)
  | JBool b => g <- PyFloat.of_int (if b then 1 else 0)%Z ;; Ok (PyFloat.mul g f)
  | JFloat g => Ok (PyFloat.mul g f)
  | JNull | JStr _ | JArr _ | JObj _ => Raise TypeError
  end.

(** [x, y = v]. *)
Definition unpack2 (v : json) : result (json * json) :=
  match v with
  | JArr [a; b] => Ok (a, b)
  | JStr (String a (String b EmptyString)) =>
      Ok (JStr (String a EmptyString), JStr (String b EmptyString))
  | JObj [(a, _); (b, _)] => Ok (JStr a, JStr b)
  | JArr _ | JStr _ | JObj _ => Raise (ValueError "wrong number of values to unpack")
  | JNull | JBool _ | JInt _ | JFloat _ => Raise TypeError
  end.

(** [key in v]. *)
Definition py_in (key : string) (v : json) : result bool :=
  match v with
  | JObj d => Ok (PyDict.mem key d)
  | JStr s => Ok (contains key s)
  | JArr items =>
      Ok (existsb (fun i => match i with JStr s => String.eqb s key | _ => false end) items)
  | JNull | JBool _ | JInt _ | JFloat _ => Raise TypeError
  end.

Definition hex_digit (n : nat) : ascii :=
  if (n <? 10)%nat then ascii_of_nat (48 + n) else ascii_of_nat (87 + n).

(** One character as [json.dumps(..., ensure_ascii=False)] writes it. *)
Definition dumps_char (c : ascii) : string :=
  let bs := String backslash EmptyString in
  if Ascii.eqb c backslash then bs ++ bs
  else if (code c =? 34)%nat then bs ++ dq
  else if (code c =? 8)%nat then bs ++ "b"
  else if (code c =? 12)%nat then bs ++ "f"
  else if (code c =? 10)%nat then bs ++ "n"
  else if (code c =? 13)%nat then bs ++ "r"
  else if (code c =? 9)%nat then bs ++ "t"
  else if (code c <? 32)%nat
       then bs ++ "u00" ++ String (hex_digit (code c / 16)) (String (hex_digit (code c mod 16)) EmptyString)
       else String c EmptyString.

Fixpoint dumps_body (s : string) : string :=
  match s with
  | EmptyString => EmptyString
  | String c s' => dumps_char c ++ dumps_body s'
  end.

(** [json.dumps(s, ensure_ascii=False)] of a [str]. *)
Definition json_dumps_str (s : string) : string := dq ++ dumps_body s ++ dq.

Section Str.
(** [repr] of the values whose text is not spelled out here: floats,
    lists and dictionaries. *)
Variable py_repr : json -> string.

(** [str(v)], which is also how an f-string field prints [v]. *)
Definition py_str (v : json) : string :=
  match v with
  | JStr s => s
  | JInt z => of_Z z
  | JBool true => "True"
  | JBool false => "False"
  | JNull => "None"
  | JFloat _ | JArr _ | JObj _ => py_repr v
  end.
End Str.

End PyVal.

(** ** The response compiler: [qwen_response_parser.py] *)

Module ResponseParser.
Import PyStr PyVal.

(** The state of the line scan of [parse_response]. *)
Record scan_state : Type := {
  low_level_instruction : string;
  pyautogui_code : list string;
  inside_tool_call : bool;
  current_tool_call : list string
}.

(** The action names [process_tool_call] has a branch for, after the
    alias [click] has been resolved. *)
Definition supported_actions : list string :=
  ["left_click"; "right_click"; "middle_click"; "double_click"; "type";
   "key"; "scroll"; "wait"; "terminate"; "mouse_move"; "left_click_drag"].

(** [if v:] for an [Optional[int]]. *)
Definition known (v : option Z) : option Z :=
  match v with
  | Some z => if (z =? 0)%Z then None else Some z
  | None => None
  end.

(** The regular-expression search of line 40, group 1: after the first
    [Action:] in any letter case the blanks are passed over (line ends
    among them) and the rest of that line is captured. *)
Fixpoint until_newline (s : string) : string :=
  match s with
  | EmptyString => EmptyString
  | String c s' => if Ascii.eqb c LF then EmptyString else String c (until_newline s')
  end.

Fixpoint search_action (s : string) : option string :=
  if String.prefix "action:" (lower s)
  then Some (until_newline (lstrip (drop 7 s)))
  else match s with
       | EmptyString => None
       | String _ s' => search_action s'
       end.

(** The loop [for marker in ("<tool_call", "<skill")] that cuts a summary
    at the first structured-block marker. *)
Definition cut_at (marker text : string) : string :=
  if contains marker text
  then match split_once marker text with
       | Some (before, _) => strip before
       | None => text
       end
  else text.

Definition cut_markers (text : string) : string :=
  cut_at "<skill" (cut_at "<tool_call" text).

(** Lines 40-47: the summary found by the regular expression. *)
Definition initial_instruction (response : string) : string :=
  match search_action response with
  | Some g => cut_markers (strip g)
  | None => EmptyString
  end.

(** The key clean-up of the [key] action, for one [str] key. *)
Definition clean_key (key : string) : string :=
  let key := if startswith key "keys=[" then drop 6 key else key in
  let key := if endswith key "]" then take (String.length key - 1) key else key in
  let key := if startswith key "['" || startswith key ("[" ++ dq)
             then if (2 <? String.length key)%nat then drop 2 key else key
             else key in
  let key := if endswith key "']" || endswith key (dq ++ "]")
             then if (2 <? String.length key)%nat
                  then take (String.length key - 2) key else key
             else key in
  let key := strip key in
  if String.eqb (lower key) "ctrl" || String.eqb (lower key) "control"
  then "command" else key.

(** The test of line 271: [name] and [arguments] are both in the decoded
    line. *)
Definition has_name_and_arguments (json_obj : json) : result bool :=
  has_name <- py_in "name" json_obj ;;
  if has_name then py_in "arguments" json_obj else Ok false.

(** The loop of [_coerce_json] that drops surplus closing braces.  Every
    round shortens the text, so its length bounds the number of rounds. *)
Fixpoint trim_closing (fuel opening : nat) (stripped : string) : string :=
  match fuel with
  | O => stripped
  | S fuel' =>
      if (opening <? count_char "}" stripped)%nat && endswith stripped "}"
      then trim_closing fuel' opening
             (rstrip (take (String.length stripped - 1) stripped))
      else stripped
  end.

(** [try: ... except json.JSONDecodeError: ...]: the handler is taken for
    that exception alone. *)
Definition except_decode {A : Type} (body handler : result A) : result A :=
  match body with
  | Raise JSONDecodeError => handler
  | other => other
  end.

Section Parser.
(** [json.loads]: the decoded value, [json.JSONDecodeError] for a text
    that is no JSON document, or another exception, which the handlers of
    this module let through: a [ValueError] for an integer literal over
    the digit limit of [int], a [RecursionError] (a [RuntimeError]) for a
    nesting that is too deep. *)
Variable json_loads : string -> result json.
(** [repr] of floats, lists and dictionaries (see [PyVal.py_str]). *)
Variable py_repr : json -> string.

Variable coordinate_type : string.
Variables original_width original_height : option Z.
Variables processed_width processed_height : option Z.

Definition adjust_coordinates (x y : json) : result (Z * Z) :=
  match known original_width, known original_height with
  | Some ow, Some oh =>
      if String.eqb coordinate_type "absolute" then
        match known processed_width, known processed_height with
        | Some pw, Some ph =>
            x_scale <- PyFloat.int_truediv ow pw ;;
            y_scale <- PyFloat.int_truediv oh ph ;;
            fx <- py_mul_float x x_scale ;;
            ax <- PyFloat.trunc fx ;;
            fy <- py_mul_float y y_scale ;;
            ay <- PyFloat.trunc fy ;;
            Ok (ax, ay)
        | _, _ =>
            ax <- py_int x ;; ay <- py_int y ;; Ok (ax, ay)
        end
      else
        let base := if String.eqb coordinate_type "relative"
                    then PyFloat.f1000 else PyFloat.f999 in
        x_scale <- PyFloat.int_div_float ow base ;;
        y_scale <- PyFloat.int_div_float oh base ;;
        fx <- py_mul_float x x_scale ;;
        ax <- PyFloat.trunc fx ;;
        fy <- py_mul_float y y_scale ;;
        ay <- PyFloat.trunc fy ;;
        Ok (ax, ay)
  | _, _ =>
      ax <- py_int x ;; ay <- py_int y ;; Ok (ax, ay)
  end.

Definition _coerce_json (text : string) : result (option json) :=
  let stripped := strip text in
  except_decode
    (v <- json_loads stripped ;; Ok (Some v))
    (except_decode
       (v <- json_loads
               (trim_closing (String.length stripped) (count_char "{" stripped) stripped) ;;
        Ok (Some v))
       (Ok None)).

(** The branches of the four click actions, the move and the drag share
    one shape: a command on the adjusted pair when [coordinate] is
    given, a fixed command otherwise. *)
Definition with_coordinate (args : list (string * json))
    (at_point : Z -> Z -> string) (otherwise : string) : result string :=
  match PyDict.get "coordinate" args with
  | Some c =>
      '(x, y) <- unpack2 c ;;
      '(adj_x, adj_y) <- adjust_coordinates x y ;;
      Ok (at_point adj_x adj_y)
  | None => Ok otherwise
  end.

Definition call2 (f : string) (adj_x adj_y : Z) : string :=
  f ++ "(" ++ of_Z adj_x ++ ", " ++ of_Z adj_y ++ ")".

(** The items a [for key in keys] visits, for a value that is not a list. *)
Definition iterate (v : json) : result (list json) :=
  match v with
  | JArr items => Ok items
  | JStr s => Ok (map JStr (chars s))
  | JObj d => Ok (map JStr (PyDict.keys d))
  | JNull | JBool _ | JInt _ | JFloat _ => Raise TypeError
  end.

Definition key_command (args : list (string * json)) : result string :=
  let keys := match PyDict.get "keys" args with
              | Some v => v
              | None => JArr []
              end in
  let keys := match keys with
              | JArr items =>
                  JArr (map (fun key => match key with
                                        | JStr s => JStr (clean_key s)
                                        | other => other
                                        end) items)
              | other => other
              end in
  items <- iterate keys ;;
  let keys_str := join ", " (map (fun key => "'" ++ py_str py_repr key ++ "'") items) in
  if (1 <? List.length items)%nat
  then Ok ("pyautogui.hotkey(" ++ keys_str ++ ")")
  else Ok ("pyautogui.press(" ++ keys_str ++ ")").

(** The normalised action name of the arguments. *)
Definition action_name (args : list (string * json)) : string :=
  let action :=
    match PyDict.get "action" args with
    | Some (JStr s) => lower (strip s)
    | Some JNull | None => EmptyString
    | Some other => lower (strip (py_str py_repr other))
    end in
  if String.eqb action "click" then "left_click" else action.

(** The command of one action, [None] when the action has no branch. *)
Definition command_of (action : string) (args : list (string * json))
  : result (option string) :=
  if String.eqb action "left_click" then
    c <- with_coordinate args (call2 "pyautogui.click") "pyautogui.click()" ;; Ok (Some c)
  else if String.eqb action "right_click" then
    c <- with_coordinate args (call2 "pyautogui.rightClick") "pyautogui.rightClick()" ;;
    Ok (Some c)
  else if String.eqb action "middle_click" then
    c <- with_coordinate args (call2 "pyautogui.middleClick") "pyautogui.middleClick()" ;;
    Ok (Some c)
  else if String.eqb action "double_click" then
    c <- with_coordinate args (call2 "pyautogui.doubleClick") "pyautogui.doubleClick()" ;;
    Ok (Some c)
  else if String.eqb action "type" then
    let raw_text := match PyDict.get "text" args with
                    | Some v => v
                    | None => JStr EmptyString
                    end in
    let safe_text := json_dumps_str (py_str py_repr raw_text) in
    Ok (Some ("import pyperclip; text_to_type = " ++ safe_text
              ++ "; pyperclip.copy(text_to_type); pyautogui.hotkey('command', 'v')"))
  else if String.eqb action "key" then
    c <- key_command args ;; Ok (Some c)
  else if String.eqb action "scroll" then
    let pixels := match PyDict.get "pixels" args with
                  | Some v => v
                  | None => JInt 0
                  end in
    Ok (Some ("pyautogui.scroll(" ++ py_str py_repr pixels ++ ")"))
  else if String.eqb action "wait" then Ok (Some "WAIT")
  else if String.eqb action "terminate" then Ok (Some "DONE")
  else if String.eqb action "mouse_move" then
    c <- with_coordinate args (call2 "pyautogui.moveTo") "pyautogui.moveTo(0, 0)" ;;
    Ok (Some c)
  else if String.eqb action "left_click_drag" then
    c <- with_coordinate args
           (fun adj_x adj_y =>
              let duration := match PyDict.get "duration" args with
                              | Some v => py_str py_repr v
                              | None => "0.5"
                              end in
              "pyautogui.dragTo(" ++ of_Z adj_x ++ ", " ++ of_Z adj_y
              ++ ", duration=" ++ duration ++ ")")
           "pyautogui.dragTo(0, 0)" ;;
    Ok (Some c)
  else Ok None.

(** The arguments of a decoded tool call, [None] where
    [process_tool_call] returns early. *)
Definition tool_call_args (tool_call : option json) : option (list (string * json)) :=
  match tool_call with
  | Some (JObj d) =>
      let args :=
        if (match PyDict.get "name" d with
            | Some (JStr n) => String.eqb n "computer_use"
            | _ => false
            end) && PyDict.mem "arguments" d
        then PyDict.get "arguments" d
        else if PyDict.mem "action" d then Some (JObj d) else None in
      match args with
      | Some (JObj a) => Some a
      | _ => None
      end
  | _ => None
  end.

(** [process_tool_call]: the command list after the call.  The handler
    of the source catches [JSONDecodeError] and [KeyError] only. *)
Definition process_tool_call (json_str : string) (code : list string)
  : result (list string) :=
  let body :=
    tool_call <- _coerce_json json_str ;;
    match tool_call_args tool_call with
    | None => Ok code
    | Some args =>
        c <- command_of (action_name args) args ;;
        match c with
        | Some cmd => Ok (code ++ [cmd])%list
        | None => Ok code
        end
    end in
  match body with
  | Raise JSONDecodeError | Raise (KeyError _) => Ok code
  | other => other
  end.

(** The lines 242-250 for a line that starts with [action:] in any
    letter case. *)
Definition action_line (line : string) (st : scan_state) : result scan_state :=
  if is_empty (low_level_instruction st) then
    match split_once "Action:" line with
    | None => Raise IndexError
    | Some (_, after) =>
        let remainder := cut_markers (strip after) in
        if is_empty remainder then Ok st
        else Ok {| low_level_instruction := remainder;
                   pyautogui_code := pyautogui_code st;
                   inside_tool_call := inside_tool_call st;
                   current_tool_call := current_tool_call st |}
    end
  else Ok st.

Definition set_code (st : scan_state) (code : list string) : scan_state :=
  {| low_level_instruction := low_level_instruction st;
     pyautogui_code := code;
     inside_tool_call := inside_tool_call st;
     current_tool_call := current_tool_call st |}.

(** One round of the loop [for line in lines]. *)
Definition scan_line (raw : string) (st : scan_state) : result scan_state :=
  let line := strip raw in
  if is_empty line then Ok st
  else if startswith (lower line) "action:" then action_line line st
  else if startswith line "<tool_call>" then
    Ok {| low_level_instruction := low_level_instruction st;
          pyautogui_code := pyautogui_code st;
          inside_tool_call := true;
          current_tool_call := current_tool_call st |}
  else if startswith line "</tool_call>" then
    code <- match current_tool_call st with
            | [] => Ok (pyautogui_code st)
            | block => process_tool_call (join nl block) (pyautogui_code st)
            end ;;
    Ok {| low_level_instruction := low_level_instruction st;
          pyautogui_code := code;
          inside_tool_call := false;
          current_tool_call := [] |}
  else if inside_tool_call st then
    Ok {| low_level_instruction := low_level_instruction st;
          pyautogui_code := pyautogui_code st;
          inside_tool_call := true;
          current_tool_call := (current_tool_call st ++ [line])%list |}
  else if startswith line "{" && endswith line "}" then
    except_decode
      (json_obj <- json_loads line ;;
       is_call <- has_name_and_arguments json_obj ;;
       if is_call
       then code <- process_tool_call line (pyautogui_code st) ;; Ok (set_code st code)
       else Ok st)
      (Ok st)
  else Ok st.

Fixpoint scan_lines (lines : list string) (st : scan_state) : result scan_state :=
  match lines with
  | [] => Ok st
  | raw :: rest => st' <- scan_line raw st ;; scan_lines rest st'
  end.

(** Lines 225-230: the response cut into lines. *)
Definition response_lines (response : string) : list string :=
  split_char LF
    (replace "</tool_call>" (nl ++ "</tool_call>" ++ nl)
       (replace "<tool_call>" (nl ++ "<tool_call>" ++ nl) response)).

(** Lines 279-287: the summary made up from the first command. *)
Definition fallback_instruction (first_cmd : string) : string :=
  let action_type :=
    if contains "." first_cmd
    then match split_once "." first_cmd with
         | Some (_, after) =>
             match split_once "(" after with
             | Some (name, _) => name
             | None => after
             end
         | None => first_cmd
         end
    else first_cmd in
  "Performing " ++ action_type ++ " action".

Definition parse_response (response : option string)
  : result (string * list string) :=
  match response with
  | None => Ok (EmptyString, [])
  | Some response =>
      if is_empty (strip response) then Ok (EmptyString, [])
      else
        st <- scan_lines (response_lines response)
                {| low_level_instruction := initial_instruction response;
                   pyautogui_code := [];
                   inside_tool_call := false;
                   current_tool_call := [] |} ;;
        code <- match current_tool_call st with
                | [] => Ok (pyautogui_code st)
                | block => process_tool_call (join nl block) (pyautogui_code st)
                end ;;
        match code with
        | first_cmd :: _ =>
            if is_empty (low_level_instruction st)
            then Ok (fallback_instruction first_cmd, code)
            else Ok (low_level_instruction st, code)
        | [] => Ok (low_level_instruction st, code)
        end
  end.

End Parser.
End ResponseParser.

(** ** The skill store: [skills/repository.py] *)

Module Repository.
Import PyStr.

Record Skill : Type := {
  id : string;
  title : string;
  body : string;
  path : string
}.

Record SkillSummary : Type := {
  summary_id : string;
  summary_title : string
}.

(** An entry of the skills directory: a text file with what is stored in
    it, a file that is not UTF-8 text, or a sub-directory.  An entry is
    addressed by its name in the directory (a name with a path separator
    addresses another directory, which is not modelled); failures of the
    device (permissions, full disk) are not modelled. *)
Inductive node : Type :=
| TextFile (stored : string)
| BinaryFile
| Directory.

(** The bytes of a name in UTF-8: two for a character above 127. *)
Fixpoint utf8_bytes (name : string) : nat :=
  match name with
  | EmptyString => 0
  | String c name' => (if (code c <? 128)%nat then 1 else 2) + utf8_bytes name'
  end.

(** The longest entry name the file system takes, in bytes ([NAME_MAX]
    of APFS and of ext4).  For a longer name every system call on the
    path fails with [ENAMETOOLONG], an [OSError]. *)
Definition NAME_MAX : nat := 255.

Definition fits (name : string) : bool := (utf8_bytes name <=? NAME_MAX)%nat.

(** The repository: the directory, by entry name, and the cache. *)
Record repository : Type := {
  skills_dir : list (string * node);
  _skills : list (string * Skill)
}.

(** Reading in text mode turns [\r\n] and [\r] into [\n]. *)
Fixpoint universal_newlines (s : string) : string :=
  match s with
  | EmptyString => EmptyString
  | String c s' =>
      if Ascii.eqb c CR
      then String LF (match s' with
                      | String d s'' => if Ascii.eqb d LF then universal_newlines s''
                                        else universal_newlines s'
                      | EmptyString => EmptyString
                      end)
      else String c (universal_newlines s')
  end.

(** [path.read_text(encoding="utf-8")]. *)
Definition read_text (dir : list (string * node)) (name : string) : result string :=
  if fits name then
    match PyDict.get name dir with
    | Some (TextFile stored) => Ok (universal_newlines stored)
    | Some BinaryFile => Raise (ValueError "invalid utf-8")
    | Some Directory | None => Raise OSError
    end
  else Raise OSError.

(** [path.write_text(content, encoding="utf-8")]. *)
Definition write_text (dir : list (string * node)) (name content : string)
  : result (list (string * node)) :=
  if fits name then
    match PyDict.get name dir with
    | Some Directory => Raise OSError
    | _ => Ok (PyDict.set name (TextFile content) dir)
    end
  else Raise OSError.

(** [path.exists()]: it answers for a missing entry, and raises for a
    name that is too long ([ENAMETOOLONG] is not among the errors it
    takes for an absent file). *)
Definition exists_ (dir : list (string * node)) (name : string) : result bool :=
  if fits name then Ok (PyDict.mem name dir) else Raise OSError.

(** [path.unlink()]. *)
Definition unlink (dir : list (string * node)) (name : string)
  : result (list (string * node)) :=
  if fits name then
    match PyDict.get name dir with
    | Some Directory | None => Raise OSError
    | Some _ => Ok (PyDict.pop name dir)
    end
  else Raise OSError.

(** The index of the last dot of a name, if any. *)
Fixpoint last_dot (s : string) (i : nat) (found : option nat) : option nat :=
  match s with
  | EmptyString => found
  | String c s' => last_dot s' (S i) (if Ascii.eqb c "." then Some i else found)
  end.

(** [path.stem]: the name without its last suffix; a leading or a final
    dot starts no suffix. *)
Definition stem (name : string) : string :=
  match last_dot name 0 None with
  | Some (S i) => if (S (S i) <? String.length name)%nat then take (S i) name else name
  | _ => name
  end.

(** [sorted] on the names of the paths of one directory. *)
Fixpoint insert_sorted (name : string) (sorted : list string) : list string :=
  match sorted with
  | [] => [name]
  | n :: rest =>
      if String.leb name n then name :: sorted else n :: insert_sorted name rest
  end.

Definition sorted (names : list string) : list string :=
  fold_right insert_sorted [] names.

(** [self._skills_dir.glob("*.md")]. *)
Definition glob_md (dir : list (string * node)) : list string :=
  filter (fun name => endswith name ".md") (PyDict.keys dir).

Definition _parse_markdown_lines (lines : list string) (fallback_title : string)
  : string * list string :=
  (fix scan (rest : list string) : string * list string :=
     match rest with
     | [] => (fallback_title, lines)
     | raw :: later =>
         let stripped := strip raw in
         if is_empty stripped then scan later
         else
           let t := strip (lstrip_chars "# " stripped) in
           (if is_empty t then fallback_title else t, later)
     end) lines.

Definition _parse_markdown (text fallback_title : string) : string * string :=
  let '(title, body_lines) := _parse_markdown_lines (splitlines text) fallback_title in
  (title, strip (join nl body_lines)).

(** [_load_skill]: [None] when the file cannot be read. *)
Definition _load_skill (dir : list (string * node)) (name : string)
  : result (option Skill) :=
  match read_text dir name with
  | Raise OSError => Ok None
  | Raise e => Raise e
  | Ok data =>
      let '(title, body) := _parse_markdown data (stem name) in
      Ok (Some {| id := stem name; title := title; body := body; path := name |})
  end.

Fixpoint load_all (dir : list (string * node)) (names : list string)
    (skills : list (string * Skill)) : result (list (string * Skill)) :=
  match names with
  | [] => Ok skills
  | name :: rest =>
      loaded <- _load_skill dir name ;;
      match loaded with
      | Some skill => load_all dir rest (PyDict.set (id skill) skill skills)
      | None => load_all dir rest skills
      end
  end.

(** [refresh]: the repository afterwards, or the exception; the cache is
    replaced only once every file has been read. *)
Definition refresh (self : repository) : result repository :=
  skills <- load_all (skills_dir self) (sorted (glob_md (skills_dir self))) [] ;;
  Ok {| skills_dir := skills_dir self; _skills := skills |}.

Definition list_titles (self : repository) : list SkillSummary :=
  map (fun s => {| summary_id := id s; summary_title := title s |})
      (PyDict.values (_skills self)).

Definition get (self : repository) (skill_id : string) : result Skill :=
  match PyDict.get skill_id (_skills self) with
  | Some skill => Ok skill
  | None => Raise (KeyError skill_id)
  end.

Definition get_by_title (self : repository) (title_ : string) : option Skill :=
  let normalized := lower (strip title_) in
  find (fun skill => String.eqb (lower (strip (title skill))) normalized)
       (PyDict.values (_skills self)).

(** The first substitution of [_slugify]: every run of characters that
    are neither word characters nor hyphens becomes one hyphen. *)
Fixpoint sub_non_word (in_run : bool) (s : string) : string :=
  match s with
  | EmptyString => EmptyString
  | String c s' =>
      if isword c || Ascii.eqb c "-" then String c (sub_non_word false s')
      else if in_run then sub_non_word true s'
           else String "-" (sub_non_word true s')
  end.

(** The second substitution: a run of hyphens becomes one hyphen. *)
Fixpoint sub_hyphens (after_hyphen : bool) (s : string) : string :=
  match s with
  | EmptyString => EmptyString
  | String c s' =>
      if Ascii.eqb c "-"
      then if after_hyphen then sub_hyphens true s' else String c (sub_hyphens true s')
      else String c (sub_hyphens false s')
  end.

Definition _slugify (text : string) : string :=
  let slug := lower (strip text) in
  let slug := sub_non_word false slug in
  let slug := sub_hyphens false slug in
  let slug := strip_chars "-_" slug in
  if is_empty slug then "skill" else slug.

(** The loop of [_unique_path]; the directory has finitely many entries,
    which bounds the number of rounds.  [None] stands for a loop that has
    used up its rounds. *)
Fixpoint unique_path_loop (fuel : nat) (dir : list (string * node))
    (base path_ : string) (counter : nat) : option (result string) :=
  match exists_ dir path_ with
  | Raise e => Some (Raise e)
  | Ok true =>
      match fuel with
      | O => None
      | S fuel' =>
          unique_path_loop fuel' dir base
            (base ++ "-" ++ of_Z (Z.of_nat counter) ++ ".md") (S counter)
      end
  | Ok false => Some (Ok path_)
  end.

Definition _unique_path (dir : list (string * node)) (slug : string)
  : option (result string) :=
  let base := if is_empty slug then "skill" else slug in
  unique_path_loop (List.length dir) dir base (base ++ ".md") 1.

Definition _compose_file (title_ body_ : string) : string :=
  if is_empty body_ then "# " ++ title_ ++ nl
  else "# " ++ title_ ++ nl ++ nl ++ rstrip body_ ++ nl.

(** [upsert]; [None] for the path stands for a loop of [_unique_path]
    that does not end, which [unique_path_total] excludes. *)
Definition upsert (self : repository) (title_ body_ : string)
    (skill_id : option string) : option (result (Skill * repository)) :=
  let title_ := strip title_ in
  let body_ := strip_chars nl body_ in
  if is_empty title_ then Some (Raise (ValueError "title is required"))
  else
    let named :=
      option_map (fun found => p <- found ;; Ok (p, stem p))
                 (_unique_path (skills_dir self) (_slugify title_)) in
    let target :=
      match skill_id with
      | Some sid => if is_empty sid then named else Some (Ok (sid ++ ".md", sid))
      | None => named
      end in
    match target with
    | None => None
    | Some found =>
        Some ('(path_, sid) <- found ;;
              dir' <- write_text (skills_dir self) path_ (_compose_file title_ body_) ;;
              let skill := {| id := sid; title := title_; body := strip body_; path := path_ |} in
              Ok (skill, {| skills_dir := dir';
                            _skills := PyDict.set sid skill (_skills self) |}))
    end.

Definition delete (self : repository) (skill_id : string) : result repository :=
  match PyDict.get skill_id (_skills self) with
  | None => Raise (KeyError skill_id)
  | Some skill =>
      present <- exists_ (skills_dir self) (path skill) ;;
      dir' <- (if present then unlink (skills_dir self) (path skill)
               else Ok (skills_dir self)) ;;
      Ok {| skills_dir := dir'; _skills := PyDict.pop skill_id (_skills self) |}
  end.

End Repository.

(** ** The skill injector: [qwen_skills.py] *)

Module SkillManager.
Import PyStr Repository.

Record manager : Type := {
  _repo : option repository;
  _catalog : option (list SkillSummary)
}.

(** The text used for a skill without a body (a constant of the source,
    kept as its UTF-8 bytes). *)
Definition no_steps_text : string := "（技能暂无详细步骤）".

(** The pattern [<skill>(.*?)</skill>] is compiled with [re.IGNORECASE].
    On the strings of this development, whose characters are the code
    points below 256, a letter of the pattern matches its two cases and
    nothing else, which is the comparison of the lower-case forms made
    here.  On other strings the pattern matches more than [str.lower]
    folds: U+017F for [s], U+0130 and U+0131 for [i]. *)

(** The text up to the first [</skill>], in any letter case, and the
    number of its characters. *)
Fixpoint until_close (s : string) : option (string * nat) :=
  if String.prefix "</skill>" (lower s) then Some (EmptyString, 0)
  else match s with
       | EmptyString => None
       | String c s' =>
           match until_close s' with
           | Some (inner, n) => Some (String c inner, S n)
           | None => None
           end
       end.

(** The matches of [<skill>(.*?)</skill>] (letter case ignored, line ends
    allowed inside), from the left and without overlap; [skip] counts the
    characters of a match still to be passed over. *)
Fixpoint requests_from (skip : nat) (s : string) : list string :=
  match s with
  | EmptyString => []
  | String _ s' =>
      match skip with
      | S k => requests_from k s'
      | O =>
          if String.prefix "<skill>" (lower s)
          then match until_close (drop 7 s) with
               | Some (inner, n) =>
                   let ref := strip inner in
                   ((if is_empty ref then [] else [ref])
                    ++ requests_from (7 + n + 8 - 1) s')%list
               | None => requests_from 0 s'
               end
          else requests_from 0 s'
      end
  end.

Definition extract_requests (response : string) : list string :=
  requests_from 0 response.

Definition lookup (self : manager) (reference : string) : result (option Skill) :=
  match _repo self with
  | None => Ok None
  | Some repo =>
      let ref := strip reference in
      if is_empty ref then Ok None
      else match get repo ref with
           | Ok skill => Ok (Some skill)
           | Raise (KeyError _) => Ok (get_by_title repo ref)
           | Raise e => Raise e
           end
  end.

Definition format_skill_message (skill : Skill) : string :=
  let body := if is_empty (strip (body skill)) then no_steps_text
              else strip (body skill) in
  "Here is the stored skill " ++ PyVal.dq ++ title skill ++ PyVal.dq ++ ". "
  ++ "Treat the following steps as a reliable example:" ++ nl ++ body.

Definition not_available (reference : string) : string :=
  "Skill " ++ PyVal.dq ++ reference ++ PyVal.dq
  ++ " is not available. Continue the task without it.".

Definition build_skill_reply (self : manager) (reference : string)
  : result (string * bool) :=
  skill <- lookup self reference ;;
  match skill with
  | Some sk => Ok (format_skill_message sk, true)
  | None => Ok (not_available reference, false)
  end.

Definition build_catalog_section (summaries : list SkillSummary) : string :=
  match summaries with
  | [] => "(no skills available)"
  | _ => join nl (map (fun summary => "- " ++ summary_title summary) summaries)
  end.

End SkillManager.

(** ** The conversation engine: [qwen_agent.py] *)

Module Agent.
Import PyStr.

(** One part of a message's [content]: a dictionary whose [type] is
    [text], [image_url] or something else. *)
Inductive part : Type :=
| TextPart (text : string)
| ImagePart (url : string)
| OtherPart (type : string).

(** A message dictionary; [role] is [None] when the key is absent. *)
Record message : Type := {
  role : option string;
  content : list part
}.

Definition is_text (p : part) : bool :=
  match p with TextPart _ => true | _ => false end.
Definition is_image (p : part) : bool :=
  match p with ImagePart _ => true | _ => false end.

Definition placeholder : part := TextPart "(previous screenshot omitted)".

(** An entry of [latest_skill_outputs]. *)
Record skill_output : Type := {
  output_title : string;
  output_body : string;
  output_available : bool
}.

(** What the agent keeps between calls, as far as the functions below
    read or write it. *)
Record agent : Type := {
  max_steps : Z;
  skill_manager : SkillManager.manager;
  messages : list message;
  executed_actions : list string;
  latest_skill_outputs : list skill_output
}.

Definition MAX_SKILL_TURNS : nat := 3.

(** The body of the loop of [_prepare_messages_for_send] up to
    [trimmed.append]: the outgoing message and the image budget left. *)
Definition trim_message (image_budget : Z) (raw : message) : message * Z :=
  let role := match role raw with Some r => r | None => "user" end in
  let text_parts := filter is_text (content raw) in
  let image_parts := filter is_image (content raw) in
  match image_parts with
  | first_image :: _ =>
      if (0 <? image_budget)%Z
      then ({| role := Some role; content := (text_parts ++ [first_image])%list |},
            (image_budget - 1)%Z)
      else ({| role := Some role;
               content := match text_parts with
                          | [] => [placeholder]
                          | _ => text_parts
                          end |},
            image_budget)
  | [] => ({| role := Some role; content := text_parts |}, image_budget)
  end.

(** The loop [for raw in reversed(remaining)], with its [break]. *)
Fixpoint trim_loop (max_messages : Z) (reversed : list message)
    (image_budget : Z) (trimmed : list message) : list message :=
  match reversed with
  | [] => trimmed
  | raw :: rest =>
      let '(m, budget) := trim_message image_budget raw in
      let trimmed' := (trimmed ++ [m])%list in
      if (max_messages <=? Z.of_nat (List.length trimmed'))%Z
      then trimmed'
      else trim_loop max_messages rest budget trimmed'
  end.

Definition is_system (m : message) : bool :=
  match role m with
  | Some r => String.eqb r "system"
  | None => false
  end.

Definition _prepare_messages_for_send_with (max_messages max_images : Z)
    (self : agent) : list message :=
  match messages self with
  | [] => []
  | first :: rest =>
      let '(system_msg, remaining) :=
        if is_system first then (Some first, rest) else (None, first :: rest) in
      let trimmed := rev (trim_loop max_messages (rev remaining) max_images []) in
      match system_msg with
      | Some sys => sys :: trimmed
      | None => trimmed
      end
  end.

(** [_prepare_messages_for_send()] with its default arguments, as its
    only caller uses it. *)
Definition _prepare_messages_for_send : agent -> list message :=
  _prepare_messages_for_send_with 12 1.

Definition text_message (role_ text : string) : message :=
  {| role := Some role_; content := [TextPart text] |}.

(** The loop [for ref in skill_refs] of [_chat_with_skills]: every request
    is answered by one user message. *)
Fixpoint answer_requests (manager : SkillManager.manager) (skill_refs : list string)
    (history : list message) (outputs : list skill_output)
  : result (list message * list skill_output) :=
  match skill_refs with
  | [] => Ok (history, outputs)
  | ref :: rest =>
      '(reply_text, found) <- SkillManager.build_skill_reply manager ref ;;
      answer_requests manager rest
        (history ++ [text_message "user" reply_text])%list
        (outputs ++ [{| output_title := ref; output_body := reply_text;
                        output_available := found |}])%list
  end.

Section Chat.
(** [call_llm] on a payload with the given messages: the reply of the
    provider, or the exception left once the retries are used up. *)
Variable call_llm : list message -> result string.

(** The loop of [_chat_with_skills]; [turns_left] is [MAX_SKILL_TURNS]
    less the skill turns taken so far. *)
Fixpoint chat_loop (turns_left : nat) (self : agent) : result (string * agent) :=
  response_raw <- call_llm (_prepare_messages_for_send self) ;;
  let history := (messages self ++ [text_message "assistant" response_raw])%list in
  match SkillManager.extract_requests response_raw with
  | [] =>
      Ok (response_raw,
          {| max_steps := max_steps self; skill_manager := skill_manager self;
             messages := history; executed_actions := executed_actions self;
             latest_skill_outputs := latest_skill_outputs self |})
  | skill_refs =>
      '(history', outputs) <- answer_requests (skill_manager self) skill_refs history [] ;;
      let self' :=
        {| max_steps := max_steps self; skill_manager := skill_manager self;
           messages := history'; executed_actions := executed_actions self;
           latest_skill_outputs := outputs |} in
      match turns_left with
      | S (S _ as turns_left') => chat_loop turns_left' self'
      | _ => Ok (response_raw, self')
      end
  end.

Definition _chat_with_skills (self : agent) : result (string * agent) :=
  chat_loop MAX_SKILL_TURNS
    {| max_steps := max_steps self; skill_manager := skill_manager self;
       messages := messages self; executed_actions := executed_actions self;
       latest_skill_outputs := [] |}.
End Chat.

(** What the last lines of [predict] leave behind: the agent, the pair
    that is returned and the final value of the local
    [low_level_instruction]. *)
Record predict_outcome : Type := {
  agent_after : agent;
  returned : string * list string;
  final_instruction : string
}.

Definition step_limit_reason : string :=
  "Fail the task because reaching the maximum step limit.".

(** Lines 183-200 of [predict]: [response_display], [low_level_instruction]
    and [pyautogui_code] are the locals as the parser left them. *)
Definition predict_finish (self : agent) (response_display : string)
    (low_level_instruction : string) (pyautogui_code : list string)
  : predict_outcome :=
  let recorded := if is_empty low_level_instruction
                  then "Skill interaction" else low_level_instruction in
  let self' := {| max_steps := max_steps self;
                  skill_manager := skill_manager self;
                  messages := messages self;
                  executed_actions := (executed_actions self ++ [recorded])%list;
                  latest_skill_outputs := latest_skill_outputs self |} in
  let current_step := Z.of_nat (List.length (executed_actions self')) in
  let forced :=
    (max_steps self <=? current_step)%Z
    && match pyautogui_code with
       | first :: _ => negb (contains "DONE" first) && negb (contains "FAIL" first)
       | [] => false
       end in
  if forced
  then {| agent_after := self';
          returned := (response_display, ["FAIL"]);
          final_instruction := step_limit_reason |}
  else {| agent_after := self';
          returned := (response_display, pyautogui_code);
          final_instruction := low_level_instruction |}.

End Agent.

(** ** The run lifecycle manager: [services/gui_agent.py] *)

Module Service.
Import PyStr.

(** An event dictionary: the keys the service reads or writes, each
    [None] when absent, and the remaining keys. *)
Record event : Type := {
  ev_type : option string;
  ev_status : option string;
  ev_message : option string;
  ev_run_id : option string;
  ev_task_id : option string;
  ev_result_dir : option string;
  ev_internal : option string;
  ev_rest : list (string * json)
}.

Definition blank_event : event :=
  {| ev_type := None; ev_status := None; ev_message := None; ev_run_id := None;
     ev_task_id := None; ev_result_dir := None; ev_internal := None; ev_rest := [] |}.

Record GuiAgentRun : Type := {
  run_id : string;
  session_id : string;
  instruction : string;
  queue : list event;
  status : string;
  history : list event;
  task : bool;
  task_id : option string;
  result_dir : option string;
  created_at : Z;
  completed_at : option Z;
  cancel_event : bool
}.

Record GuiAgentRunHandle : Type := {
  handle_run_id : string;
  handle_session_id : string;
  handle_instruction : string;
  handle_task_id : option string
}.

(** The service: the run table, the two settings, and the run ids whose
    removal [call_later] has scheduled. *)
Record service : Type := {
  _runs : list (string * GuiAgentRun);
  _history_limit : Z;
  _retention_seconds : Z;
  scheduled : list string
}.

Definition with_runs (self : service) (runs : list (string * GuiAgentRun)) : service :=
  {| _runs := runs;
     _history_limit := _history_limit self;
     _retention_seconds := _retention_seconds self;
     scheduled := scheduled self |}.

(** [status in {"pending", "running"}] and
    [status in {"completed", "error", "cancelled"}]. *)
Definition is_active (st : string) : bool :=
  String.eqb st "pending" || String.eqb st "running".
Definition is_terminal (st : string) : bool :=
  String.eqb st "completed" || String.eqb st "error" || String.eqb st "cancelled".

(** Truth of an [Optional[str]]. *)
Definition truthy (v : option string) : bool :=
  match v with
  | Some s => negb (is_empty s)
  | None => false
  end.

Definition _active_run (self : service) : option GuiAgentRun :=
  find (fun run => is_active (status run)) (PyDict.values (_runs self)).

Definition conflict : exn := RuntimeError "Another GUI agent task is already running".

(** [start_run]; [uuid] is the value of [uuid.uuid4().hex] and [now] that
    of [time.time()].  The result comes with the service afterwards. *)
Definition start_run (self : service) (session_id_ instruction_ uuid : string) (now : Z)
  : result GuiAgentRunHandle * service :=
  let normalized := strip instruction_ in
  let create :=
    let run := {| run_id := uuid; session_id := session_id_;
                  instruction := normalized; queue := [];
                  status := "running"; history := []; task := true;
                  task_id := None; result_dir := None;
                  created_at := now; completed_at := None;
                  cancel_event := false |} in
    (Ok {| handle_run_id := uuid; handle_session_id := session_id_;
           handle_instruction := normalized; handle_task_id := None |},
     with_runs self (PyDict.set uuid run (_runs self))) in
  if is_empty normalized then (Raise (ValueError "Instruction is required"), self)
  else
    match _active_run self with
    | Some active => if is_active (status active) then (Raise conflict, self) else create
    | None => create
    end.

Definition has_run (self : service) (run_id_ : string) : bool :=
  PyDict.mem run_id_ (_runs self).

Definition get_run (self : service) (run_id_ : string) : option GuiAgentRun :=
  PyDict.get run_id_ (_runs self).

(** The status event of a cancellation (its message is a constant of the
    source, kept as its UTF-8 bytes). *)
Definition cancel_status_event (run_id_ : string) : event :=
  {| ev_type := Some "status"; ev_status := Some "cancelled";
     ev_message := Some "用户已请求中断"; ev_run_id := Some run_id_;
     ev_task_id := None; ev_result_dir := None; ev_internal := None; ev_rest := [] |}.

(** [cancel_run]: the value returned and the service afterwards.  The
    queue is unbounded, so [put_nowait] always enqueues. *)
Definition cancel_run (self : service) (run_id_ : string) : bool * service :=
  match PyDict.get run_id_ (_runs self) with
  | None => (false, self)
  | Some run =>
      if is_terminal (status run) then (false, self)
      else
        let run' :=
          {| run_id := run_id run; session_id := session_id run;
             instruction := instruction run;
             queue := (queue run ++ [cancel_status_event run_id_])%list;
             status := "cancelled"; history := history run; task := task run;
             task_id := task_id run; result_dir := result_dir run;
             created_at := created_at run; completed_at := completed_at run;
             cancel_event := true |} in
        (true, with_runs self (PyDict.set run_id_ run' (_runs self)))
  end.

(** [_handle_event]. *)
Definition _handle_event (self : service) (run_id_ : string) (ev : event) : service :=
  match PyDict.get run_id_ (_runs self) with
  | None => self
  | Some run =>
      let enriched :=
        {| ev_type := ev_type ev; ev_status := ev_status ev;
           ev_message := ev_message ev;
           ev_run_id := match ev_run_id ev with
                        | Some r => Some r
                        | None => Some run_id_
                        end;
           ev_task_id := match ev_task_id ev with
                         | Some t => Some t
                         | None => if truthy (task_id run) then task_id run else None
                         end;
           ev_result_dir := ev_result_dir ev; ev_internal := ev_internal ev;
           ev_rest := ev_rest ev |} in
      let history1 := (history run ++ [enriched])%list in
      let history2 := if (_history_limit self <? Z.of_nat (List.length history1))%Z
                      then tl history1 else history1 in
      let status' :=
        match ev_type enriched with
        | Some t =>
            if String.eqb t "error" then "error"
            else if String.eqb t "complete"
                 then match ev_status enriched with
                      | Some st => st
                      | None => "completed"
                      end
                 else status run
        | None => status run
        end in
      let run' :=
        {| run_id := run_id run; session_id := session_id run;
           instruction := instruction run;
           queue := (queue run ++ [enriched])%list;
           status := status'; history := history2; task := task run;
           task_id := if truthy (task_id run) then task_id run else ev_task_id enriched;
           result_dir := if truthy (result_dir run) then result_dir run
                         else ev_result_dir enriched;
           created_at := created_at run; completed_at := completed_at run;
           cancel_event := cancel_event run |} in
      with_runs self (PyDict.set run_id_ run' (_runs self))
  end.

Definition close_event : event :=
  {| ev_type := None; ev_status := None; ev_message := None; ev_run_id := None;
     ev_task_id := None; ev_result_dir := None; ev_internal := Some "close";
     ev_rest := [] |}.

(** [_finalize_run]. *)
Definition _finalize_run (self : service) (run_id_ : string) (now : Z) : service :=
  match PyDict.get run_id_ (_runs self) with
  | None => self
  | Some run =>
      let run' :=
        {| run_id := run_id run; session_id := session_id run;
           instruction := instruction run;
           queue := (queue run ++ [close_event])%list;
           status := if is_terminal (status run) then status run else "completed";
           history := history run; task := task run;
           task_id := task_id run; result_dir := result_dir run;
           created_at := created_at run; completed_at := Some now;
           cancel_event := cancel_event run |} in
      {| _runs := PyDict.set run_id_ run' (_runs self);
         _history_limit := _history_limit self;
         _retention_seconds := _retention_seconds self;
         scheduled := (scheduled self ++ [run_id_])%list |}
  end.

(** The timer set by [_finalize_run] fires: [self._runs.pop(run_id, None)]. *)
Definition expire (self : service) (run_id_ : string) : service :=
  if existsb (String.eqb run_id_) (scheduled self)
  then {| _runs := PyDict.pop run_id_ (_runs self);
          _history_limit := _history_limit self;
          _retention_seconds := _retention_seconds self;
          scheduled := List.remove string_dec run_id_ (scheduled self) |}
  else self.

(** How the worker of [_execute_run] ends. *)
Inductive outcome : Type :=
| NoProfile
| Returned (task_id_ result_dir_ : option string)
| Failed.

Definition no_profile_event (run_id_ : string) : event :=
  {| ev_type := Some "error";
     ev_status := None;
     ev_message := Some "未设置视觉模型，请在设置中选择 VLM 后再试。";
     ev_run_id := Some run_id_; ev_task_id := None; ev_result_dir := None;
     ev_internal := None; ev_rest := [] |}.

Definition update_run (self : service) (run_id_ : string)
    (f : GuiAgentRun -> GuiAgentRun) : service :=
  match PyDict.get run_id_ (_runs self) with
  | None => self
  | Some run => with_runs self (PyDict.set run_id_ (f run) (_runs self))
  end.

(** The end of [_execute_run]: what it writes to the run, then
    [_finalize_run]. *)
Definition finish_execute (self : service) (run_id_ : string) (o : outcome) (now : Z)
  : service :=
  let self1 :=
    match o with
    | NoProfile =>
        update_run self run_id_ (fun run =>
          {| run_id := run_id run; session_id := session_id run;
             instruction := instruction run;
             queue := (queue run ++ [no_profile_event (run_id run)])%list;
             status := status run; history := history run; task := task run;
             task_id := task_id run; result_dir := result_dir run;
             created_at := created_at run; completed_at := completed_at run;
             cancel_event := cancel_event run |})
    | Returned task_id_ result_dir_ =>
        update_run self run_id_ (fun run =>
          {| run_id := run_id run; session_id := session_id run;
             instruction := instruction run; queue := queue run;
             status := status run; history := history run; task := task run;
             task_id := task_id_; result_dir := result_dir_;
             created_at := created_at run; completed_at := completed_at run;
             cancel_event := cancel_event run |})
    | Failed => self
    end in
  _finalize_run self1 run_id_ now.

(** The events [run_prompt] hands to its callback.  Its task
    configuration has no [enhanced_task_id], so a [complete] event says
    [cancelled], [success] or [partial]. *)
Inductive completion : Type := Cancelled | Success | Partial.

Inductive emitted : Type :=
| EStart (instruction_ result_dir_ : string)
| EStatus (message : string)
| EScreenshot (message : string)
| ESkill (message : string)
| EStep (message : string)
| EComplete (how : completion) (message result_dir_ : string)
| EError (message result_dir_ : string).

Definition completion_status (c : completion) : string :=
  match c with
  | Cancelled => "cancelled"
  | Success => "success"
  | Partial => "partial"
  end.

(** The dictionary of an emitted event, with the [task_id] that
    [_emit_event] of [run_prompt] attaches. *)
Definition event_of (task_id_ : string) (e : emitted) : event :=
  let base kind msg :=
    {| ev_type := Some kind; ev_status := None; ev_message := msg;
       ev_run_id := None; ev_task_id := Some task_id_; ev_result_dir := None;
       ev_internal := None; ev_rest := [] |} in
  match e with
  | EStart i r =>
      {| ev_type := Some "start"; ev_status := None; ev_message := None;
         ev_run_id := None; ev_task_id := Some task_id_; ev_result_dir := Some r;
         ev_internal := None; ev_rest := [("instruction", JStr i)] |}
  | EStatus m => base "status" (Some m)
  | EScreenshot m => base "screenshot" (Some m)
  | ESkill m => base "skill" (Some m)
  | EStep m => base "step" (Some m)
  | EComplete how m r =>
      {| ev_type := Some "complete"; ev_status := Some (completion_status how);
         ev_message := Some m; ev_run_id := None; ev_task_id := Some task_id_;
         ev_result_dir := Some r; ev_internal := None; ev_rest := [] |}
  | EError m r =>
      {| ev_type := Some "error"; ev_status := None; ev_message := Some m;
         ev_run_id := None; ev_task_id := Some task_id_; ev_result_dir := Some r;
         ev_internal := None; ev_rest := [] |}
  end.

(** What happens to the service, one atomic step of the event loop at a
    time. *)
Inductive call : Type :=
| StartRun (session_id_ instruction_ uuid : string) (now : Z)
| CancelRun (run_id_ : string)
| Emit (run_id_ task_id_ : string) (e : emitted)
| FinishExecute (run_id_ : string) (o : outcome) (now : Z)
| Expire (run_id_ : string).

Definition step (self : service) (c : call) : service :=
  match c with
  | StartRun sid ins uuid now => snd (start_run self sid ins uuid now)
  | CancelRun rid => snd (cancel_run self rid)
  | Emit rid tid e => _handle_event self rid (event_of tid e)
  | FinishExecute rid o now => finish_execute self rid o now
  | Expire rid => expire self rid
  end.

Definition run_calls (self : service) (calls : list call) : service :=
  fold_left step calls self.

(** [GuiAgentService(...)] right after construction. *)
Definition new_service (history_limit retention_seconds : Z) : service :=
  {| _runs := []; _history_limit := history_limit;
     _retention_seconds := retention_seconds; scheduled := [] |}.

Definition active_runs (self : service) : list GuiAgentRun :=
  filter (fun run => is_active (status run)) (PyDict.values (_runs self)).

End Service.

(** ** The statements of the specification, and sample data *)

Module Spec.
Import PyStr PyVal.

(** The pair [(int(x * sx), int(y * sy))] for two scale factors that are
    computed first, [sx] before [sy]. *)
Definition scaled (sx sy : result PyFloat.float) (x y : json) : result (Z * Z) :=
  x_scale <- sx ;;
  y_scale <- sy ;;
  fx <- py_mul_float x x_scale ;;
  ax <- PyFloat.trunc fx ;;
  fy <- py_mul_float y y_scale ;;
  ay <- PyFloat.trunc fy ;;
  Ok (ax, ay).

(** The pair [(int(x), int(y))]. *)
Definition unchanged (x y : json) : result (Z * Z) :=
  ax <- py_int x ;; ay <- py_int y ;; Ok (ax, ay).

(** The pair [(int(x*W/base), int(y*H/base))] read as Python reads it for
    integers [x], [y]: the product first, then the division. *)
Definition product_first (base : PyFloat.float) (W H x y : Z) : result (Z * Z) :=
  fx <- PyFloat.int_div_float (x * W) base ;;
  ax <- PyFloat.trunc fx ;;
  fy <- PyFloat.int_div_float (y * H) base ;;
  ay <- PyFloat.trunc fy ;;
  Ok (ax, ay).

(** The actions that take a screen position. *)
Definition pointer_actions : list string :=
  ["left_click"; "right_click"; "middle_click"; "double_click";
   "left_click_drag"; "mouse_move"].

(** The command of a pointer action at the adjusted position. *)
Definition pointer_command (py_repr : json -> string) (action : string)
    (args : list (string * json)) (adj_x adj_y : Z) : string :=
  let call f := f ++ "(" ++ of_Z adj_x ++ ", " ++ of_Z adj_y ++ ")" in
  if String.eqb action "left_click" then call "pyautogui.click"
  else if String.eqb action "right_click" then call "pyautogui.rightClick"
  else if String.eqb action "middle_click" then call "pyautogui.middleClick"
  else if String.eqb action "double_click" then call "pyautogui.doubleClick"
  else if String.eqb action "mouse_move" then call "pyautogui.moveTo"
  else "pyautogui.dragTo(" ++ of_Z adj_x ++ ", " ++ of_Z adj_y ++ ", duration="
       ++ match PyDict.get "duration" args with
          | Some v => py_str py_repr v
          | None => "0.5"
          end ++ ")".

(** A tool-call text names an action outside the supported set: it
    decodes to arguments whose normalised action has no branch. *)
Definition unsupported_call (json_loads : string -> result json)
    (py_repr : json -> string) (text : string) : bool :=
  match ResponseParser._coerce_json json_loads text with
  | Ok tool_call =>
      match ResponseParser.tool_call_args tool_call with
      | Some args =>
          negb (existsb (String.eqb (ResponseParser.action_name py_repr args))
                        ResponseParser.supported_actions)
      | None => false
      end
  | Raise _ => false
  end.

(** The text of a collected block, if any line was collected. *)
Definition block_text (current : list string) : list string :=
  match current with
  | [] => []
  | block => [join nl block]
  end.

(** The tool-call texts of an output, in order: the blocks between the
    markers, and the bare one-line objects with a name and arguments. *)
Fixpoint collect_calls (json_loads : string -> result json) (lines : list string)
    (inside : bool) (current : list string) : list string :=
  match lines with
  | [] => block_text current
  | raw :: rest =>
      let line := strip raw in
      if is_empty line then collect_calls json_loads rest inside current
      else if startswith (lower line) "action:"
      then collect_calls json_loads rest inside current
      else if startswith line "<tool_call>"
      then collect_calls json_loads rest true current
      else if startswith line "</tool_call>"
      then (block_text current ++ collect_calls json_loads rest false [])%list
      else if inside
      then collect_calls json_loads rest true (current ++ [line])%list
      else if startswith line "{" && endswith line "}"
      then match json_loads line with
           | Ok json_obj =>
               match ResponseParser.has_name_and_arguments json_obj with
               | Ok true => line :: collect_calls json_loads rest inside current
               | _ => collect_calls json_loads rest inside current
               end
           | Raise _ => collect_calls json_loads rest inside current
           end
      else collect_calls json_loads rest inside current
  end.

Definition tool_call_texts (json_loads : string -> result json) (response : string)
  : list string :=
  collect_calls json_loads (ResponseParser.response_lines response) false [].

(** What [json.loads] gives for a text that starts with a brace is a
    dictionary. *)
Definition objects_only (json_loads : string -> result json) : Prop :=
  forall text v, startswith text "{" = true -> json_loads text = Ok v ->
                 exists d, v = JObj d.

(** [json.loads] decodes a one-line object of the output, or rejects it
    with [json.JSONDecodeError]: it raises nothing else on a line that
    starts and ends with a brace. *)
Definition decodes_line (json_loads : string -> result json) (raw : string) : bool :=
  let line := strip raw in
  if startswith line "{" && endswith line "}"
  then match json_loads line with
       | Ok _ | Raise JSONDecodeError => true
       | Raise _ => false
       end
  else true.

(** A line that starts with [action:] in some letter case spells it
    [Action:] somewhere. *)
Definition spelled (raw : string) : bool :=
  let line := strip raw in
  if startswith (lower line) "action:" then contains "Action:" line else true.

(** The summary an [Action:] line gives: the text after the marker, cut at
    the first structured-block marker. *)
Definition line_summary (line : string) : string :=
  match split_once "Action:" line with
  | Some (_, after) => ResponseParser.cut_markers (strip after)
  | None => EmptyString
  end.

Definition next_summary (summary raw : string) : string :=
  let line := strip raw in
  if is_empty summary && negb (is_empty line) && startswith (lower line) "action:"
  then line_summary line
  else summary.

(** The summary of an output: the first text that follows an [Action:]
    marker, empty when there is none. *)
Definition action_summary (response : string) : string :=
  if is_empty (strip response) then EmptyString
  else fold_left next_summary (ResponseParser.response_lines response)
                 (ResponseParser.initial_instruction response).

(** [response is None or not response.strip()] in the words of the claim:
    no response, or one of blanks only. *)
Definition blank (response : option string) : bool :=
  match response with
  | None => true
  | Some s => all_chars isspace s
  end.

(** [t] occurs in [s]: [s] is [a ++ t ++ b]. *)
Definition infix_of (t s : string) : Prop := exists a b, s = a ++ t ++ b.

(** [n] is [s] with line feeds inserted. *)
Inductive padded : string -> string -> Prop :=
| padded_nil : padded EmptyString EmptyString
| padded_keep c n s : padded n s -> padded (String c n) (String c s)
| padded_insert n s : padded n s -> padded (String LF n) s.

Definition no_linefeed (s : string) : bool :=
  all_chars (fun c => negb (Ascii.eqb c LF)) s.

(** *** The outbound message list *)

(** The last [n] items of a list. *)
Definition last_n {A : Type} (n : nat) (l : list A) : list A :=
  skipn (List.length l - n) l.

Definition has_image (m : Agent.message) : bool :=
  match filter Agent.is_image (Agent.content m) with
  | [] => false
  | _ => true
  end.

Definition role_or_user (m : Agent.message) : string :=
  match Agent.role m with Some r => r | None => "user" end.

Definition texts (m : Agent.message) : list Agent.part :=
  filter Agent.is_text (Agent.content m).

(** A message sent with its first image after its texts. *)
Definition with_image (raw : Agent.message) : Agent.message :=
  {| Agent.role := Some (role_or_user raw);
     Agent.content := (texts raw ++ firstn 1 (filter Agent.is_image (Agent.content raw)))%list |}.

(** A message sent without its images: its texts when it has some,
    otherwise the placeholder when it had an image, otherwise nothing. *)
Definition without_image (raw : Agent.message) : Agent.message :=
  {| Agent.role := Some (role_or_user raw);
     Agent.content := match texts raw with
                      | [] => if has_image raw then [Agent.placeholder] else []
                      | ts => ts
                      end |}.

(** The messages sent for a window of the history, oldest first: the
    image stays with the latest message that has one. *)
Fixpoint render (window : list Agent.message) : list Agent.message :=
  match window with
  | [] => []
  | raw :: later =>
      (if has_image raw && negb (existsb has_image later)
       then with_image raw else without_image raw) :: render later
  end.

(** The system message that heads a history, and the rest of it. *)
Definition system_part (history : list Agent.message) : list Agent.message :=
  match history with
  | first :: _ => if Agent.is_system first then [first] else []
  | [] => []
  end.

Definition non_system_part (history : list Agent.message) : list Agent.message :=
  match history with
  | first :: rest => if Agent.is_system first then rest else history
  | [] => []
  end.

(** The messages the loop appends, latest first, for an image budget. *)
Fixpoint walk (budget : Z) (reversed : list Agent.message) : list Agent.message :=
  match reversed with
  | [] => []
  | raw :: rest =>
      let '(m, budget') := Agent.trim_message budget raw in m :: walk budget' rest
  end.

(** The number of images embedded in a list of messages. *)
Definition images_in (ms : list Agent.message) : nat :=
  List.length (filter Agent.is_image (List.concat (map Agent.content ms))).

(** *** Skill references *)

(** A reference resolves by id, or by a title that matches it without
    regard to letter case. *)
Definition resolves_by_id (repo : Repository.repository) (reference : string) : bool :=
  PyDict.mem (strip reference) (Repository._skills repo).

Definition resolves_by_title (repo : Repository.repository) (reference : string) : bool :=
  existsb (fun skill =>
             String.eqb (lower (strip (Repository.title skill))) (lower (strip reference)))
          (PyDict.values (Repository._skills repo)).

Definition unresolved (self : SkillManager.manager) (reference : string) : bool :=
  match SkillManager._repo self with
  | None => true
  | Some repo => negb (resolves_by_id repo reference) && negb (resolves_by_title repo reference)
  end.

(** The candidates of [_unique_path], by the number of rounds. *)
Definition candidate (base : string) (k : nat) : string :=
  match k with
  | O => base ++ ".md"
  | S _ => base ++ "-" ++ of_Z (Z.of_nat k) ++ ".md"
  end.

(** The base name [_unique_path] starts from. *)
Definition base_name (slug : string) : string :=
  if is_empty slug then "skill" else slug.

(** Every name [_unique_path] may try for a slug in a directory fits the
    limit of the file system: the slug with [.md], and the slug with the
    suffixes [-1] to [-n] for the [n] entries of the directory. *)
Definition roomy (dir : list (string * Repository.node)) (slug : string) : bool :=
  forallb (fun k => Repository.fits (candidate (base_name slug) k))
          (seq 0 (S (List.length dir))).

(** A run that is pending or running. *)
Definition active (run : Service.GuiAgentRun) : bool :=
  Service.is_active (Service.status run).

(** The number of values of a dictionary that pass a test. *)
Definition count {V : Type} (p : V -> bool) (d : PyDict.dict V) : nat :=
  List.length (filter p (PyDict.values d)).

End Spec.

(** Sample inputs, used where a statement is tried on concrete data. *)

Module Sample.
Import PyStr PyVal.

Definition quoted (s : string) : string := dq ++ s ++ dq.

(** A tool call of the model for the action [action], as text. *)
Definition call_text (action : string) : string :=
  "{" ++ quoted "name" ++ ": " ++ quoted "computer_use" ++ ", "
  ++ quoted "arguments" ++ ": {" ++ quoted "action" ++ ": " ++ quoted action ++ "}}".

Definition call_value (action : string) : json :=
  JObj [("name", JStr "computer_use"); ("arguments", JObj [("action", JStr action)])].

(** A decoder that knows the tool call of the unsupported action [fly]
    and agrees with [json.loads] on it; everything else it rejects. *)
Definition loads (text : string) : result json :=
  if String.eqb text (call_text "fly") then Ok (call_value "fly")
  else Raise JSONDecodeError.

Definition repr (v : json) : string := "?".

(** A one-line object whose number has 4301 digits, one more than [int]
    converts from text. *)
Definition long_number : string :=
  "{" ++ quoted "n" ++ ": " ++ string_of_list_ascii (repeat "1"%char 4301) ++ "}".

Definition over_limit : string :=
  "Exceeds the limit (4300 digits) for integer string conversion: "
  ++ "value has 4301 digits; use sys.set_int_max_str_digits() to increase the limit".

(** The decoder [loads] with the answer of [json.loads] on that line. *)
Definition loads_limit (text : string) : result json :=
  if String.eqb text long_number then Raise (ValueError over_limit) else loads text.

(** An output whose only tool call names the unsupported action [fly]. *)
Definition fly_only : string :=
  "<tool_call>" ++ call_text "fly" ++ "</tool_call>".

(** The same with a summary line before the block. *)
Definition fly_with_summary : string :=
  "Action: Fly away" ++ nl ++ fly_only.

(** A title of 300 letters. *)
Definition long_title : string := string_of_list_ascii (repeat "a"%char 300).

(** A response of blanks. *)
Definition blanks : string := "  " ++ nl ++ String (ascii_of_nat 9) " ".

(** A skills directory with one skill file, one file that is no skill and
    a sub-directory whose name ends in [.md]. *)
Definition directory : list (string * Repository.node) :=
  [ ("open-mail.md",
     Repository.TextFile ("# Open Mail" ++ nl ++ nl ++ "Click the mail icon." ++ nl));
    ("notes.txt", Repository.TextFile "not a skill");
    ("archive.md", Repository.Directory) ].

(** The repository over that directory, as [refresh] fills its cache. *)
Definition repo : Repository.repository :=
  {| Repository.skills_dir := directory;
     Repository._skills :=
       [("open-mail",
         {| Repository.id := "open-mail"; Repository.title := "Open Mail";
            Repository.body := "Click the mail icon."; Repository.path := "open-mail.md" |})] |}.

Definition skill_manager : SkillManager.manager :=
  {| SkillManager._repo := Some repo; SkillManager._catalog := None |}.

(** A history of six messages: the system prompt, the first user message
    with the instruction and a screenshot, the reply, and a second
    screenshot. *)
Definition history : list Agent.message :=
  [ {| Agent.role := Some "system"; Agent.content := [Agent.TextPart "You are a GUI agent."] |};
    {| Agent.role := Some "user";
       Agent.content := [Agent.TextPart "open the mail app"; Agent.ImagePart "shot-1"] |};
    {| Agent.role := Some "assistant"; Agent.content := [Agent.TextPart "Action: click"] |};
    {| Agent.role := Some "user"; Agent.content := [Agent.ImagePart "shot-2"] |};
    {| Agent.role := Some "assistant"; Agent.content := [Agent.TextPart "Action: type"] |};
    {| Agent.role := Some "user"; Agent.content := [Agent.ImagePart "shot-3"] |} ].

(** An agent with fourteen turns behind it and a budget of fifteen. *)
Definition agent_before_limit : Agent.agent :=
  {| Agent.max_steps := 15;
     Agent.skill_manager := skill_manager;
     Agent.messages := history;
     Agent.executed_actions := repeat "click" 14;
     Agent.latest_skill_outputs := [] |}.

(** The command of a [type] action whose text is [DONE]. *)
Definition type_done : string :=
  "import pyperclip; text_to_type = " ++ quoted "DONE"
  ++ "; pyperclip.copy(text_to_type); pyautogui.hotkey('command', 'v')".

(** A service with one run in progress, as [start_run] leaves it. *)
Definition running_service : Service.service :=
  snd (Service.start_run (Service.new_service 200 300) "session-1" "open the mail app"
         "run-1" 1000).

(** The same service once the run has been cancelled and has ended. *)
Definition ended_service : Service.service :=
  Service.run_calls running_service
    [Service.CancelRun "run-1";
     Service.Emit "run-1" "prompt_1" (Service.EComplete Service.Cancelled "cancelled" "out");
     Service.FinishExecute "run-1" (Service.Returned (Some "prompt_1") (Some "out")) 1010].

End Sample.

(** ** Further functions of the same sources *)

(** *** The prompt builder: [qwen_prompting.py] *)

Module PromptBuilder.
Import PyStr.

Section Templates.
(** The texts of the two prompt files, as [load_prompt] returns them. *)
Variables SYSTEM_PROMPT_TEMPLATE TOOL_DESCRIPTION_PROMPT : string.

Definition build_system_prompt (width height : Z) (skill_section : string) : string :=
  replace "{{skill_section}}" skill_section
    (replace "{{tools_def}}" TOOL_DESCRIPTION_PROMPT
       (replace "{height}" (of_Z height)
          (replace "{width}" (of_Z width) SYSTEM_PROMPT_TEMPLATE))).
End Templates.

(** [build_user_message]: a text or an image that is [None] or empty is
    left out. *)
Definition build_user_message (text image_base64 : option string) : Agent.message :=
  let text_parts :=
    match text with
    | Some t => if is_empty t then [] else [Agent.TextPart t]
    | None => []
    end in
  let image_parts :=
    match image_base64 with
    | Some i => if is_empty i then []
                else [Agent.ImagePart ("data:image/png;base64," ++ i)]
    | None => []
    end in
  {| Agent.role := Some "user"; Agent.content := (text_parts ++ image_parts)%list |}.

End PromptBuilder.

(** *** The catalog cache of the skill injector: [qwen_skills.py] *)

Module SkillCache.
Import PyStr Repository SkillManager.

(** [_get_catalog]: the catalog and the manager afterwards.  The listing
    of the repository is read once and kept. *)
Definition _get_catalog (self : manager) : list SkillSummary * manager :=
  match _catalog self with
  | Some catalog => (catalog, self)
  | None =>
      match _repo self with
      | Some repo =>
          let catalog := list_titles repo in
          (catalog, {| _repo := _repo self; _catalog := Some catalog |})
      | None => ([], self)
      end
  end.

Definition reset_cache (self : manager) : manager :=
  {| _repo := _repo self; _catalog := None |}.

(** The method [build_catalog_section], cache included. *)
Definition build_catalog_section (self : manager) : string * manager :=
  let '(summaries, self') := _get_catalog self in
  (SkillManager.build_catalog_section summaries, self').

End SkillCache.

(** *** The rest of the conversation engine: [qwen_agent.py] *)

Module Qwen3VLAgent.
Import PyStr.

(** The agent with the fields [predict] reads besides those of
    [Agent.agent]. *)
Record state : Type := {
  core : Agent.agent;
  coordinate_type : string;
  conversation_started : bool;
  screen_width : option Z;
  screen_height : option Z
}.

(** [re.sub] of [<skill>.*?</skill>] by the empty text (letter case
    ignored as in [SkillManager.requests_from], line ends allowed
    inside); [skip] counts the characters of a match still to be passed
    over. *)
Fixpoint remove_requests (skip : nat) (s : string) : string :=
  match s with
  | EmptyString => EmptyString
  | String c s' =>
      match skip with
      | S k => remove_requests k s'
      | O =>
          if String.prefix "<skill>" (lower s)
          then match SkillManager.until_close (drop 7 s) with
               | Some (_, n) => remove_requests (7 + n + 8 - 1) s'
               | None => String c (remove_requests 0 s')
               end
          else String c (remove_requests 0 s')
      end
  end.

Definition _strip_skill_markers (response : string) : string :=
  if contains "<skill" (lower response)
  then strip (remove_requests 0 response)
  else response.

Definition same_size (cached : option Z) (size : Z) : bool :=
  match cached with
  | Some z => (z =? size)%Z
  | None => false
  end.

Definition with_conversation (a : Agent.agent) (manager : SkillManager.manager)
    (messages : list Agent.message) : Agent.agent :=
  {| Agent.max_steps := Agent.max_steps a;
     Agent.skill_manager := manager;
     Agent.messages := messages;
     Agent.executed_actions := Agent.executed_actions a;
     Agent.latest_skill_outputs := Agent.latest_skill_outputs a |}.

(** [reset]: the state between two runs. *)
Definition reset (self : state) : state :=
  {| core := {| Agent.max_steps := Agent.max_steps (core self);
                 Agent.skill_manager :=
                   SkillCache.reset_cache (Agent.skill_manager (core self));
                 Agent.messages := [];
                 Agent.executed_actions := [];
                 Agent.latest_skill_outputs := [] |};
     coordinate_type := coordinate_type self;
     conversation_started := false;
     screen_width := None;
     screen_height := None |}.

Section Run.
Variables SYSTEM_PROMPT_TEMPLATE TOOL_DESCRIPTION_PROMPT : string.
Variable call_llm : list Agent.message -> result string.
Variable json_loads : string -> result json.
Variable py_repr : json -> string.

Definition _ensure_system_prompt (width height : Z) (self : state) : state :=
  if same_size (screen_width self) width && same_size (screen_height self) height
     && match Agent.messages (core self) with [] => false | _ => true end
  then self
  else
    let '(skill_section, manager) :=
      SkillCache.build_catalog_section (Agent.skill_manager (core self)) in
    let system_prompt :=
      PromptBuilder.build_system_prompt SYSTEM_PROMPT_TEMPLATE TOOL_DESCRIPTION_PROMPT
        width height skill_section in
    let messages :=
      match Agent.messages (core self) with
      | first :: rest =>
          if Agent.is_system first
          then {| Agent.role := Agent.role first;
                  Agent.content := [Agent.TextPart system_prompt] |} :: rest
          else Agent.text_message "system" system_prompt :: first :: rest
      | [] => [Agent.text_message "system" system_prompt]
      end in
    {| core := with_conversation (core self) manager messages;
       coordinate_type := coordinate_type self;
       conversation_started := conversation_started self;
       screen_width := Some width;
       screen_height := Some height |}.

(** [predict] of an agent that has been [reset] (which sets the logger),
    from the sizes of the screenshot and of the processed image on;
    [processed_image] is the text [process_image] returns. *)
Definition predict (instruction processed_image : string)
    (width height processed_width processed_height : Z) (self : state)
  : result ((string * list string) * state) :=
  let self1 := _ensure_system_prompt width height self in
  let user_message :=
    if conversation_started self1
    then PromptBuilder.build_user_message None (Some processed_image)
    else PromptBuilder.build_user_message (Some instruction) (Some processed_image) in
  let agent2 :=
    with_conversation (core self1) (Agent.skill_manager (core self1))
      (Agent.messages (core self1) ++ [user_message])%list in
  '(response_raw, agent3) <- Agent._chat_with_skills call_llm agent2 ;;
  let response_for_parse := _strip_skill_markers response_raw in
  let response_display := response_for_parse in
  '(low_level_instruction, pyautogui_code) <-
    ResponseParser.parse_response json_loads py_repr (coordinate_type self1)
      (Some width) (Some height) (Some processed_width) (Some processed_height)
      (Some response_for_parse) ;;
  let outcome :=
    Agent.predict_finish agent3 response_display low_level_instruction pyautogui_code in
  Ok (Agent.returned outcome,
      {| core := Agent.agent_after outcome;
         coordinate_type := coordinate_type self1;
         conversation_started := true;
         screen_width := screen_width self1;
         screen_height := screen_height self1 |}).

End Run.

(** **** What is sent to Ollama *)

(** An entry of the message list for Ollama; [images] is [None] when the
    key is absent. *)
Record ollama_message : Type := {
  ollama_role : string;
  ollama_content : string;
  ollama_images : option (list string)
}.

(** The text that stands in for an empty user message (a constant of the
    source, kept as its UTF-8 bytes). *)
Definition screenshot_hint : string := "请结合提供的截图理解用户意图。".

Definition _normalize_image_payload (reference : string) : string :=
  if startswith reference "data:"
  then match split_once "," reference with
       | Some (_, payload) => if is_empty payload then reference else payload
       | None => reference
       end
  else reference.

Definition _split_multimodal_content (content : list Agent.part)
  : string * list string :=
  let texts :=
    flat_map (fun part => match part with
                          | Agent.TextPart t => if is_empty t then [] else [t]
                          | _ => []
                          end) content in
  let images :=
    flat_map (fun part => match part with
                          | Agent.ImagePart url =>
                              if is_empty url then [] else [_normalize_image_payload url]
                          | _ => []
                          end) content in
  (strip (join (nl ++ nl) texts), images).

Definition _normalize_ollama_messages (messages : list Agent.message)
  : list ollama_message :=
  map (fun message =>
         let role := match Agent.role message with
                     | Some r => if is_empty r then "user" else r
                     | None => "user"
                     end in
         let '(text_value, images) := _split_multimodal_content (Agent.content message) in
         let text_value :=
           if is_empty text_value && String.eqb role "user"
           then screenshot_hint else text_value in
         {| ollama_role := role;
            ollama_content := text_value;
            ollama_images := match images with [] => None | _ => Some images end |})
      messages.

End Qwen3VLAgent.

(** *** The skill endpoints: [api/routes_skills.py] *)

Module SkillRoutes.
Import PyStr Repository.

(** What a route gives: the response, an [HTTPException], or an
    exception no handler of the route catches. *)
Inductive http (A : Type) : Type :=
| Response (body : A)
| HTTPException (status_code : Z) (detail : string)
| Unhandled (e : exn).

Arguments Response {A} body.
Arguments HTTPException {A} status_code detail.
Arguments Unhandled {A} e.

Record SkillSummaryResponse : Type := {
  summary_response_id : string;
  summary_response_title : string
}.

Record SkillDetailResponse : Type := {
  detail_id : string;
  detail_title : string;
  detail_body : string
}.

Record SkillUpsertRequest : Type := {
  request_title : string;
  request_body : string
}.

Definition detail_of (skill : Skill) : SkillDetailResponse :=
  {| detail_id := id skill; detail_title := title skill; detail_body := body skill |}.

Definition not_found {A : Type} : http A := HTTPException 404 "Skill not found".

Definition list_skills (repo : repository) : list SkillSummaryResponse :=
  map (fun item => {| summary_response_id := summary_id item;
                      summary_response_title := summary_title item |})
      (list_titles repo).

Definition get_skill (skill_id : string) (repo : repository) : http SkillDetailResponse :=
  match get repo skill_id with
  | Ok skill => Response (detail_of skill)
  | Raise (KeyError _) => not_found
  | Raise e => Unhandled e
  end.

(** The routes that write give the repository afterwards as well; [None]
    stands for an [upsert] that does not return (see [Repository.upsert]). *)
Definition create_skill (payload : SkillUpsertRequest) (repo : repository)
  : option (http SkillDetailResponse * repository) :=
  match upsert repo (request_title payload) (request_body payload) None with
  | None => None
  | Some (Ok (skill, repo')) => Some (Response (detail_of skill), repo')
  | Some (Raise e) => Some (Unhandled e, repo)
  end.

Definition update_skill (skill_id : string) (payload : SkillUpsertRequest)
    (repo : repository) : option (http SkillDetailResponse * repository) :=
  match get repo skill_id with
  | Raise (KeyError _) => Some (not_found, repo)
  | Raise e => Some (Unhandled e, repo)
  | Ok _ =>
      match upsert repo (request_title payload) (request_body payload) (Some skill_id) with
      | None => None
      | Some (Ok (skill, repo')) => Some (Response (detail_of skill), repo')
      | Some (Raise e) => Some (Unhandled e, repo)
      end
  end.

(** The body of the answer of [delete_skill] is the pair of its [status]
    and its [id]. *)
Definition delete_skill (skill_id : string) (repo : repository)
  : http (string * string) * repository :=
  match delete repo skill_id with
  | Ok repo' => (Response ("deleted", skill_id), repo')
  | Raise (KeyError _) => (not_found, repo)
  | Raise e => (Unhandled e, repo)
  end.

(** [refresh_skills]: the count of the answer. *)
Definition refresh_skills (repo : repository) : http Z * repository :=
  match refresh repo with
  | Ok repo' => (Response (Z.of_nat (List.length (list_titles repo'))), repo')
  | Raise e => (Unhandled e, repo)
  end.

End SkillRoutes.

(** *** Profiles and the process environment: [core/settings.py] and
        [_build_env_patch], [_invoke_agent] of [services/gui_agent.py] *)

Module Profiles.
Import PyStr.

(** An [LLMProfile], as far as the functions below read it. *)
Record LLMProfile : Type := {
  profile_id : string;
  provider : string;
  baseUrl : string;
  model : string;
  apiKey : option string;
  headers : list (string * string);
  timeoutMs : Z;
  ollamaBaseUrl : string;
  ollamaModel : option string;
  openaiBaseUrl : option string
}.

Record Settings : Type := {
  llmProfiles : list LLMProfile;
  llmActiveId : string;
  vlmActiveId : string
}.

Definition get_active_vlm_profile (self : Settings) : option LLMProfile :=
  let target_id := strip (vlmActiveId self) in
  if is_empty target_id then None
  else find (fun profile => String.eqb (profile_id profile) target_id) (llmProfiles self).

(** [get_active_llm_profile]; [default_tip_cloud_profile] is the profile
    the function of that name builds. *)
Definition get_active_llm_profile (default_tip_cloud_profile : LLMProfile)
    (self : Settings) : LLMProfile :=
  match find (fun profile => String.eqb (profile_id profile) (llmActiveId self))
             (llmProfiles self) with
  | Some profile => profile
  | None =>
      match find (fun profile => String.eqb (provider profile) "tip_cloud")
                 (llmProfiles self) with
      | Some profile => profile
      | None => default_tip_cloud_profile
      end
  end.

Definition or_else (value : option string) (default : string) : string :=
  match value with
  | Some s => if is_empty s then default else s
  | None => default
  end.

Section Patch.
(** What the surroundings give: [tip_cloud_model()], [tip_cloud_base_url()]
    and [tip_cloud_api_key()]; the headers of [self._tip_auth], [None]
    without one and [Raise] when fetching them fails; [str] of a float;
    [json.dumps] of a dictionary of headers. *)
Variables tip_cloud_model tip_cloud_base_url tip_cloud_api_key : string.
Variable auth_headers : option (result (list (string * string))).
Variable float_str : PyFloat.float -> string.
Variable json_dumps : list (string * string) -> string.

(** [merged.update(items)]. *)
Definition update (items merged : list (string * string)) : list (string * string) :=
  fold_left (fun d kv => PyDict.set (fst kv) (snd kv) d) items merged.

Definition set_if (test : bool) (key value : string) (payload : list (string * string))
  : list (string * string) :=
  if test then PyDict.set key value payload else payload.

Definition _build_env_patch (profile : LLMProfile) : result (list (string * string)) :=
  let provider_ := strip (if is_empty (provider profile) then "tip_cloud"
                          else provider profile) in
  seconds <- PyFloat.int_truediv (timeoutMs profile) 1000 ;;
  let payload :=
    [("TIP_LLM_PROVIDER", provider_);
     ("TIP_LLM_MODEL", model profile);
     ("TIP_LLM_TIMEOUT", float_str seconds)] in
  let '(payload, headers_) :=
    if String.eqb provider_ "tip_cloud" then
      let payload :=
        PyDict.set "TIP_LLM_MODEL"
          (if is_empty (model profile) then tip_cloud_model else model profile) payload in
      let payload := PyDict.set "TIP_LLM_BASE_URL" tip_cloud_base_url payload in
      let payload := PyDict.set "TIP_OPENAI_BASE_URL" tip_cloud_base_url payload in
      let token_headers :=
        match auth_headers with
        | Some (Ok fetched) => fetched
        | Some (Raise _) | None => []
        end in
      let token := or_else (PyDict.get "Authorization" token_headers) tip_cloud_api_key in
      let token :=
        if startswith (lower token) "bearer "
        then match split_once " " token with
             | Some (_, rest) => strip rest
             | None => token
             end
        else token in
      let payload := PyDict.set "TIP_OPENAI_API_KEY" token payload in
      (payload,
       update (filter (fun kv => negb (is_empty (fst kv))) token_headers) (headers profile))
    else (payload, headers profile) in
  let payload :=
    set_if (negb (is_empty (baseUrl profile)))
      "TIP_LLM_BASE_URL" (rstrip_by (mem_char "/") (baseUrl profile)) payload in
  let payload :=
    set_if (match headers_ with [] => false | _ => true end)
      "TIP_LLM_HEADERS" (json_dumps headers_) payload in
  let payload :=
    set_if (negb (is_empty (or_else (apiKey profile) "")))
      "TIP_OPENAI_API_KEY" (or_else (apiKey profile) "") payload in
  let payload :=
    set_if (negb (is_empty (or_else (openaiBaseUrl profile) "")))
      "TIP_OPENAI_BASE_URL"
      (rstrip_by (mem_char "/") (or_else (openaiBaseUrl profile) "")) payload in
  let payload :=
    set_if (negb (is_empty (ollamaBaseUrl profile)))
      "TIP_OLLAMA_BASE_URL" (rstrip_by (mem_char "/") (ollamaBaseUrl profile)) payload in
  let payload :=
    set_if (negb (is_empty (or_else (ollamaModel profile) "")))
      "TIP_OLLAMA_MODEL" (or_else (ollamaModel profile) "") payload in
  Ok payload.

End Patch.

(** **** The process environment

    [os.environ] is one dictionary for the whole process.
    [_invoke_agent] runs in a thread of the executor, and a run that was
    cancelled may still be inside its [run_prompt] when [start_run]
    starts the next one, so calls can overlap.  A call writes to the
    environment twice, in the loop before [run_prompt] and in the
    [finally] block; the dictionary [previous] is its own.  Each of the
    two loops is taken as one step; what other threads write while
    [run_prompt] runs is part of what [run_prompt] leaves. *)

Definition NUL : ascii := ascii_of_nat 0.

(** [os.environ[key] = value] raises for a name that is empty or holds an
    equals sign, and for a null character in the name or the value. *)
Definition legal_name (key : string) : bool :=
  negb (is_empty key) && negb (mem_char key "=") && negb (mem_char key NUL).
Definition legal_value (value : string) : bool := negb (mem_char value NUL).

Definition setenv (key value : string) (environ : list (string * string))
  : result (list (string * string)) :=
  if mem_char key NUL || mem_char value NUL then Raise (ValueError "embedded null byte")
  else if is_empty key || mem_char key "="
       then Raise (ValueError "illegal environment variable name")
       else Ok (PyDict.set key value environ).

(** The loop of [_invoke_agent] that patches the environment and keeps
    what it replaces. *)
Fixpoint patch (env_patch : list (string * string))
    (previous : list (string * option string)) (environ : list (string * string))
  : result (list (string * option string)) * list (string * string) :=
  match env_patch with
  | [] => (Ok previous, environ)
  | (key, value) :: rest =>
      let previous := PyDict.set key (PyDict.get key environ) previous in
      match setenv key value environ with
      | Ok environ' => patch rest previous environ'
      | Raise e => (Raise e, environ)
      end
  end.

(** The loop of the [finally] block. *)
Fixpoint restore (previous : list (string * option string))
    (environ : list (string * string)) : result unit * list (string * string) :=
  match previous with
  | [] => (Ok tt, environ)
  | (key, None) :: rest => restore rest (PyDict.pop key environ)
  | (key, Some value) :: rest =>
      match setenv key value environ with
      | Ok environ' => restore rest environ'
      | Raise e => (Raise e, environ)
      end
  end.

Section Invoke.
Variable A : Type.
(** [run_prompt] with the arguments [_invoke_agent] gives it: what it
    returns or raises, started in an environment, and the environment of
    the process when it ends, which holds what other threads have
    written in the meantime. *)
Variable run_prompt : list (string * string) -> result A * list (string * string).

(** [_invoke_agent] once [env_patch] is built: what it returns or raises,
    and the environment of the process when it ends. *)
Definition _invoke_agent (env_patch : list (string * string))
    (environ : list (string * string)) : result A * list (string * string) :=
  match patch env_patch [] environ with
  | (Raise e, environ') => (Raise e, environ')
  | (Ok previous, patched) =>
      let '(outcome, later) := run_prompt patched in
      match restore previous later with
      | (Ok _, environ') => (outcome, environ')
      | (Raise e, environ') => (Raise e, environ')
      end
  end.
End Invoke.

(** What a call keeps in [previous] for a patch: the value of each of
    its variables in the environment it starts in. *)
Definition kept (env_patch environ : list (string * string))
  : list (string * option string) :=
  map (fun kv => (fst kv, PyDict.get (fst kv) environ)) env_patch.

(** The [run_prompt] of a call during which an earlier call, still
    running when this one started, reaches its [finally] block. *)
Definition while_earlier_ends (A : Type) (outcome : result A)
    (previous : list (string * option string)) (environ : list (string * string))
  : result A * list (string * string) :=
  (outcome, snd (restore previous environ)).

End Profiles.

(** *** The start and the end of [_execute_run]: [services/gui_agent.py] *)

Module Execution.
Import Service Profiles.

(** How [_execute_run] ends: at once without an active vision profile,
    otherwise as the worker does for the profile, [None] standing for an
    exception of the worker. *)
Definition execution_outcome (settings : Settings)
    (worker : LLMProfile -> option (option string * option string)) : outcome :=
  match get_active_vlm_profile settings with
  | None => NoProfile
  | Some profile =>
      match worker profile with
      | Some (task_id_, result_dir_) => Returned task_id_ result_dir_
      | None => Failed
      end
  end.

(** What [_execute_run] has done to the service when it returns, the
    events of the worker apart; the result directory is taken to exist
    or to be creatable. *)
Definition _execute_run (self : service) (run_id_ : string) (settings : Settings)
    (worker : LLMProfile -> option (option string * option string)) (now : Z) : service :=
  finish_execute self run_id_ (execution_outcome settings worker) now.

End Execution.

(** *** The run endpoints: [api/routes_gui_agent.py] *)

Module GuiRoutes.
Import PyStr Service SkillRoutes.

Record GuiAgentRunResponse : Type := {
  response_run_id : string;
  response_session_id : string;
  response_instruction : string;
  response_task_id : option string
}.

(** [start_gui_agent_run]; [session_known] tells whether the chat manager
    has a session of the given id. *)
Definition start_gui_agent_run (session_known : bool)
    (session_id_ instruction_ uuid : string) (now : Z) (service_ : service)
  : http GuiAgentRunResponse * service :=
  if session_known then
    match start_run service_ session_id_ instruction_ uuid now with
    | (Ok handle, service') =>
        (Response {| response_run_id := handle_run_id handle;
                     response_session_id := handle_session_id handle;
                     response_instruction := handle_instruction handle;
                     response_task_id := handle_task_id handle |},
         service')
    | (Raise (RuntimeError msg), service') => (HTTPException 409 msg, service')
    | (Raise e, service') => (Unhandled e, service')
    end
  else (HTTPException 404 "Invalid session_id", service_).

(** [cancel_gui_agent_run]; the body of the answer is its [status]. *)
Definition cancel_gui_agent_run (run_id_ : string) (service_ : service)
  : http string * service :=
  match cancel_run service_ run_id_ with
  | (true, service') => (Response "cancelled", service')
  | (false, service') =>
      (HTTPException 404 "Run not found or already finished", service')
  end.

End GuiRoutes.

(** *** Notions used to state the further properties *)

Module Notions.
Import PyStr PyVal.

(** The forms a compiled command takes. *)
Definition command_form (cmd : string) : bool :=
  String.eqb cmd "WAIT" || String.eqb cmd "DONE"
  || String.prefix "pyautogui." cmd
  || String.prefix "import pyperclip; text_to_type = " cmd.

(** Reading a double-quoted Python literal from just after its opening
    quote: the text that follows its closing quote.  A backslash takes
    the next character with it. *)
Fixpoint after_literal (s : string) : option string :=
  match s with
  | EmptyString => None
  | String c s' =>
      if Ascii.eqb c backslash
      then match s' with
           | String _ s'' => after_literal s''
           | EmptyString => None
           end
      else if (code c =? 34)%nat then Some s' else after_literal s'
  end.

(** No character below the space: no raw line feed, carriage return or
    tab among them. *)
Definition printable (s : string) : bool :=
  all_chars (fun c => (32 <=? code c)%nat) s.

(** A text of ASCII characters ([str.isascii]). *)
Definition isascii (s : string) : bool :=
  all_chars (fun c => (code c <? 128)%nat) s.

(** [k] closing braces. *)
Fixpoint closing (k : nat) : string :=
  match k with
  | O => EmptyString
  | S k' => String "}" (closing k')
  end.

(** A summary without the markers of a structured block. *)
Definition unmarked (summary : string) : bool :=
  negb (contains "<tool_call" summary) && negb (contains "<skill" summary).

(** The number of messages of the assistant in a list. *)
Definition from_assistant (m : Agent.message) : bool :=
  match Agent.role m with
  | Some r => String.eqb r "assistant"
  | None => false
  end.

Definition assistant_turns (ms : list Agent.message) : nat :=
  List.length (filter from_assistant ms).

(** A history that is empty or starts with the system message. *)
Definition headed (ms : list Agent.message) : bool :=
  match ms with
  | [] => true
  | first :: _ => Agent.is_system first
  end.

(** The characters of a file name made from a title. *)
Definition slug_char (c : ascii) : bool := isword c || Ascii.eqb c "-".

(** A text of one line, and a text whose only line boundary is the line
    feed. *)
Definition one_line (s : string) : bool :=
  all_chars (fun c => negb (is_linebreak c)) s.
Definition unix_lines (s : string) : bool :=
  all_chars (fun c => negb (is_linebreak c) || Ascii.eqb c LF) s.

(** A history of a run within the limit of the service. *)
Definition within (limit : Z) (run : Service.GuiAgentRun) : Prop :=
  (Z.of_nat (List.length (Service.history run)) <= limit)%Z.

Definition bounded (limit : Z) (self : Service.service) : Prop :=
  Service._history_limit self = limit
  /\ Forall (within limit) (PyDict.values (Service._runs self)).

(** An event that carries the id of its run, and a run whose events do:
    all those of its history, and all those of its queue but the closing
    marker. *)
Definition tagged (run_id_ : string) (ev : Service.event) : Prop :=
  Service.ev_run_id ev = Some run_id_.

Definition well_tagged (entry : string * Service.GuiAgentRun) : Prop :=
  Service.run_id (snd entry) = fst entry
  /\ Forall (tagged (fst entry)) (Service.history (snd entry))
  /\ Forall (fun ev => tagged (fst entry) ev \/ ev = Service.close_event)
       (Service.queue (snd entry)).

(** Names that differ from one another. *)
Fixpoint distinct (names : list string) : bool :=
  match names with
  | [] => true
  | name :: rest => negb (existsb (String.eqb name) rest) && distinct rest
  end.

(** An environment whose names and values [os.environ] accepts. *)
Definition legal (environ : list (string * string)) : Prop :=
  Forall (fun kv => Profiles.legal_name (fst kv) = true
                    /\ Profiles.legal_value (snd kv) = true) environ.

End Notions.

(** Further sample inputs. *)

Module Cases.
Import PyStr PyVal.

(** A decoder that knows the tool call of the action [wait]. *)
Definition loads_wait (text : string) : result json :=
  if String.eqb text (Sample.call_text "wait") then Ok (Sample.call_value "wait")
  else Raise JSONDecodeError.

(** An output that is the tool call of [wait] and nothing else. *)
Definition wait_only : string :=
  "<tool_call>" ++ Sample.call_text "wait" ++ "</tool_call>".

(** An output whose summary line runs into the tool call of [fly]. *)
Definition summary_then_call : string := "Action: Fly away " ++ Sample.fly_only.

(** A provider that asks for the skill [foo] whatever it is sent. *)
Definition asks_forever (sent : list Agent.message) : result string :=
  Ok "I need <skill>foo</skill> first.".

(** A provider that answers with a summary line. *)
Definition answers (sent : list Agent.message) : result string :=
  Ok "Action: wait a moment".

(** An agent at its first [predict]: nothing said yet, no screen seen. *)
Definition fresh_agent : Qwen3VLAgent.state :=
  Qwen3VLAgent.reset
    {| Qwen3VLAgent.core := Sample.agent_before_limit;
       Qwen3VLAgent.coordinate_type := "relative";
       Qwen3VLAgent.conversation_started := true;
       Qwen3VLAgent.screen_width := Some 1920%Z;
       Qwen3VLAgent.screen_height := Some 1080%Z |}.

(** A profile of the Tip Cloud with a base URL and a key of its own. *)
Definition cloud_profile : Profiles.LLMProfile :=
  {| Profiles.profile_id := "tip_cloud"; Profiles.provider := "tip_cloud";
     Profiles.baseUrl := "https://llm.example/v1//"; Profiles.model := "LLM";
     Profiles.apiKey := Some "sk-profile"; Profiles.headers := [];
     Profiles.timeoutMs := 60000;
     Profiles.ollamaBaseUrl := "http://127.0.0.1:11434";
     Profiles.ollamaModel := None; Profiles.openaiBaseUrl := None |}.

End Cases.

(** * Properties *)

(** ** Facts about the string operations *)

Module PyStrFacts.
Import PyStr.

Lemma is_empty_true (s : string) : is_empty s = true <-> s = EmptyString.
Proof. destruct s; simpl; split; intro H; congruence. Qed.

Lemma is_empty_false (s : string) : is_empty s = false <-> s <> EmptyString.
Proof. destruct s; simpl; split; intro H; congruence. Qed.

Lemma lstrip_by_all (p : ascii -> bool) (s : string) :
  all_chars p s = true -> lstrip_by p s = EmptyString.
Proof.
  induction s as [|c s IH]; simpl; intro H; [reflexivity|].
  apply andb_prop in H as [Hc Hs]. rewrite Hc. auto.
Qed.

Lemma strip_by_all (p : ascii -> bool) (s : string) :
  all_chars p s = true -> strip_by p s = EmptyString.
Proof. intro H. unfold strip_by. rewrite lstrip_by_all by assumption. reflexivity. Qed.

(** The converse: only strings of [p]-characters strip to nothing. *)
Lemma rstrip_by_empty (p : ascii -> bool) (s : string) :
  rstrip_by p s = EmptyString -> all_chars p s = true.
Proof.
  induction s as [|c s IH]; simpl; [reflexivity|].
  destruct (rstrip_by p s) eqn:E; [|discriminate].
  destruct (p c); [intros _; auto | discriminate].
Qed.

Lemma lstrip_by_suffix_all (p : ascii -> bool) (s : string) :
  all_chars p (lstrip_by p s) = true -> all_chars p s = true.
Proof.
  induction s as [|c s IH]; simpl; [reflexivity|].
  destruct (p c) eqn:E; simpl; [exact IH|].
  rewrite E. discriminate.
Qed.

Lemma strip_by_empty (p : ascii -> bool) (s : string) :
  strip_by p s = EmptyString -> all_chars p s = true.
Proof. intro H. apply lstrip_by_suffix_all, rstrip_by_empty, H. Qed.

Section Finer.
(** Stripping by [q] first changes nothing when [p] strips every
    character that [q] strips. *)
Variables p q : ascii -> bool.
Hypothesis finer : forall c, q c = true -> p c = true.

Lemma lstrip_lstrip (s : string) : lstrip_by p (lstrip_by q s) = lstrip_by p s.
Proof.
  induction s as [|c s IH]; simpl; [reflexivity|].
  destruct (q c) eqn:Eq.
  - rewrite (@finer _ Eq). exact IH.
  - reflexivity.
Qed.

Lemma rstrip_rstrip (s : string) : rstrip_by p (rstrip_by q s) = rstrip_by p s.
Proof.
  induction s as [|c s IH]; simpl; [reflexivity|].
  destruct (rstrip_by q s) as [|d r] eqn:Er.
  - simpl in IH. rewrite <- IH.
    destruct (q c) eqn:Eq.
    + rewrite (@finer _ Eq). reflexivity.
    + simpl. reflexivity.
  - change (rstrip_by p (String c (String d r)))
      with (match rstrip_by p (String d r) with
            | EmptyString => if p c then EmptyString else String c EmptyString
            | r' => String c r'
            end).
    rewrite IH. reflexivity.
Qed.

Lemma lstrip_rstrip (s : string) :
  lstrip_by p (rstrip_by q s) = rstrip_by q (lstrip_by p s).
Proof.
  induction s as [|c s IH]; simpl; [reflexivity|].
  destruct (p c) eqn:Ep.
  - destruct (rstrip_by q s) as [|d r] eqn:Er.
    + simpl in IH. rewrite <- IH.
      destruct (q c); simpl; [reflexivity | rewrite Ep; reflexivity].
    + rewrite <- IH. simpl. rewrite Ep. reflexivity.
  - assert (Eq : q c = false).
    { destruct (q c) eqn:Eq; [|reflexivity]. rewrite (@finer _ Eq) in Ep. discriminate. }
    simpl. destruct (rstrip_by q s); rewrite ?Eq; simpl; rewrite Ep; reflexivity.
Qed.

Lemma strip_strip (s : string) : strip_by p (strip_by q s) = strip_by p s.
Proof.
  unfold strip_by.
  rewrite lstrip_rstrip, rstrip_rstrip, lstrip_lstrip. reflexivity.
Qed.
End Finer.

Lemma newline_isspace (c : ascii) : mem_char nl c = true -> isspace c = true.
Proof.
  unfold nl. simpl. rewrite orb_false_r. intro H.
  apply Ascii.eqb_eq in H. subst c. reflexivity.
Qed.

(** [s.strip("\n").strip()] is [s.strip()]. *)
Lemma strip_strip_newlines (s : string) : strip (strip_chars nl s) = strip s.
Proof. apply strip_strip, newline_isspace. Qed.

Lemma strip_idempotent (s : string) : strip (strip s) = strip s.
Proof. apply strip_strip. auto. Qed.

End PyStrFacts.

(** ** The response compiler *)

Module ParserFacts.
Import PyStr PyVal PyStrFacts ResponseParser Spec.

Lemma known_some (v : option Z) (z : Z) : known v = Some z -> v = Some z /\ z <> 0%Z.
Proof.
  destruct v as [w|]; simpl; [|discriminate].
  destruct (Z.eqb_spec w 0); [discriminate|].
  intro H. injection H as ->. auto.
Qed.

Lemma adjust_relative ct ow oh pw ph W H x y :
  known ow = Some W -> known oh = Some H -> ct = "relative" ->
  adjust_coordinates ct ow oh pw ph x y
  = scaled (PyFloat.int_div_float W PyFloat.f1000)
           (PyFloat.int_div_float H PyFloat.f1000) x y.
Proof.
  intros Hw Hh ->. unfold adjust_coordinates. rewrite Hw, Hh. reflexivity.
Qed.

Lemma adjust_discrete ct ow oh pw ph W H x y :
  known ow = Some W -> known oh = Some H ->
  ct <> "relative" -> ct <> "absolute" ->
  adjust_coordinates ct ow oh pw ph x y
  = scaled (PyFloat.int_div_float W PyFloat.f999)
           (PyFloat.int_div_float H PyFloat.f999) x y.
Proof.
  intros Hw Hh Hr Ha. unfold adjust_coordinates. rewrite Hw, Hh.
  apply String.eqb_neq in Hr, Ha. rewrite Ha, Hr. reflexivity.
Qed.

Lemma adjust_absolute ow oh pw ph W H Wp Hp x y :
  known ow = Some W -> known oh = Some H ->
  known pw = Some Wp -> known ph = Some Hp ->
  adjust_coordinates "absolute" ow oh pw ph x y
  = scaled (PyFloat.int_truediv W Wp) (PyFloat.int_truediv H Hp) x y.
Proof.
  intros Hw Hh Hpw Hph. unfold adjust_coordinates. rewrite Hw, Hh, Hpw, Hph.
  reflexivity.
Qed.

Lemma adjust_unknown ct ow oh pw ph x y :
  known ow = None \/ known oh = None ->
  adjust_coordinates ct ow oh pw ph x y = unchanged x y.
Proof.
  intros [H|H]; unfold adjust_coordinates; rewrite H;
    [|destruct (known ow)]; reflexivity.
Qed.

(** Each pointer action with a coordinate goes through
    [adjust_coordinates] and nothing else touches the pair. *)
Lemma pointer_action_adjusts py_repr ct ow oh pw ph action args c x y :
  In action pointer_actions ->
  PyDict.get "coordinate" args = Some c ->
  unpack2 c = Ok (x, y) ->
  command_of py_repr ct ow oh pw ph action args
  = ('(adj_x, adj_y) <- adjust_coordinates ct ow oh pw ph x y ;;
     Ok (Some (pointer_command py_repr action args adj_x adj_y))).
Proof.
  intros Hin Hc Hu.
  simpl in Hin.
  destruct Hin as [<-|[<-|[<-|[<-|[<-|[<-|[]]]]]]];
    unfold command_of, with_coordinate, pointer_command, call2; simpl;
    rewrite Hc; simpl; rewrite Hu; simpl;
    destruct (adjust_coordinates ct ow oh pw ph x y) as [[ax ay]|e]; reflexivity.
Qed.

(** The alias: [click] is [left_click]. *)
Lemma click_alias py_repr (args : list (string * json)) (s : string) :
  PyDict.get "action" args = Some (JStr s) ->
  lower (strip s) = "click" ->
  action_name py_repr args = "left_click".
Proof. intros Ha Hs. unfold action_name. rewrite Ha, Hs. reflexivity. Qed.

Lemma length_take (n : nat) : forall s, String.length (take n s) <= n.
Proof.
  induction n as [|n IH]; intro s; [reflexivity|].
  destruct s as [|c s]; simpl; [lia|]. specialize (IH s). lia.
Qed.

Lemma length_rstrip (p : ascii -> bool) (s : string) :
  String.length (rstrip_by p s) <= String.length s.
Proof.
  induction s as [|c s IH]; simpl; [lia|].
  destruct (rstrip_by p s); [destruct (p c)|]; simpl in *; lia.
Qed.

(** The loop of [_coerce_json] ends within as many rounds as the text has
    characters: more rounds change nothing. *)
Lemma trim_closing_enough (opening : nat) :
  forall fuel stripped extra,
    String.length stripped <= fuel ->
    trim_closing (fuel + extra) opening stripped = trim_closing fuel opening stripped.
Proof.
  induction fuel as [|fuel IH]; intros stripped extra Hlen.
  - destruct stripped; [|simpl in Hlen; lia].
    destruct extra; reflexivity.
  - simpl.
    destruct ((opening <? count_char "}" stripped)%nat && endswith stripped "}") eqn:E;
      [|reflexivity].
    apply IH.
    apply andb_prop in E as [_ E]. unfold endswith in E.
    apply andb_prop in E as [E _]. apply Nat.leb_le in E. simpl in E.
    pose proof (length_rstrip isspace (take (String.length stripped - 1) stripped)).
    pose proof (length_take (String.length stripped - 1) stripped).
    unfold rstrip. lia.
Qed.


(** An action without a branch yields no command. *)
Lemma command_of_unsupported py_repr ct ow oh pw ph action args :
  existsb (String.eqb action) supported_actions = false ->
  command_of py_repr ct ow oh pw ph action args = Ok None.
Proof.
  unfold supported_actions. simpl. intro H.
  repeat (apply orb_false_elim in H; destruct H as [?E H]).
  unfold command_of.
  rewrite E, E0, E1, E2, E3, E4, E5, E6, E7, E8, E9. reflexivity.
Qed.

Lemma process_unsupported json_loads py_repr ct ow oh pw ph text code :
  unsupported_call json_loads py_repr text = true ->
  process_tool_call json_loads py_repr ct ow oh pw ph text code = Ok code.
Proof.
  unfold unsupported_call, process_tool_call.
  destruct (_coerce_json json_loads text) as [tool_call|e]; [|discriminate].
  cbn [bind].
  destruct (tool_call_args tool_call) as [args|]; [|discriminate].
  intro H. apply negb_true_iff in H.
  rewrite (command_of_unsupported py_repr ct ow oh pw ph _ args H). reflexivity.
Qed.

(** What the round of a one-line object leaves when it returns: the
    state as it was, or the state with the commands of the call. *)
Lemma bare_line_inv json_loads py_repr ct ow oh pw ph (line : string)
    (st st' : scan_state) :
  except_decode
    (json_obj <- json_loads line ;;
     is_call <- has_name_and_arguments json_obj ;;
     if is_call
     then code <- process_tool_call json_loads py_repr ct ow oh pw ph line
                    (pyautogui_code st) ;;
          Ok (set_code st code)
     else Ok st)
    (Ok st) = Ok st' ->
  st' = st
  \/ exists code,
       process_tool_call json_loads py_repr ct ow oh pw ph line (pyautogui_code st) = Ok code
       /\ st' = set_code st code.
Proof.
  destruct (json_loads line) as [json_obj|e]; cbn [bind].
  - destruct (has_name_and_arguments json_obj) as [[|]|e]; cbn [bind].
    + destruct (process_tool_call json_loads py_repr ct ow oh pw ph line
                  (pyautogui_code st)) as [code|e]; cbn [bind except_decode].
      * intros [= <-]. right. exists code. split; reflexivity.
      * destruct e; try discriminate. intros [= <-]. left. reflexivity.
    + cbn [except_decode]. intros [= <-]. left. reflexivity.
    + destruct e; cbn [except_decode]; try discriminate.
      intros [= <-]. left. reflexivity.
  - destruct e; cbn [except_decode]; try discriminate.
    intros [= <-]. left. reflexivity.
Qed.

(** What [process_tool_call] does once [_coerce_json] has returned. *)
Lemma process_tool_call_inv json_loads py_repr ct ow oh pw ph (text : string)
    (code code' : list string) :
  process_tool_call json_loads py_repr ct ow oh pw ph text code = Ok code' ->
  code' = code
  \/ exists tool_call args cmd,
       _coerce_json json_loads text = Ok tool_call
       /\ tool_call_args tool_call = Some args
       /\ command_of py_repr ct ow oh pw ph (action_name py_repr args) args = Ok (Some cmd)
       /\ code' = (code ++ [cmd])%list.
Proof.
  unfold process_tool_call.
  destruct (_coerce_json json_loads text) as [tool_call|e] eqn:Ec; cbn [bind].
  - destruct (tool_call_args tool_call) as [args|] eqn:Ea;
      [|intros [= <-]; left; reflexivity].
    destruct (command_of py_repr ct ow oh pw ph (action_name py_repr args) args)
      as [[cmd|]|e] eqn:E; cbn [bind].
    + intros [= <-]. right. exists tool_call, args, cmd. auto.
    + intros [= <-]. left. reflexivity.
    + destruct e; try discriminate; intros [= <-]; left; reflexivity.
  - destruct e; try discriminate; intros [= <-]; left; reflexivity.
Qed.

Section Scan.
Variable json_loads : string -> result json.
Variable py_repr : json -> string.
Variable ct : string.
Variables ow oh pw ph : option Z.
Hypothesis sane : objects_only json_loads.

(** One round of the scan on an output whose blocks all name unsupported
    actions: no exception, no command, and the summary moves as
    [next_summary] says. *)
Lemma scan_line_unsupported raw rest st :
  pyautogui_code st = [] ->
  spelled raw = true ->
  decodes_line json_loads raw = true ->
  Forall (fun text => unsupported_call json_loads py_repr text = true)
    (collect_calls json_loads (raw :: rest) (inside_tool_call st) (current_tool_call st)) ->
  exists st',
    scan_line json_loads py_repr ct ow oh pw ph raw st = Ok st'
    /\ pyautogui_code st' = []
    /\ low_level_instruction st' = next_summary (low_level_instruction st) raw
    /\ Forall (fun text => unsupported_call json_loads py_repr text = true)
         (collect_calls json_loads rest (inside_tool_call st') (current_tool_call st')).
Proof.
  intros Hcode Hsp Hdec Hall.
  unfold scan_line, next_summary. unfold spelled in Hsp. simpl in Hall.
  destruct (is_empty (strip raw)) eqn:Eempty.
  { exists st. rewrite andb_false_r. auto. }
  rewrite andb_true_r.
  destruct (startswith (lower (strip raw)) "action:") eqn:Eact.
  { unfold action_line, line_summary.
    destruct (is_empty (low_level_instruction st)) eqn:Elow; simpl.
    - destruct (split_once "Action:" (strip raw)) as [[before after]|] eqn:Esplit.
      + destruct (is_empty (cut_markers (strip after))) eqn:Erem.
        * exists st. apply is_empty_true in Erem, Elow. rewrite Erem, Elow. auto.
        * eexists. split; [reflexivity|]. simpl. auto.
      + exfalso. clear - Hsp Esplit.
        revert Hsp Esplit. generalize (strip raw). intro s.
        induction s as [|c s IH]; simpl; [discriminate|].
        destruct (String.prefix "Action:" (String c s)) eqn:P.
        * simpl in P. rewrite P. discriminate.
        * simpl in P. rewrite P. simpl.
          destruct (split_once "Action:" s) as [[a b]|]; [discriminate|]. auto.
    - exists st. auto. }
  rewrite andb_false_r.
  destruct (startswith (strip raw) "<tool_call>") eqn:Eopen.
  { eexists. split; [reflexivity|]. simpl. auto. }
  destruct (startswith (strip raw) "</tool_call>") eqn:Eclose.
  { apply Forall_app in Hall as [Hblock Hrest].
    destruct (current_tool_call st) as [|l cur] eqn:Ecur.
    - rewrite Hcode. simpl. eexists. split; [reflexivity|]. simpl. auto.
    - inversion Hblock; subst.
      rewrite process_unsupported by assumption. simpl.
      eexists. split; [reflexivity|]. simpl. auto. }
  destruct (inside_tool_call st) eqn:Einside.
  { eexists. split; [reflexivity|]. simpl. auto. }
  destruct (startswith (strip raw) "{" && endswith (strip raw) "}") eqn:Ebare;
    [|exists st; rewrite Einside; auto].
  unfold decodes_line in Hdec. rewrite Ebare in Hdec.
  destruct (json_loads (strip raw)) as [json_obj|e] eqn:Eloads;
    [|destruct e; try discriminate; exists st; rewrite Einside; auto].
  apply andb_prop in Ebare as [Ebrace _].
  destruct (sane Ebrace Eloads) as [d ->].
  unfold has_name_and_arguments in *. simpl in *.
  destruct (PyDict.mem "name" d); simpl in *;
    [destruct (PyDict.mem "arguments" d); simpl in *|];
    try (exists st; rewrite Einside; auto; fail).
  inversion Hall; subst.
  rewrite process_unsupported by assumption. simpl.
  exists (set_code st (pyautogui_code st)). unfold set_code. simpl.
  rewrite Einside. auto.
Qed.

Lemma scan_lines_unsupported lines :
  forall st,
    pyautogui_code st = [] ->
    forallb spelled lines = true ->
    forallb (decodes_line json_loads) lines = true ->
    Forall (fun text => unsupported_call json_loads py_repr text = true)
      (collect_calls json_loads lines (inside_tool_call st) (current_tool_call st)) ->
    exists st',
      scan_lines json_loads py_repr ct ow oh pw ph lines st = Ok st'
      /\ pyautogui_code st' = []
      /\ low_level_instruction st' = fold_left next_summary lines (low_level_instruction st)
      /\ Forall (fun text => unsupported_call json_loads py_repr text = true) (block_text (current_tool_call st')).
Proof.
  induction lines as [|raw rest IH]; intros st Hcode Hsp Hdec Hall.
  - exists st. simpl in *. auto.
  - simpl in Hsp. apply andb_prop in Hsp as [Hraw Hrest].
    cbn [forallb] in Hdec. apply andb_prop in Hdec as [Hdraw Hdrest].
    destruct (scan_line_unsupported raw rest st Hcode Hraw Hdraw Hall)
      as (st1 & Hstep & Hcode1 & Hlow1 & Hall1).
    destruct (IH st1 Hcode1 Hrest Hdrest Hall1) as (st' & Hscan & Hcode' & Hlow' & Hall').
    exists st'. simpl. rewrite Hstep. simpl. rewrite <- Hlow1. auto.
Qed.

End Scan.

(** A blank response strips to nothing. *)
Lemma blank_strip (s : string) : all_chars isspace s = true -> is_empty (strip s) = true.
Proof. intro H. unfold strip. rewrite strip_by_all by assumption. reflexivity. Qed.

End ParserFacts.

(** ** Lines of an output are pieces of it *)

Module LineFacts.
Import PyStr PyStrFacts ResponseParser Spec.

Lemma append_nil_r (s : string) : s ++ EmptyString = s.
Proof. induction s as [|c s IH]; simpl; congruence. Qed.

Lemma append_assoc (a b c : string) : (a ++ b) ++ c = a ++ b ++ c.
Proof. induction a as [|x a IH]; simpl; congruence. Qed.

Lemma infix_refl (s : string) : infix_of s s.
Proof. exists EmptyString, EmptyString. simpl. now rewrite append_nil_r. Qed.

Lemma infix_trans (t u s : string) : infix_of t u -> infix_of u s -> infix_of t s.
Proof.
  intros (a & b & ->) (a' & b' & ->).
  exists (a' ++ a), (b ++ b'). now rewrite !append_assoc.
Qed.

Lemma infix_cons (t s : string) (c : ascii) : infix_of t s -> infix_of t (String c s).
Proof. intros (a & b & ->). exists (String c a), b. reflexivity. Qed.

Lemma lstrip_suffix (p : ascii -> bool) (s : string) : exists a, s = a ++ lstrip_by p s.
Proof.
  induction s as [|c s (a & IH)]; simpl.
  - exists EmptyString. reflexivity.
  - destruct (p c).
    + exists (String c a). simpl. congruence.
    + exists EmptyString. reflexivity.
Qed.

Lemma rstrip_prefix (p : ascii -> bool) (s : string) : exists b, s = rstrip_by p s ++ b.
Proof.
  induction s as [|c s (b & IH)]; simpl.
  - exists EmptyString. reflexivity.
  - destruct (rstrip_by p s) as [|d r] eqn:E.
    + destruct (p c).
      * exists (String c s). reflexivity.
      * exists s. reflexivity.
    + exists b. simpl. simpl in IH. congruence.
Qed.

Lemma strip_infix (s : string) : infix_of (strip s) s.
Proof.
  unfold strip, strip_by.
  destruct (lstrip_suffix isspace s) as (a & Ha).
  destruct (rstrip_prefix isspace (lstrip_by isspace s)) as (b & Hb).
  exists a, b. rewrite <- Hb. exact Ha.
Qed.

(** A piece without line feeds at the start of a padded text starts the
    text itself. *)
Lemma padded_prefix n s :
  padded n s ->
  forall t b, n = t ++ b -> no_linefeed t = true -> exists b', s = t ++ b'.
Proof.
  induction 1 as [|c n s Hp IH|n s Hp IH]; intros t b Hn Ht.
  - destruct t; [|discriminate]. exists EmptyString. reflexivity.
  - destruct t as [|d t]; [eexists; reflexivity|].
    simpl in Hn. injection Hn as <- Hn. simpl in Ht. apply andb_prop in Ht as [_ Ht].
    destruct (IH t b Hn Ht) as (b' & ->). exists b'. reflexivity.
  - destruct t as [|d t]; [eexists; reflexivity|].
    simpl in Hn. injection Hn as <- Hn. simpl in Ht.
    try rewrite Ascii.eqb_refl in Ht. discriminate.
Qed.

Lemma padded_infix n s :
  padded n s ->
  forall a t b, n = a ++ t ++ b -> no_linefeed t = true -> infix_of t s.
Proof.
  induction 1 as [|c n s Hp IH|n s Hp IH]; intros a t b Hn Ht.
  - destruct a; [|discriminate]. destruct t; [|discriminate]. apply infix_refl.
  - destruct a as [|x a].
    + simpl in Hn.
      destruct (padded_prefix (padded_keep c Hp) t b Hn Ht) as (b' & ->).
      exists EmptyString, b'. reflexivity.
    + simpl in Hn. injection Hn as <- Hn. apply infix_cons. eapply IH; eauto.
  - destruct a as [|x a].
    + simpl in Hn.
      destruct (padded_prefix (padded_insert Hp) t b Hn Ht) as (b' & ->).
      exists EmptyString, b'. reflexivity.
    + simpl in Hn. injection Hn as <- Hn. eapply IH; eauto.
Qed.

Lemma prefix_split (p s : string) :
  String.prefix p s = true -> s = p ++ drop (String.length p) s.
Proof.
  revert s. induction p as [|c p IH]; intros s H; [reflexivity|].
  destruct s as [|d s]; simpl in H; [discriminate|].
  destruct (Ascii.ascii_dec c d) as [->|]; [|discriminate].
  simpl. f_equal. apply IH, H.
Qed.

Lemma replace_skip (old new : string) (k : nat) :
  forall s, replace_from old new k s = replace_from old new 0 (drop k s).
Proof.
  induction k as [|k IH]; intro s; [reflexivity|].
  destruct s as [|c s]; [reflexivity|]. simpl. apply IH.
Qed.

Lemma length_drop (k : nat) : forall s, String.length (drop k s) <= String.length s.
Proof.
  induction k as [|k IH]; intro s; simpl; [lia|].
  destruct s as [|c s]; simpl; [lia|]. specialize (IH s). lia.
Qed.

Lemma padded_app_keep (p : string) : forall n s, padded n s -> padded (p ++ n) (p ++ s).
Proof. induction p as [|c p IH]; intros n s H; simpl; [exact H|]. constructor. now apply IH. Qed.

(** Putting a marker on a line of its own only inserts line feeds. *)
Lemma replace_padded (c0 : ascii) (old' : string) :
  let old := String c0 old' in
  forall s, padded (replace old (nl ++ old ++ nl) s) s.
Proof.
  intros old s. unfold replace.
  remember (String.length s) as len eqn:Hlen.
  assert (Hle : String.length s <= len) by lia. clear Hlen.
  revert s Hle. induction len as [|len IH]; intros s Hle.
  - destruct s; [constructor|simpl in Hle; lia].
  - destruct s as [|c s]; [constructor|].
    change (replace_from old (nl ++ old ++ nl) 0 (String c s))
      with (if String.prefix old (String c s)
            then (nl ++ old ++ nl) ++ replace_from old (nl ++ old ++ nl)
                                      (String.length old - 1) s
            else String c (replace_from old (nl ++ old ++ nl) 0 s)).
    destruct (String.prefix old (String c s)) eqn:P.
    + rewrite replace_skip.
      pose proof (prefix_split old (String c s) P) as Hs.
      assert (Hdrop : drop (String.length old - 1) s = drop (String.length old) (String c s)).
      { unfold old. simpl. rewrite Nat.sub_0_r. reflexivity. }
      rewrite Hdrop. clear Hdrop.
      set (rest := drop (String.length old) (String c s)) in *.
      assert (Hlen : String.length (String c s) = String.length old + String.length rest).
      { rewrite Hs. clear. generalize rest. intro r.
        induction old as [|x o IHo]; simpl; [reflexivity|]. now rewrite IHo. }
      assert (E : forall x, (nl ++ old ++ nl) ++ x = String LF (old ++ String LF x)).
      { intro x. unfold nl. simpl. f_equal. f_equal. rewrite append_assoc. reflexivity. }
      rewrite Hs, E.
      apply padded_insert. apply padded_app_keep. apply padded_insert.
      apply IH. unfold old in Hlen. simpl in Hlen. simpl in Hle. lia.
    + constructor. apply IH. simpl in Hle. lia.
Qed.

(** The lines of a text: each one is a piece of it without line feeds, and
    the first one starts it. *)
Lemma split_char_lines (s : string) :
  (exists h t b, split_char LF s = h :: t /\ s = h ++ b /\ no_linefeed h = true)
  /\ (forall raw, In raw (split_char LF s) ->
        exists a b, s = a ++ raw ++ b /\ no_linefeed raw = true).
Proof.
  induction s as [|c s ((h & t & b & Hsplit & Hs & Hh) & IH)].
  - split.
    + exists EmptyString, [], EmptyString. auto.
    + intros raw [<-|[]]. exists EmptyString, EmptyString. auto.
  - simpl. destruct (Ascii.eqb c LF) eqn:Ec.
    + split.
      * exists EmptyString, (split_char LF s), (String c s). auto.
      * intros raw [<-|Hin].
        -- exists EmptyString, (String c s). auto.
        -- destruct (IH raw Hin) as (a & b' & -> & Hraw).
           exists (String c a), b'. auto.
    + rewrite Hsplit.
      assert (Hch : no_linefeed (String c h) = true).
      { unfold no_linefeed in *. simpl. rewrite Ec, Hh. reflexivity. }
      split.
      * exists (String c h), t, b.
        split; [reflexivity|]. split; [simpl; congruence|exact Hch].
      * intros raw [<-|Hin].
        -- exists EmptyString, b. split; [simpl; congruence|exact Hch].
        -- destruct (IH raw) as (a & b' & -> & Hraw); [rewrite Hsplit; now right|].
           exists (String c a), b'. auto.
Qed.

(** Every line of an output, stripped, occurs in the output. *)
Lemma response_line_infix (response raw : string) :
  In raw (response_lines response) -> infix_of (strip raw) response.
Proof.
  unfold response_lines. intro Hin.
  apply split_char_lines in Hin as (a & b & Hn & Hraw).
  eapply infix_trans; [apply strip_infix|].
  pose proof (replace_padded "<" "tool_call>" response) as H1.
  pose proof (replace_padded "<" "/tool_call>"
                (replace "<tool_call>" (nl ++ "<tool_call>" ++ nl) response)) as H2.
  simpl in H1, H2.
  destruct (padded_infix H2 a raw b Hn Hraw) as (a1 & b1 & Hn1).
  eapply (padded_infix H1 a1 raw b1 Hn1 Hraw).
Qed.

Lemma lower_append (a b : string) : lower (a ++ b) = lower a ++ lower b.
Proof. induction a as [|c a IH]; simpl; congruence. Qed.

Lemma prefix_append (p s b : string) :
  String.prefix p s = true -> String.prefix p (s ++ b) = true.
Proof.
  revert s. induction p as [|c p IH]; intros s H.
  - destruct (s ++ b); reflexivity.
  - destruct s as [|d s]; simpl in *; [discriminate|].
    destruct (Ascii.ascii_dec c d); [auto|discriminate].
Qed.

Lemma contains_prefix (u s : string) : String.prefix u s = true -> contains u s = true.
Proof.
  intro H. destruct s as [|c s].
  - change (contains u EmptyString) with (String.prefix u EmptyString || false).
    rewrite H. reflexivity.
  - change (contains u (String c s)) with (String.prefix u (String c s) || contains u s).
    rewrite H. reflexivity.
Qed.

Lemma contains_infix (u t s : string) :
  String.prefix u t = true -> infix_of t s -> contains u s = true.
Proof.
  intros Hp (a & b & ->).
  induction a as [|c a IH].
  - change (contains u (t ++ b) = true).
    apply contains_prefix. apply (@prefix_append u t b Hp).
  - change (contains u (String c a ++ t ++ b))
      with (String.prefix u (String c (a ++ t ++ b)) || contains u (a ++ t ++ b)).
    rewrite IH. apply orb_true_r.
Qed.

Lemma search_action_none (s : string) :
  contains "action:" (lower s) = false -> search_action s = None.
Proof.
  induction s as [|c s IH]; intro H.
  - reflexivity.
  - change (lower (String c s)) with (String (lower_char c) (lower s)) in H.
    change (contains "action:" (String (lower_char c) (lower s)))
      with (String.prefix "action:" (String (lower_char c) (lower s))
            || contains "action:" (lower s)) in H.
    apply orb_false_elim in H as [Hp Hc].
    change (search_action (String c s))
      with (if String.prefix "action:" (lower (String c s))
            then Some (until_newline (lstrip (drop 7 (String c s))))
            else search_action s).
    change (lower (String c s)) with (String (lower_char c) (lower s)).
    rewrite Hp. apply IH, Hc.
Qed.

(** An output that nowhere reads [action:], in any letter case, has the
    empty summary. *)
Lemma action_summary_none (response : string) :
  contains "action:" (lower response) = false -> action_summary response = EmptyString.
Proof.
  intro H. unfold action_summary.
  destruct (is_empty (strip response)); [reflexivity|].
  unfold initial_instruction. rewrite (search_action_none response H).
  assert (Hlines : forall raw, In raw (response_lines response) ->
                     startswith (lower (strip raw)) "action:" = false).
  { intros raw Hin. destruct (startswith (lower (strip raw)) "action:") eqn:E; [|reflexivity].
    pose proof (response_line_infix response raw Hin) as (a & b & Hr).
    assert (Hc : contains "action:" (lower response) = true).
    { apply (@contains_infix "action:" (lower (strip raw)) (lower response) E).
      exists (lower a), (lower b). rewrite Hr, !lower_append. reflexivity. }
    congruence. }
  revert Hlines. generalize (response_lines response). intro lines.
  induction lines as [|raw rest IH]; intro Hlines; [reflexivity|].
  simpl. unfold next_summary at 2.
  rewrite (Hlines raw (or_introl eq_refl)), andb_false_r.
  apply IH. intros r Hr. apply Hlines. now right.
Qed.

End LineFacts.


(** ** Claims on the response compiler *)

Module ParserClaims.
Import PyStr PyVal PyStrFacts ResponseParser Spec ParserFacts LineFacts.

(** C1, as amended.  For every pair [(x, y)] the compiler maps it, with
    original size [(W, H)] known, to [(int(x * (W / 1000.0)),
    int(y * (H / 1000.0)))] in relative mode, with the divisor [999.0] in
    any mode that is neither relative nor absolute, and to
    [(int(x * (W / Wp)), int(y * (H / Hp)))] in absolute mode with known
    processed size [(Wp, Hp)]: the scale factor of each axis is computed
    first, in binary64, and the product is truncated.  With an unknown
    original size the pair passes through as [(int(x), int(y))].  The
    left, right and middle click, the double click, the drag and the move
    all apply this one mapping to their [coordinate]. *)
Theorem coordinate_mapping
  (py_repr : json -> string) (ct : string) (ow oh pw ph : option Z) (x y : json) :
  (forall W H, known ow = Some W -> known oh = Some H ->
     (ct = "relative" ->
        adjust_coordinates ct ow oh pw ph x y
        = scaled (PyFloat.int_div_float W PyFloat.f1000)
                 (PyFloat.int_div_float H PyFloat.f1000) x y)
     /\ (ct <> "relative" -> ct <> "absolute" ->
        adjust_coordinates ct ow oh pw ph x y
        = scaled (PyFloat.int_div_float W PyFloat.f999)
                 (PyFloat.int_div_float H PyFloat.f999) x y)
     /\ (ct = "absolute" -> forall Wp Hp, known pw = Some Wp -> known ph = Some Hp ->
        adjust_coordinates ct ow oh pw ph x y
        = scaled (PyFloat.int_truediv W Wp) (PyFloat.int_truediv H Hp) x y))
  /\ (known ow = None \/ known oh = None ->
      adjust_coordinates ct ow oh pw ph x y = unchanged x y)
  /\ (forall action args c,
        In action pointer_actions ->
        PyDict.get "coordinate" args = Some c ->
        unpack2 c = Ok (x, y) ->
        command_of py_repr ct ow oh pw ph action args
        = ('(adj_x, adj_y) <- adjust_coordinates ct ow oh pw ph x y ;;
           Ok (Some (pointer_command py_repr action args adj_x adj_y)))).
Proof.
  split; [|split].
  - intros W H Hw Hh. split; [|split].
    + intro Hr. now apply adjust_relative.
    + intros Hr Ha. now apply adjust_discrete.
    + intros -> Wp Hp Hpw Hph. now apply adjust_absolute.
  - apply adjust_unknown.
  - intros action args c. apply pointer_action_adjusts.
Qed.

(** C1, tried on a screen of 1920 by 1080 with a processed image of 1288
    by 728: the pair (500, 250) in the three modes, and a drag. *)
Lemma coordinate_mapping_witness :
  adjust_coordinates "relative" (Some 1920%Z) (Some 1080%Z) None None (JInt 500) (JInt 250)
  = Ok (960%Z, 270%Z)
  /\ adjust_coordinates "qwen25" (Some 1920%Z) (Some 1080%Z) None None (JInt 500) (JInt 250)
     = Ok (960%Z, 270%Z)
  /\ adjust_coordinates "absolute" (Some 1920%Z) (Some 1080%Z) (Some 1288%Z) (Some 728%Z)
       (JInt 500) (JInt 250)
     = Ok (745%Z, 370%Z)
  /\ adjust_coordinates "relative" None (Some 1080%Z) None None (JInt 500) (JFloat (PyFloat.exact 250))
     = Ok (500%Z, 250%Z)
  /\ command_of Sample.repr "relative" (Some 1920%Z) (Some 1080%Z) None None "left_click_drag"
       [("action", JStr "left_click_drag"); ("coordinate", JArr [JInt 500; JInt 250])]
     = Ok (Some "pyautogui.dragTo(960, 270, duration=0.5)").
Proof.
  pose proof (coordinate_mapping Sample.repr "relative" (Some 1920%Z) (Some 1080%Z) None None
                (JInt 500) (JInt 250)) as [Hk [_ Hc]].
  destruct (Hk 1920%Z 1080%Z eq_refl eq_refl) as [Hrel _].
  pose proof (coordinate_mapping Sample.repr "qwen25" (Some 1920%Z) (Some 1080%Z) None None
                (JInt 500) (JInt 250)) as [Hk2 _].
  destruct (Hk2 1920%Z 1080%Z eq_refl eq_refl) as [_ [Hdis _]].
  pose proof (coordinate_mapping Sample.repr "absolute" (Some 1920%Z) (Some 1080%Z)
                (Some 1288%Z) (Some 728%Z) (JInt 500) (JInt 250)) as [Hk3 _].
  destruct (Hk3 1920%Z 1080%Z eq_refl eq_refl) as [_ [_ Habs]].
  pose proof (coordinate_mapping Sample.repr "relative" None (Some 1080%Z) None None
                (JInt 500) (JFloat (PyFloat.exact 250))) as [_ [Hun _]].
  split; [|split; [|split; [|split]]].
  - rewrite (Hrel eq_refl). vm_compute. reflexivity.
  - rewrite Hdis; [vm_compute; reflexivity | discriminate | discriminate].
  - rewrite (Habs eq_refl 1288%Z 728%Z eq_refl eq_refl). vm_compute. reflexivity.
  - rewrite Hun; [vm_compute; reflexivity | left; reflexivity].
  - rewrite (Hc "left_click_drag" _ (JArr [JInt 500; JInt 250]));
      [ rewrite (Hrel eq_refl); vm_compute; reflexivity
      | simpl; tauto | reflexivity | reflexivity ].
Defined.

(** C1 as stated fails.  On a screen 2048 wide and 1152 high, in relative
    mode, the pair (0, 375) is mapped to (0, 431), while
    [int(375 * 1152 / 1000.0)] is 432: the scale [1152 / 1000.0] is
    rounded before it is multiplied. *)
Lemma coordinate_mapping_counterexample :
  adjust_coordinates "relative" (Some 2048%Z) (Some 1152%Z) None None (JInt 0) (JInt 375)
  = Ok (0%Z, 431%Z)
  /\ product_first PyFloat.f1000 2048 1152 0 375 = Ok (0%Z, 432%Z).
Proof. split; vm_compute; reflexivity. Qed.


Lemma sample_loads_objects : objects_only Sample.loads.
Proof.
  intros text v _. unfold Sample.loads.
  destruct (String.eqb text (Sample.call_text "fly")); [|discriminate].
  intro H. injection H as <-. eexists. reflexivity.
Qed.



(** A line [action:] in lower case with no text after it: the line test
    ignores the letter case, the split does not, and the call raises. *)
Example lower_case_action_line_raises :
  parse_response Sample.loads Sample.repr "relative" (Some 1920%Z) (Some 1080%Z) None None
    (Some ("action:" ++ nl ++ Sample.fly_only)) = Raise IndexError.
Proof. vm_compute. reflexivity. Qed.

(** What [json.loads] raises besides [JSONDecodeError] passes every
    handler: on a one-line object, inside the trimming of [_coerce_json]
    and through [process_tool_call], so the call raises it. *)
Lemma decoder_error_escapes
  (json_loads : string -> result json) (py_repr : json -> string)
  (ct : string) (ow oh pw ph : option Z) (text : string) (code : list string) (e : exn) :
  json_loads (strip text) = Raise e ->
  e <> JSONDecodeError -> (forall key, e <> KeyError key) ->
  _coerce_json json_loads text = Raise e
  /\ process_tool_call json_loads py_repr ct ow oh pw ph text code = Raise e.
Proof.
  intros Hraise Hdecode Hkey.
  assert (Hc : _coerce_json json_loads text = Raise e).
  { unfold _coerce_json. rewrite Hraise. cbn [bind except_decode].
    destruct e; try reflexivity. contradiction. }
  split; [exact Hc|].
  unfold process_tool_call. rewrite Hc. cbn [bind].
  destruct e; try reflexivity; [contradiction|exfalso; eapply Hkey; reflexivity].
Qed.

(** The line [long_number] holds an integer of 4301 digits, for which
    [json.loads] raises [ValueError]: compiling an output with that line
    raises it. *)
Example long_number_raises :
  parse_response Sample.loads_limit Sample.repr "relative" (Some 1920%Z) (Some 1080%Z) None None
    (Some ("Action: wait" ++ nl ++ Sample.long_number)) = Raise (ValueError Sample.over_limit).
Proof. vm_compute. reflexivity. Qed.

(** C10.  For a response that is [None] or consists of blanks only,
    [parse_response] returns the empty summary and the empty command list,
    whatever the coordinate mode and the sizes, and raises nothing. *)
Theorem parse_response_blank
  (json_loads : string -> result json) (py_repr : json -> string)
  (ct : string) (ow oh pw ph : option Z) (response : option string) :
  blank response = true ->
  parse_response json_loads py_repr ct ow oh pw ph response = Ok (EmptyString, []).
Proof.
  destruct response as [s|]; simpl; [|reflexivity].
  intro H. unfold parse_response. rewrite (blank_strip s H). reflexivity.
Qed.

(** C10, tried on a response of spaces, a line end and a tab. *)
Lemma parse_response_blank_witness :
  blank (Some Sample.blanks) = true
  /\ parse_response Sample.loads Sample.repr "absolute" (Some 1920%Z) None (Some 5%Z) None
       (Some Sample.blanks) = Ok (EmptyString, [])
  /\ parse_response Sample.loads Sample.repr "relative" None None None None None
     = Ok (EmptyString, []).
Proof.
  split; [reflexivity|]. split.
  - apply parse_response_blank. reflexivity.
  - apply parse_response_blank. reflexivity.
Defined.

End ParserClaims.

(** ** The conversation engine *)

Module AgentFacts.
Import PyStr Agent Spec.

(** The loop body in the words of [with_image] and [without_image]. *)
Lemma trim_message_spec (budget : Z) (raw : message) :
  trim_message budget raw
  = if has_image raw && (0 <? budget)%Z
    then (with_image raw, (budget - 1)%Z)
    else (without_image raw, budget).
Proof.
  unfold trim_message, has_image, with_image, without_image, texts, role_or_user, has_image.
  destruct (filter is_image (content raw)) as [|img imgs]; simpl.
  - destruct (filter is_text (content raw)); reflexivity.
  - destruct (0 <? budget)%Z; [reflexivity|].
    destruct (filter is_text (content raw)); reflexivity.
Qed.

Lemma trim_loop_walk (max_messages : Z) (reversed : list message) :
  forall budget trimmed,
    (Z.of_nat (List.length trimmed) < max_messages)%Z ->
    trim_loop max_messages reversed budget trimmed
    = (trimmed ++ walk budget (firstn (Z.to_nat max_messages - List.length trimmed) reversed))%list.
Proof.
  induction reversed as [|raw rest IH]; intros budget trimmed Hlt.
  - simpl. rewrite firstn_nil. simpl. rewrite app_nil_r. reflexivity.
  - simpl. destruct (trim_message budget raw) as [m budget'] eqn:Em.
    rewrite length_app. simpl.
    destruct (Z.to_nat max_messages - List.length trimmed) as [|k] eqn:Ek; [lia|].
    simpl. rewrite Em.
    destruct (Z.leb_spec max_messages (Z.of_nat (List.length trimmed + 1))) as [Hle|Hgt].
    + assert (k = 0) by lia. subst k. simpl. reflexivity.
    + rewrite IH by (rewrite length_app; simpl; lia).
      rewrite length_app. simpl. rewrite <- app_assoc. simpl.
      replace (Z.to_nat max_messages - (List.length trimmed + 1)) with k by lia.
      reflexivity.
Qed.

Lemma walk_zero (reversed : list message) :
  walk 0 reversed = map without_image reversed.
Proof.
  induction reversed as [|raw rest IH]; [reflexivity|].
  simpl. rewrite trim_message_spec. rewrite andb_false_r. rewrite IH. reflexivity.
Qed.

Lemma render_no_image (window : list message) :
  existsb has_image window = false -> render window = map without_image window.
Proof.
  induction window as [|raw later IH]; [reflexivity|].
  simpl. intro H. apply orb_false_elim in H as [Hraw Hlater].
  rewrite Hraw. simpl. rewrite IH by assumption. reflexivity.
Qed.

(** The latest message decides: with an image it keeps it and every
    earlier message loses its own. *)
Lemma render_snoc (window : list message) (raw : message) :
  render (window ++ [raw])
  = if has_image raw
    then (map without_image window ++ [with_image raw])%list
    else (render window ++ [without_image raw])%list.
Proof.
  induction window as [|m later IH]; simpl.
  - destruct (has_image raw); reflexivity.
  - rewrite IH. rewrite existsb_app. simpl. rewrite orb_false_r.
    destruct (has_image raw); simpl.
    + rewrite orb_true_r, andb_false_r. reflexivity.
    + rewrite orb_false_r. reflexivity.
Qed.

Lemma walk_render (reversed : list message) :
  rev (walk 1 reversed) = render (rev reversed).
Proof.
  induction reversed as [|raw rest IH]; [reflexivity|].
  simpl. rewrite trim_message_spec, render_snoc.
  change (0 <? 1)%Z with true. rewrite andb_true_r.
  destruct (has_image raw).
  - simpl. change (1 - 1)%Z with 0%Z. rewrite walk_zero, map_rev. reflexivity.
  - simpl. rewrite IH. reflexivity.
Qed.

(** The list that is sent: the system message that heads the history, then
    the rendering of the last twelve messages of the rest. *)
Lemma prepare_render (self : agent) :
  _prepare_messages_for_send self
  = (system_part (messages self) ++ render (last_n 12 (non_system_part (messages self))))%list.
Proof.
  unfold _prepare_messages_for_send, _prepare_messages_for_send_with,
    system_part, non_system_part.
  destruct (messages self) as [|first rest]; [reflexivity|].
  assert (H : forall remaining,
             rev (trim_loop 12 (rev remaining) 1 []) = render (last_n 12 remaining)).
  { intro remaining. rewrite trim_loop_walk by (simpl; lia).
    change (Z.to_nat 12 - List.length (@nil message)) with 12.
    cbn [app].
    rewrite walk_render, firstn_rev, rev_involutive. reflexivity. }
  destruct (is_system first); rewrite H; reflexivity.
Qed.

Lemma length_render (window : list message) : List.length (render window) = List.length window.
Proof. induction window; simpl; congruence. Qed.

Lemma length_last_n (A : Type) (n : nat) (l : list A) : List.length (last_n n l) <= n.
Proof. unfold last_n. rewrite length_skipn. lia. Qed.

Lemma images_cons (m : message) (ms : list message) :
  images_in (m :: ms) = List.length (filter is_image (content m)) + images_in ms.
Proof. unfold images_in. simpl. rewrite filter_app, length_app. reflexivity. Qed.

Lemma filter_image_text (ps : list part) : filter is_image (filter is_text ps) = [].
Proof.
  induction ps as [|p ps IH]; [reflexivity|].
  destruct p; simpl; auto.
Qed.

Lemma images_without (raw : message) :
  filter is_image (content (without_image raw)) = [].
Proof.
  unfold without_image, texts. simpl.
  destruct (filter is_text (content raw)) as [|t ts] eqn:E.
  - destruct (has_image raw); reflexivity.
  - rewrite <- E. apply filter_image_text.
Qed.

Lemma images_with (raw : message) :
  List.length (filter is_image (content (with_image raw))) <= 1.
Proof.
  unfold with_image, texts. simpl.
  rewrite filter_app, filter_image_text. simpl.
  destruct (filter is_image (content raw)) as [|i l]; simpl; [lia|].
  destruct (is_image i); simpl; lia.
Qed.

Lemma images_map_without (window : list message) :
  images_in (map without_image window) = 0.
Proof.
  induction window as [|raw later IH]; [reflexivity|].
  simpl. rewrite images_cons, images_without, IH. reflexivity.
Qed.

Lemma images_render (window : list message) : images_in (render window) <= 1.
Proof.
  induction window as [|raw later IH]; [unfold images_in; simpl; lia|].
  simpl. rewrite images_cons.
  destruct (has_image raw && negb (existsb has_image later)) eqn:E.
  - apply andb_prop in E as [_ E]. apply negb_true_iff in E.
    rewrite (render_no_image later E), images_map_without.
    pose proof (images_with raw). lia.
  - rewrite images_without. simpl. exact IH.
Qed.

End AgentFacts.

(** ** Claims on the conversation engine *)

Module AgentClaims.
Import PyStr Agent Spec AgentFacts.

(** C2, as amended.  When, with this turn counted, the number of executed
    turns has reached [max_steps], and the compiled command list is not
    empty and its first command contains neither [DONE] nor [FAIL],
    [predict] returns the response text with the action list [['FAIL']];
    the step-limit reason is what the local [low_level_instruction] holds
    when [predict] returns (the local is not part of the returned pair). *)
Theorem step_limit_forces_failure
  (self : agent) (response_display low_level_instruction first : string)
  (others : list string) :
  (max_steps self <= Z.of_nat (List.length (executed_actions self)) + 1)%Z ->
  contains "DONE" first = false ->
  contains "FAIL" first = false ->
  returned (predict_finish self response_display low_level_instruction (first :: others))
  = (response_display, ["FAIL"])
  /\ final_instruction
       (predict_finish self response_display low_level_instruction (first :: others))
     = "Fail the task because reaching the maximum step limit.".
Proof.
  intros Hmax Hdone Hfail. unfold predict_finish. simpl.
  rewrite length_app. simpl. rewrite Hdone, Hfail. simpl.
  destruct (Z.leb_spec (max_steps self)
              (Z.of_nat (List.length (executed_actions self) + 1))) as [_|Hlt]; [|lia].
  split; reflexivity.
Qed.

(** C2, tried on the fifteenth turn of a budget of fifteen, with a click
    as the compiled command. *)
Lemma step_limit_forces_failure_witness :
  (max_steps Sample.agent_before_limit
   <= Z.of_nat (List.length (executed_actions Sample.agent_before_limit)) + 1)%Z
  /\ contains "DONE" "pyautogui.click(960, 270)" = false
  /\ contains "FAIL" "pyautogui.click(960, 270)" = false
  /\ returned (predict_finish Sample.agent_before_limit "Action: click the icon"
                 "click the icon" ["pyautogui.click(960, 270)"])
     = ("Action: click the icon", ["FAIL"]).
Proof.
  assert (H1 : (max_steps Sample.agent_before_limit
                <= Z.of_nat (List.length (executed_actions Sample.agent_before_limit)) + 1)%Z)
    by (vm_compute; discriminate).
  split; [exact H1|]. split; [reflexivity|]. split; [reflexivity|].
  exact (proj1 (step_limit_forces_failure Sample.agent_before_limit "Action: click the icon"
                  "click the icon" "pyautogui.click(960, 270)" [] H1 eq_refl eq_refl)).
Defined.

(** C2 as stated fails.  On the fifteenth turn of a budget of fifteen,
    with no [DONE] and no [FAIL] command compiled, [predict] returns the
    compiled list unchanged when that list is empty, and also when its
    command is a [type] command whose text contains [DONE]. *)
Lemma step_limit_counterexample :
  returned (predict_finish Sample.agent_before_limit "I am thinking" "" [])
  = ("I am thinking", [])
  /\ ResponseParser.command_of Sample.repr "relative" None None None None "type"
       [("action", JStr "type"); ("text", JStr "DONE")] = Ok (Some Sample.type_done)
  /\ returned (predict_finish Sample.agent_before_limit "Action: type DONE" "type DONE"
                 [Sample.type_done])
     = ("Action: type DONE", [Sample.type_done]).
Proof. repeat split; vm_compute; reflexivity. Qed.

(** What [_prepare_messages_for_send] builds.  The list sent to the model
    provider is the system message that heads the history, if there is
    one, followed by the rendering of the last twelve of the other
    messages.  That rendering has one message per message of the window,
    at most twelve, and embeds at most one image, the first image of the
    latest message that has one.  A message whose images are left out is
    sent as its text parts when it has any, and as the placeholder text
    only when it has none. *)
Lemma outbound_messages (self : agent) :
  _prepare_messages_for_send self
  = (system_part (messages self)
     ++ render (last_n 12 (non_system_part (messages self))))%list
  /\ List.length (render (last_n 12 (non_system_part (messages self)))) <= 12
  /\ images_in (render (last_n 12 (non_system_part (messages self)))) <= 1
  /\ (forall raw, has_image raw = true -> texts raw = [] ->
        content (without_image raw) = [placeholder])
  /\ (forall raw, texts raw <> [] -> content (without_image raw) = texts raw).
Proof.
  split; [apply prepare_render|].
  split; [rewrite length_render; apply length_last_n|].
  split; [apply images_render|].
  split.
  - intros raw Himg Htexts. unfold without_image. simpl. rewrite Htexts, Himg. reflexivity.
  - intros raw Htexts. unfold without_image. simpl.
    destruct (texts raw); [contradiction|reflexivity].
Qed.

(** On the sample history the system message stays first, one image is
    sent, and the message that had only a screenshot is sent as the
    placeholder. *)
Lemma outbound_messages_sample :
  _prepare_messages_for_send Sample.agent_before_limit
  = (system_part Sample.history ++ render (last_n 12 (non_system_part Sample.history)))%list
  /\ images_in (_prepare_messages_for_send Sample.agent_before_limit) = 1
  /\ nth_error (_prepare_messages_for_send Sample.agent_before_limit) 3
     = Some {| role := Some "user"; content := [placeholder] |}.
Proof.
  split; [exact (proj1 (outbound_messages Sample.agent_before_limit))|].
  split; reflexivity.
Defined.

(** C8.  The send path breaks the claim, and the description of
    [_prepare_messages_for_send] in its own docstring, on the sample
    history.  The first user message holds the instruction and a
    screenshot, and two later messages hold screenshots; the message is
    sent as its text alone: its image is left out and no placeholder
    stands where it was, the note being added only to a message that has
    no text part. *)
Theorem older_image_without_note :
  nth_error (messages Sample.agent_before_limit) 1
  = Some {| role := Some "user";
            content := [TextPart "open the mail app"; ImagePart "shot-1"] |}
  /\ nth_error (_prepare_messages_for_send Sample.agent_before_limit) 1
     = Some {| role := Some "user"; content := [TextPart "open the mail app"] |}
  /\ images_in (_prepare_messages_for_send Sample.agent_before_limit) = 1.
Proof. repeat split. Qed.

End AgentClaims.

(** ** Facts about dictionaries *)

Module PyDictFacts.
Import Spec.

Section Facts.
Variable V : Type.

Lemma get_set_same (k : string) (v : V) (d : PyDict.dict V) :
  PyDict.get k (PyDict.set k v d) = Some v.
Proof.
  induction d as [|[k' v'] d IH]; simpl.
  - rewrite String.eqb_refl. reflexivity.
  - destruct (String.eqb k' k) eqn:E; simpl; rewrite E; [reflexivity|exact IH].
Qed.

Lemma get_set_other (k k' : string) (v : V) (d : PyDict.dict V) :
  k' <> k -> PyDict.get k' (PyDict.set k v d) = PyDict.get k' d.
Proof.
  intro Hne. induction d as [|[k0 v0] d IH]; simpl.
  - apply String.eqb_neq in Hne. rewrite String.eqb_sym, Hne. reflexivity.
  - destruct (String.eqb_spec k0 k) as [->|Hk]; simpl.
    + apply String.eqb_neq in Hne. rewrite String.eqb_sym, Hne. reflexivity.
    + destruct (String.eqb k0 k'); [reflexivity|exact IH].
Qed.

Lemma mem_in_keys (k : string) (d : PyDict.dict V) :
  PyDict.mem k d = true -> In k (PyDict.keys d).
Proof.
  unfold PyDict.mem. induction d as [|[k' v'] d IH]; simpl; [discriminate|].
  destruct (String.eqb_spec k' k) as [->|Hne]; [auto|]. intro H. right. apply IH, H.
Qed.

Lemma length_keys (d : PyDict.dict V) : List.length (PyDict.keys d) = List.length d.
Proof. apply length_map. Qed.

Lemma count_set_new (p : V -> bool) (k : string) (v : V) (d : PyDict.dict V) :
  count p (PyDict.set k v d) <= count p d + (if p v then 1 else 0).
Proof.
  unfold count. induction d as [|[k' v'] d IH]; simpl.
  - destruct (p v); simpl; lia.
  - destruct (String.eqb k' k); simpl.
    + destruct (p v), (p v'); simpl; lia.
    + destruct (p v'); simpl; lia.
Qed.

(** Replacing a value by one that passes the test only if the old one did
    does not raise the count. *)
Lemma count_set_update (p : V -> bool) (k : string) (old v : V) (d : PyDict.dict V) :
  PyDict.get k d = Some old ->
  (p v = true -> p old = true) ->
  count p (PyDict.set k v d) <= count p d.
Proof.
  unfold count. intros Hget Himp.
  induction d as [|[k' v'] d IH]; simpl in *; [discriminate|].
  destruct (String.eqb k' k); simpl.
  - injection Hget as ->.
    destruct (p v) eqn:Ev; [rewrite (Himp eq_refl); simpl; lia|].
    destruct (p old); simpl; lia.
  - specialize (IH Hget). destruct (p v'); simpl; lia.
Qed.

Lemma count_pop (p : V -> bool) (k : string) (d : PyDict.dict V) :
  count p (PyDict.pop k d) <= count p d.
Proof.
  unfold count. induction d as [|[k' v'] d IH]; simpl; [lia|].
  destruct (String.eqb k' k); simpl.
  - destruct (p v'); simpl; lia.
  - destruct (p v'); simpl; lia.
Qed.

Lemma find_none_count (p : V -> bool) (d : PyDict.dict V) :
  find p (PyDict.values d) = None -> count p d = 0.
Proof.
  unfold count. induction d as [|[k' v'] d IH]; simpl; [reflexivity|].
  destruct (p v'); [discriminate|exact IH].
Qed.

End Facts.
End PyDictFacts.

(** ** The skill store *)

Module RepositoryFacts.
Import PyStr PyStrFacts PyDictFacts Repository Spec.

Lemma append_inv_head (base x y : string) : base ++ x = base ++ y -> x = y.
Proof.
  induction base as [|c base IH]; simpl; [auto|].
  intro H. injection H as H. auto.
Qed.

Lemma length_append (x y : string) :
  String.length (x ++ y) = String.length x + String.length y.
Proof. induction x as [|c x IH]; simpl; [reflexivity|]. rewrite IH. reflexivity. Qed.

Lemma append_inv_tail (x y t : string) : x ++ t = y ++ t -> x = y.
Proof.
  revert y. induction x as [|c x IH]; intros y H.
  - destruct y as [|d y]; [reflexivity|].
    apply (f_equal String.length) in H. simpl in H. rewrite length_append in H. lia.
  - destruct y as [|d y].
    + apply (f_equal String.length) in H. simpl in H. rewrite length_append in H. lia.
    + simpl in H. injection H as -> H. f_equal. apply IH, H.
Qed.

Lemma of_Z_inj (a b : Z) : of_Z a = of_Z b -> a = b.
Proof.
  unfold of_Z. intro H.
  apply DecimalZ.to_int_inj.
  pose proof (NilEmpty.isi (Z.to_int a)) as Ha.
  pose proof (NilEmpty.isi (Z.to_int b)) as Hb.
  rewrite H in Ha. rewrite Ha in Hb. injection Hb as Hb. exact Hb.
Qed.

Lemma candidate_inj (base : string) (j k : nat) :
  candidate base j = candidate base k -> j = k.
Proof.
  destruct j as [|j], k as [|k]; simpl; intro H; [reflexivity| | |].
  - apply append_inv_head in H. discriminate.
  - apply append_inv_head in H. discriminate.
  - apply append_inv_head in H. simpl in H. injection H as H.
    apply append_inv_tail, of_Z_inj in H. lia.
Qed.

(** A loop that runs out of rounds has found every candidate in the
    directory. *)
Lemma unique_path_loop_none dir base :
  forall fuel k,
    unique_path_loop fuel dir base (candidate base k) (S k) = None ->
    forall j, k <= j <= k + fuel -> exists_ dir (candidate base j) = Ok true.
Proof.
  induction fuel as [|fuel IH]; intros k H j Hj; simpl in H.
  - destruct (exists_ dir (candidate base k)) as [[|]|e] eqn:E; try discriminate.
    replace j with k by lia. exact E.
  - destruct (exists_ dir (candidate base k)) as [[|]|e] eqn:E; try discriminate.
    destruct (Nat.eq_dec j k) as [->|Hne]; [exact E|].
    apply (IH (S k)); [exact H|lia].
Qed.

Lemma unique_path_loop_fresh dir base :
  forall fuel path_ counter p,
    unique_path_loop fuel dir base path_ counter = Some (Ok p) -> exists_ dir p = Ok false.
Proof.
  induction fuel as [|fuel IH]; intros path_ counter p; simpl.
  - destruct (exists_ dir path_) as [[|]|e] eqn:E; try discriminate.
    intro H. injection H as <-. exact E.
  - destruct (exists_ dir path_) as [[|]|e] eqn:E; try discriminate.
    + apply IH.
    + intro H. injection H as <-. exact E.
Qed.

(** The loop raises only where a candidate it tries is too long. *)
Lemma unique_path_loop_raise dir base :
  forall fuel k e,
    unique_path_loop fuel dir base (candidate base k) (S k) = Some (Raise e) ->
    e = OSError /\ exists j, k <= j <= k + fuel /\ fits (candidate base j) = false.
Proof.
  induction fuel as [|fuel IH]; intros k e; simpl.
  - unfold exists_. destruct (fits (candidate base k)) eqn:E.
    + destruct (PyDict.mem (candidate base k) dir); discriminate.
    + intros [= <-]. split; [reflexivity|]. exists k. split; [lia|exact E].
  - unfold exists_ at 1. destruct (fits (candidate base k)) eqn:E.
    + destruct (PyDict.mem (candidate base k) dir); [|discriminate].
      intro H. destruct (IH (S k) e H) as (-> & j & Hj & Hfit).
      split; [reflexivity|]. exists j. split; [lia|exact Hfit].
    + intros [= <-]. split; [reflexivity|]. exists k. split; [lia|exact E].
Qed.

Lemma exists_true_in_keys (dir : list (string * node)) (name : string) :
  exists_ dir name = Ok true -> In name (PyDict.keys dir).
Proof.
  unfold exists_. destruct (fits name); [|discriminate].
  intros [= H]. apply mem_in_keys. exact H.
Qed.

Lemma exists_false_fits (dir : list (string * node)) (name : string) :
  exists_ dir name = Ok false -> fits name = true /\ PyDict.get name dir = None.
Proof.
  unfold exists_, PyDict.mem. destruct (fits name); [|discriminate].
  destruct (PyDict.get name dir); [discriminate|]. auto.
Qed.

(** [_unique_path] ends: with a name that the directory does not have,
    or with the [OSError] of a candidate that is too long. *)
Lemma unique_path_total (dir : list (string * node)) (slug : string) :
  exists found,
    _unique_path dir slug = Some found
    /\ match found with
       | Ok p => exists_ dir p = Ok false
       | Raise e => e = OSError /\ roomy dir slug = false
       end.
Proof.
  unfold _unique_path, roomy, base_name.
  set (base := if is_empty slug then "skill" else slug).
  change (base ++ ".md") with (candidate base 0).
  destruct (unique_path_loop (List.length dir) dir base (candidate base 0) 1)
    as [[p|e]|] eqn:E.
  - exists (Ok p). split; [reflexivity|]. eapply unique_path_loop_fresh, E.
  - exists (Raise e). split; [reflexivity|].
    destruct (unique_path_loop_raise _ _ _ _ E) as (-> & j & Hj & Hfit).
    split; [reflexivity|].
    destruct (forallb _ _) eqn:Eall; [|reflexivity].
    rewrite forallb_forall in Eall. rewrite (Eall j) in Hfit; [discriminate|].
    apply in_seq. lia.
  - exfalso.
    pose proof (@unique_path_loop_none dir base _ _ E) as Hall.
    assert (Hincl : incl (map (candidate base) (seq 0 (S (List.length dir))))
                         (PyDict.keys dir)).
    { intros name Hin. apply in_map_iff in Hin as (j & <- & Hj).
      apply in_seq in Hj. apply exists_true_in_keys. apply Hall. lia. }
    assert (Hnodup : NoDup (map (candidate base) (seq 0 (S (List.length dir))))).
    { apply Injective_map_NoDup; [|apply seq_NoDup].
      intros j k. apply candidate_inj. }
    apply NoDup_incl_length in Hincl; [|exact Hnodup].
    rewrite length_map, length_seq, length_keys in Hincl. lia.
Qed.

Lemma write_text_fresh (dir : list (string * node)) (name content : string) :
  exists_ dir name = Ok false ->
  write_text dir name content = Ok (PyDict.set name (TextFile content) dir).
Proof.
  intro H. destruct (exists_false_fits _ _ H) as [Hfit Hget].
  unfold write_text. rewrite Hfit, Hget. reflexivity.
Qed.

(** What [upsert] does when it names the file itself. *)
Lemma upsert_new_cases (self : repository) (title_ body_ : string) :
  is_empty (strip title_) = false ->
  (exists p,
     exists_ (skills_dir self) p = Ok false
     /\ upsert self title_ body_ None
        = Some (Ok ({| id := stem p; title := strip title_;
                       body := strip (strip_chars nl body_); path := p |},
                    {| skills_dir :=
                         PyDict.set p
                           (TextFile (_compose_file (strip title_) (strip_chars nl body_)))
                           (skills_dir self);
                       _skills :=
                         PyDict.set (stem p)
                           {| id := stem p; title := strip title_;
                              body := strip (strip_chars nl body_); path := p |}
                           (_skills self) |})))
  \/ (upsert self title_ body_ None = Some (Raise OSError)
      /\ roomy (skills_dir self) (_slugify (strip title_)) = false).
Proof.
  intro Ht. unfold upsert. rewrite Ht.
  destruct (unique_path_total (skills_dir self) (_slugify (strip title_)))
    as ([p|e] & -> & H); cbn [option_map bind].
  - left. exists p. split; [exact H|].
    rewrite (write_text_fresh _ _ _ H). reflexivity.
  - right. destruct H as [-> Hroom]. split; [reflexivity|exact Hroom].
Qed.

End RepositoryFacts.

(** ** Claims on the skill store and the skill injector *)

Module SkillClaims.
Import PyStr PyVal PyStrFacts PyDictFacts Repository SkillManager Spec RepositoryFacts.




(** [refresh] reads the directory only: the cache it starts from plays no
    part. *)
Lemma refresh_reads_directory (self other : repository) :
  skills_dir other = skills_dir self ->
  refresh other = match refresh self with
                  | Ok self1 => Ok self1
                  | Raise e => Raise e
                  end.
Proof.
  unfold refresh. intros ->.
  destruct (load_all (skills_dir self) (sorted (glob_md (skills_dir self))) []);
    reflexivity.
Qed.

(** C9.  With the directory unchanged, a second [refresh] yields the
    catalog of the first: the same skills (ids, titles, bodies) and the same
    listing of titles; a [refresh] that raises leaves the catalog as it
    was, the first time and the second. *)
Theorem refresh_idempotent (self : repository) :
  (self1 <- refresh self ;; refresh self1) = refresh self
  /\ (forall self1 self2,
        refresh self = Ok self1 -> refresh self1 = Ok self2 ->
        _skills self2 = _skills self1 /\ list_titles self2 = list_titles self1).
Proof.
  assert (H : forall self1, refresh self = Ok self1 -> refresh self1 = Ok self1).
  { intros self1 H1.
    rewrite (refresh_reads_directory self self1), H1; [reflexivity|].
    unfold refresh in H1.
    destruct (load_all (skills_dir self) (sorted (glob_md (skills_dir self))) []);
      simpl in H1; [|discriminate].
    injection H1 as <-. reflexivity. }
  split.
  - destruct (refresh self) as [self1|e] eqn:E; simpl; [apply H; reflexivity|reflexivity].
  - intros self1 self2 H1 H2. rewrite (H self1 H1) in H2. injection H2 as <-. auto.
Qed.

(** C9, tried on the sample directory: the first [refresh] finds the one
    skill, the second changes nothing. *)
Lemma refresh_idempotent_witness :
  refresh {| skills_dir := Sample.directory; _skills := [] |} = Ok Sample.repo
  /\ refresh Sample.repo = Ok Sample.repo
  /\ list_titles Sample.repo
     = [{| summary_id := "open-mail"; summary_title := "Open Mail" |}].
Proof.
  assert (H1 : refresh {| skills_dir := Sample.directory; _skills := [] |} = Ok Sample.repo)
    by (vm_compute; reflexivity).
  split; [exact H1|]. split; [|reflexivity].
  pose proof (proj1 (refresh_idempotent {| skills_dir := Sample.directory; _skills := [] |}))
    as H.
  rewrite H1 in H. exact H.
Defined.

Lemma find_none_existsb (A : Type) (p : A -> bool) (l : list A) :
  existsb p l = false -> find p l = None.
Proof.
  induction l as [|a l IH]; simpl; [reflexivity|].
  destruct (p a); simpl; [discriminate|exact IH].
Qed.

(** Resolving a reference raises nothing, whatever the store holds. *)
Lemma build_skill_reply_total (self : manager) (reference : string) :
  exists text found, build_skill_reply self reference = Ok (text, found).
Proof.
  unfold build_skill_reply, lookup.
  destruct (_repo self) as [repo|]; [|simpl; eauto].
  destruct (is_empty (strip reference)); [simpl; eauto|].
  unfold get. destruct (PyDict.get (strip reference) (_skills repo)); simpl; [eauto|].
  destruct (get_by_title repo (strip reference)); simpl; eauto.
Qed.

Lemma answer_requests_total (self : manager) (skill_refs : list string) :
  forall history outputs,
    exists answered, Agent.answer_requests self skill_refs history outputs = Ok answered.
Proof.
  induction skill_refs as [|ref rest IH]; intros history outputs; simpl; [eauto|].
  destruct (build_skill_reply_total self ref) as (text & found & ->). simpl. apply IH.
Qed.

(** With a provider that answers, the loop of [_chat_with_skills] returns:
    no request for a skill can make it fail. *)
Lemma chat_loop_total (call_llm : list Agent.message -> result string) :
  (forall sent, exists reply, call_llm sent = Ok reply) ->
  forall turns_left self, exists out, Agent.chat_loop call_llm turns_left self = Ok out.
Proof.
  intro Hllm.
  assert (Hstep : forall n self,
    (forall self', exists out, Agent.chat_loop call_llm n self' = Ok out) ->
    exists out, Agent.chat_loop call_llm (S n) self = Ok out).
  { intros n self IH. cbn [Agent.chat_loop].
    destruct (Hllm (Agent._prepare_messages_for_send self)) as (reply & ->).
    unfold bind at 1.
    destruct (extract_requests reply) as [|ref refs]; [eexists; reflexivity|].
    destruct (answer_requests_total (Agent.skill_manager self) (ref :: refs)
                (Agent.messages self ++ [Agent.text_message "assistant" reply])%list [])
      as ([h o] & ->).
    unfold bind. destruct n; [eexists; reflexivity|]. apply IH. }
  induction turns_left as [|n IH]; intro self; [|apply Hstep, IH].
  cbn [Agent.chat_loop].
  destruct (Hllm (Agent._prepare_messages_for_send self)) as (reply & ->).
  unfold bind at 1.
  destruct (extract_requests reply) as [|ref refs]; [eexists; reflexivity|].
  destruct (answer_requests_total (Agent.skill_manager self) (ref :: refs)
              (Agent.messages self ++ [Agent.text_message "assistant" reply])%list [])
    as ([h o] & ->).
  unfold bind. eexists; reflexivity.
Qed.

(** C7.  For every reference that resolves neither by id nor by a title
    matching without regard to letter case, [build_skill_reply] returns the
    notice that the skill is not available, with the flag [False], and
    raises nothing; the loop of [_chat_with_skills] answers the request
    with that notice in a user message and goes on: with a provider that
    answers it returns, whatever skills are missing. *)
Theorem missing_skill_notice (self : manager) (reference : string) :
  unresolved self reference = true ->
  build_skill_reply self reference
  = Ok ("Skill " ++ dq ++ reference ++ dq
        ++ " is not available. Continue the task without it.", false)
  /\ (forall history outputs,
        Agent.answer_requests self [reference] history outputs
        = Ok ((history
               ++ [Agent.text_message "user"
                     ("Skill " ++ dq ++ reference ++ dq
                      ++ " is not available. Continue the task without it.")])%list,
              (outputs
               ++ [{| Agent.output_title := reference;
                      Agent.output_body :=
                        "Skill " ++ dq ++ reference ++ dq
                        ++ " is not available. Continue the task without it.";
                      Agent.output_available := false |}])%list))
  /\ (forall call_llm agent,
        Agent.skill_manager agent = self ->
        (forall sent, exists reply, call_llm sent = Ok reply) ->
        exists out, Agent._chat_with_skills call_llm agent = Ok out).
Proof.
  intro Hun.
  assert (Hreply : build_skill_reply self reference = Ok (not_available reference, false)).
  { revert Hun. unfold unresolved, build_skill_reply, lookup.
    destruct (_repo self) as [repo|]; [|reflexivity].
    intro H. apply andb_prop in H as [Hid Htitle].
    apply negb_true_iff in Hid, Htitle.
    destruct (is_empty (strip reference)); [reflexivity|].
    unfold resolves_by_id, PyDict.mem in Hid. unfold get.
    destruct (PyDict.get (strip reference) (_skills repo)); [discriminate|].
    simpl. unfold get_by_title, resolves_by_title in *.
    rewrite strip_idempotent. rewrite (find_none_existsb _ _ Htitle). reflexivity. }
  split; [exact Hreply|]. split.
  - intros history outputs. simpl. rewrite Hreply. reflexivity.
  - intros call_llm agent _ Hllm. apply chat_loop_total, Hllm.
Qed.

(** C7, tried on the sample repository and the reference [foo]. *)
Lemma missing_skill_notice_witness :
  unresolved Sample.skill_manager "foo" = true
  /\ build_skill_reply Sample.skill_manager "foo"
     = Ok ("Skill " ++ dq ++ "foo" ++ dq
           ++ " is not available. Continue the task without it.", false)
  /\ extract_requests "I need <skill>foo</skill> first." = ["foo"].
Proof.
  split; [reflexivity|]. split; [|reflexivity].
  apply (missing_skill_notice Sample.skill_manager "foo"). reflexivity.
Defined.

End SkillClaims.

(** ** The run lifecycle manager *)

Module ServiceFacts.
Import PyStr PyDictFacts Service Spec.

Lemma active_runs_count (self : service) :
  List.length (active_runs self) = count active (_runs self).
Proof. reflexivity. Qed.

Lemma active_run_none (self : service) :
  _active_run self = None -> count active (_runs self) = 0.
Proof. apply find_none_count. Qed.

Lemma active_run_some (self : service) (run : GuiAgentRun) :
  _active_run self = Some run -> is_active (status run) = true.
Proof. unfold _active_run. intro H. apply find_some in H. apply H. Qed.

(** [start_run] keeps the number of active runs at one at most. *)
Lemma start_run_count (self : service) sid ins uuid now :
  count active (_runs self) <= 1 ->
  count active (_runs (snd (start_run self sid ins uuid now))) <= 1.
Proof.
  intro H. unfold start_run.
  destruct (is_empty (strip ins)); [exact H|].
  destruct (_active_run self) as [run|] eqn:E.
  - rewrite (active_run_some self E). exact H.
  - simpl. apply active_run_none in E.
    eapply Nat.le_trans; [apply count_set_new|]. rewrite E. simpl. lia.
Qed.

(** A run rewritten so that it is active only if it was does not add an
    active run. *)
Lemma update_count (self : service) (rid : string) (old new : GuiAgentRun) :
  PyDict.get rid (_runs self) = Some old ->
  (is_active (status new) = true -> is_active (status old) = true) ->
  count active (PyDict.set rid new (_runs self)) <= count active (_runs self).
Proof. intros Hget Himp. eapply count_set_update; eauto. Qed.

Lemma cancel_run_count (self : service) (rid : string) :
  count active (_runs (snd (cancel_run self rid))) <= count active (_runs self).
Proof.
  unfold cancel_run.
  destruct (PyDict.get rid (_runs self)) as [run|] eqn:E; [|simpl; lia].
  destruct (is_terminal (status run)); [simpl; lia|].
  simpl. eapply update_count; [exact E|]. simpl. discriminate.
Qed.

Lemma completion_not_active (how : completion) :
  is_active (completion_status how) = false.
Proof. destruct how; reflexivity. Qed.

Lemma handle_event_count (self : service) (rid tid : string) (e : emitted) :
  count active (_runs (_handle_event self rid (event_of tid e)))
  <= count active (_runs self).
Proof.
  unfold _handle_event.
  destruct (PyDict.get rid (_runs self)) as [run|] eqn:E; [|lia].
  simpl. eapply update_count; [exact E|].
  destruct e; simpl; try (intro H; exact H); try discriminate.
  rewrite completion_not_active. discriminate.
Qed.

Lemma finalize_count (self : service) (rid : string) (now : Z) :
  count active (_runs (_finalize_run self rid now)) <= count active (_runs self).
Proof.
  unfold _finalize_run.
  destruct (PyDict.get rid (_runs self)) as [run|] eqn:E; [|lia].
  simpl. eapply update_count; [exact E|]. simpl.
  destruct (is_terminal (status run)); [auto|discriminate].
Qed.

Lemma update_run_count (self : service) (rid : string) (f : GuiAgentRun -> GuiAgentRun) :
  (forall run, status (f run) = status run) ->
  count active (_runs (update_run self rid f)) <= count active (_runs self).
Proof.
  intro Hf. unfold update_run.
  destruct (PyDict.get rid (_runs self)) as [run|] eqn:E; [|lia].
  simpl. eapply update_count; [exact E|]. rewrite Hf. auto.
Qed.

Lemma finish_execute_count (self : service) (rid : string) (o : outcome) (now : Z) :
  count active (_runs (finish_execute self rid o now)) <= count active (_runs self).
Proof.
  unfold finish_execute.
  eapply Nat.le_trans; [apply finalize_count|].
  destruct o; [apply update_run_count; reflexivity
              |apply update_run_count; reflexivity|lia].
Qed.

Lemma expire_count (self : service) (rid : string) :
  count active (_runs (expire self rid)) <= count active (_runs self).
Proof.
  unfold expire. destruct (existsb (String.eqb rid) (scheduled self)); [|lia].
  simpl. apply count_pop.
Qed.

(** Every step of the service keeps at most one run active. *)
Lemma step_count (self : service) (c : call) :
  count active (_runs self) <= 1 -> count active (_runs (step self c)) <= 1.
Proof.
  intro H. destruct c; simpl.
  - now apply start_run_count.
  - eapply Nat.le_trans; [apply cancel_run_count|exact H].
  - eapply Nat.le_trans; [apply handle_event_count|exact H].
  - eapply Nat.le_trans; [apply finish_execute_count|exact H].
  - eapply Nat.le_trans; [apply expire_count|exact H].
Qed.

Lemma run_calls_count (calls : list call) :
  forall self,
    count active (_runs self) <= 1 ->
    count active (_runs (run_calls self calls)) <= 1.
Proof.
  induction calls as [|c calls IH]; intros self H; [exact H|].
  simpl. apply IH. now apply step_count.
Qed.

End ServiceFacts.

(** ** Claims on the run lifecycle manager *)

Module ServiceClaims.
Import PyStr PyDictFacts Service Spec ServiceFacts.

(** C3, as amended.  After any sequence of calls on a new service at most
    one run has its status in [pending], [running].  While such a run
    exists [start_run] fails and changes nothing: the run table, every run
    in it and the rest of the service stay as they were.  The failure is
    the conflict error when the instruction is not blank; a blank
    instruction is refused as such before the table is looked at. *)
Theorem single_active_run :
  (forall history_limit retention_seconds calls,
     List.length (active_runs (run_calls (new_service history_limit retention_seconds) calls))
     <= 1)
  /\ (forall self session_id_ instruction_ uuid now active_,
        _active_run self = Some active_ ->
        snd (start_run self session_id_ instruction_ uuid now) = self
        /\ (is_empty (strip instruction_) = false ->
            fst (start_run self session_id_ instruction_ uuid now)
            = Raise (RuntimeError "Another GUI agent task is already running"))
        /\ (is_empty (strip instruction_) = true ->
            fst (start_run self session_id_ instruction_ uuid now)
            = Raise (ValueError "Instruction is required"))).
Proof.
  split.
  - intros hl rs calls. rewrite active_runs_count.
    apply run_calls_count. simpl. unfold count. simpl. lia.
  - intros self sid ins uuid now run Hrun.
    unfold start_run. rewrite Hrun, (active_run_some self Hrun).
    destruct (is_empty (strip ins)); simpl;
      (split; [reflexivity|split; intro H; try discriminate; reflexivity]).
Qed.

(** C3, tried on the sample service: one run is active, a second start is
    refused with the conflict error and the service is unchanged. *)
Lemma single_active_run_witness :
  List.length (active_runs Sample.ended_service) <= 1
  /\ _active_run Sample.running_service <> None
  /\ start_run Sample.running_service "session-2" "close the window" "run-2" 1001
     = (Raise (RuntimeError "Another GUI agent task is already running"),
        Sample.running_service).
Proof.
  destruct single_active_run as [Hinv Hstart].
  split; [|split].
  - exact (Hinv 200%Z 300%Z
             (StartRun "session-1" "open the mail app" "run-1" 1000
              :: [CancelRun "run-1";
                  Emit "run-1" "prompt_1" (EComplete Cancelled "cancelled" "out");
                  FinishExecute "run-1" (Returned (Some "prompt_1") (Some "out")) 1010])).
  - discriminate.
  - destruct (Hstart Sample.running_service "session-2" "close the window" "run-2" 1001%Z
                _ eq_refl) as (Hsnd & Hfst & _).
    rewrite (surjective_pairing (start_run _ _ _ _ _)), Hsnd, (Hfst eq_refl). reflexivity.
Defined.

(** C3 as stated fails.  With a run in progress, [start_run] called with
    an instruction of blanks fails with the error for a missing
    instruction, not with the conflict error. *)
Lemma single_active_run_counterexample :
  option_map status (_active_run Sample.running_service) = Some "running"
  /\ start_run Sample.running_service "session-2" "   " "run-2" 1001
     = (Raise (ValueError "Instruction is required"), Sample.running_service).
Proof. split; vm_compute; reflexivity. Qed.

(** The invariant rests on what the runner emits.  [_handle_event] copies
    the status of any [complete] event: the status [pending], which
    [run_single_example] emits only for a task with an
    [enhanced_task_id] (and [run_prompt] builds none), would make a
    cancelled run active again beside the run started after it. *)
Example pending_completion_reactivates :
  List.length
    (active_runs
       (_handle_event
          (run_calls Sample.running_service
             [CancelRun "run-1";
              StartRun "session-2" "close the window" "run-2" 1001])
          "run-1"
          {| ev_type := Some "complete"; ev_status := Some "pending";
             ev_message := None; ev_run_id := None; ev_task_id := None;
             ev_result_dir := None; ev_internal := None; ev_rest := [] |}))
  = 2.
Proof. reflexivity. Qed.


(** C4.  [cancel_run] returns [False] and leaves the service, its queues
    included, as it was when the id is unknown or the run is completed, in
    error or cancelled.  Otherwise it returns [True], and afterwards the
    run has the status [cancelled], its cancellation flag set, and the
    cancellation status event at the end of its queue; nothing else of the
    run and no other run has changed. *)
Theorem cancel_run_spec (self : service) (run_id_ : string) :
  match PyDict.get run_id_ (_runs self) with
  | None => cancel_run self run_id_ = (false, self)
  | Some run =>
      if is_terminal (status run)
      then cancel_run self run_id_ = (false, self)
      else
        fst (cancel_run self run_id_) = true
        /\ PyDict.get run_id_ (_runs (snd (cancel_run self run_id_)))
           = Some {| run_id := run_id run; session_id := session_id run;
                     instruction := instruction run;
                     queue := (queue run
                               ++ [{| ev_type := Some "status";
                                      ev_status := Some "cancelled";
                                      ev_message := ev_message (cancel_status_event run_id_);
                                      ev_run_id := Some run_id_;
                                      ev_task_id := None; ev_result_dir := None;
                                      ev_internal := None; ev_rest := [] |}])%list;
                     status := "cancelled"; history := history run; task := task run;
                     task_id := task_id run; result_dir := result_dir run;
                     created_at := created_at run; completed_at := completed_at run;
                     cancel_event := true |}
        /\ (forall other, other <> run_id_ ->
              PyDict.get other (_runs (snd (cancel_run self run_id_)))
              = PyDict.get other (_runs self))
  end.
Proof.
  unfold cancel_run.
  destruct (PyDict.get run_id_ (_runs self)) as [run|] eqn:E; [|reflexivity].
  destruct (is_terminal (status run)); [reflexivity|].
  simpl. split; [reflexivity|]. split.
  - apply get_set_same.
  - intros other Hne. now apply get_set_other.
Qed.

(** C4, tried on the sample service: cancelling the run in progress, then
    cancelling it again, then an unknown id. *)
Lemma cancel_run_spec_witness :
  fst (cancel_run Sample.running_service "run-1") = true
  /\ option_map status
       (PyDict.get "run-1" (_runs (snd (cancel_run Sample.running_service "run-1"))))
     = Some "cancelled"
  /\ cancel_run (snd (cancel_run Sample.running_service "run-1")) "run-1"
     = (false, snd (cancel_run Sample.running_service "run-1"))
  /\ cancel_run Sample.running_service "run-9" = (false, Sample.running_service).
Proof.
  pose proof (cancel_run_spec Sample.running_service "run-1") as H1.
  pose proof (cancel_run_spec (snd (cancel_run Sample.running_service "run-1")) "run-1") as H2.
  pose proof (cancel_run_spec Sample.running_service "run-9") as H3.
  split; [exact (proj1 H1)|]. split; [|split].
  - destruct H1 as (_ & Hget & _). rewrite Hget. reflexivity.
  - exact H2.
  - exact H3.
Defined.

End ServiceClaims.

(** ** Further properties of the response compiler *)

Module ParserExtras.
Import PyStr PyVal ResponseParser Notions PyStrFacts.

Section Compiled.
Variable json_loads : string -> result json.
Variable py_repr : json -> string.
Variable ct : string.
Variables ow oh pw ph : option Z.

Lemma with_coordinate_form (args : list (string * json))
    (at_point : Z -> Z -> string) (otherwise cmd : string) :
  (forall x y, command_form (at_point x y) = true) ->
  command_form otherwise = true ->
  with_coordinate ct ow oh pw ph args at_point otherwise = Ok cmd ->
  command_form cmd = true.
Proof.
  intros Hat Hother. unfold with_coordinate.
  destruct (PyDict.get "coordinate" args) as [c|]; [|intros [= <-]; exact Hother].
  destruct (unpack2 c) as [[x y]|]; [|discriminate]. unfold bind at 1.
  destruct (adjust_coordinates ct ow oh pw ph x y) as [[ax ay]|]; [|discriminate].
  intros [= <-]. apply Hat.
Qed.

Lemma command_of_form (action : string) (args : list (string * json)) (cmd : string) :
  command_of py_repr ct ow oh pw ph action args = Ok (Some cmd) ->
  command_form cmd = true.
Proof.
  unfold command_of.
  repeat match goal with
         | |- context [if String.eqb action ?name then _ else _] =>
             destruct (String.eqb action name)
         end;
    try match goal with
        | |- context [with_coordinate ct ow oh pw ph args ?f ?o] =>
            destruct (with_coordinate ct ow oh pw ph args f o) as [c|] eqn:E;
              [|discriminate];
              intros [= <-];
              apply (with_coordinate_form args f o); [ | | exact E];
              [intros x y; reflexivity | reflexivity]
        end;
    try (intros [= <-]; reflexivity);
    try discriminate.
  unfold key_command.
  match goal with |- context [iterate ?v] => destruct (iterate v) as [items|] end;
    [|discriminate].
  unfold bind. destruct (1 <? List.length items)%nat; intros [= <-]; reflexivity.
Qed.

Lemma process_tool_call_form (text : string) (code code' : list string) :
  Forall (fun cmd => command_form cmd = true) code ->
  process_tool_call json_loads py_repr ct ow oh pw ph text code = Ok code' ->
  Forall (fun cmd => command_form cmd = true) code'.
Proof.
  intros Hcode H.
  destruct (ParserFacts.process_tool_call_inv _ _ _ _ _ _ _ _ _ H)
    as [->|(tool_call & args & cmd & _ & _ & E & ->)]; [exact Hcode|].
  apply Forall_app. split; [exact Hcode|].
  constructor; [|constructor]. exact (command_of_form _ _ E).
Qed.

Lemma scan_line_form (raw : string) (st st' : scan_state) :
  Forall (fun cmd => command_form cmd = true) (pyautogui_code st) ->
  scan_line json_loads py_repr ct ow oh pw ph raw st = Ok st' ->
  Forall (fun cmd => command_form cmd = true) (pyautogui_code st').
Proof.
  intros Hcode. unfold scan_line.
  destruct (is_empty (strip raw)); [intros [= <-]; exact Hcode|].
  destruct (startswith (lower (strip raw)) "action:").
  { unfold action_line.
    destruct (is_empty (low_level_instruction st)); [|intros [= <-]; exact Hcode].
    destruct (split_once "Action:" (strip raw)) as [[before after]|]; [|discriminate].
    destruct (is_empty (cut_markers (strip after))); intros [= <-]; exact Hcode. }
  destruct (startswith (strip raw) "<tool_call>"); [intros [= <-]; exact Hcode|].
  destruct (startswith (strip raw) "</tool_call>").
  { destruct (current_tool_call st) as [|l block].
    - simpl. intros [= <-]. exact Hcode.
    - destruct (process_tool_call json_loads py_repr ct ow oh pw ph
                  (join nl (l :: block)) (pyautogui_code st)) as [code|] eqn:E;
        [|discriminate].
      unfold bind. intros [= <-]. simpl. exact (process_tool_call_form _ Hcode E). }
  destruct (inside_tool_call st); [intros [= <-]; exact Hcode|].
  destruct (startswith (strip raw) "{" && endswith (strip raw) "}");
    [|intros [= <-]; exact Hcode].
  intro H. destruct (ParserFacts.bare_line_inv _ _ _ _ _ _ _ _ _ H)
    as [->|(code & E & ->)]; [exact Hcode|].
  simpl. exact (process_tool_call_form _ Hcode E).
Qed.

Lemma scan_lines_form (lines : list string) :
  forall st st',
    Forall (fun cmd => command_form cmd = true) (pyautogui_code st) ->
    scan_lines json_loads py_repr ct ow oh pw ph lines st = Ok st' ->
    Forall (fun cmd => command_form cmd = true) (pyautogui_code st').
Proof.
  induction lines as [|raw rest IH]; intros st st' Hcode; simpl.
  - intros [= <-]. exact Hcode.
  - destruct (scan_line json_loads py_repr ct ow oh pw ph raw st) as [st1|] eqn:E;
      [|discriminate].
    unfold bind. apply IH. exact (scan_line_form _ _ Hcode E).
Qed.

(** What [parse_response] returns, taken apart: the state after the scan
    and the commands after the last block. *)
Lemma parse_response_inv (response summary : string) (code : list string) :
  parse_response json_loads py_repr ct ow oh pw ph (Some response) = Ok (summary, code) ->
  is_empty (strip response) = true /\ summary = EmptyString /\ code = []
  \/ exists st,
       scan_lines json_loads py_repr ct ow oh pw ph (response_lines response)
         {| low_level_instruction := initial_instruction response;
            pyautogui_code := []; inside_tool_call := false;
            current_tool_call := [] |} = Ok st
       /\ match current_tool_call st with
          | [] => Ok (pyautogui_code st)
          | block => process_tool_call json_loads py_repr ct ow oh pw ph
                       (join nl block) (pyautogui_code st)
          end = Ok code
       /\ summary = match code with
                    | first_cmd :: _ =>
                        if is_empty (low_level_instruction st)
                        then fallback_instruction first_cmd
                        else low_level_instruction st
                    | [] => low_level_instruction st
                    end.
Proof.
  unfold parse_response.
  destruct (is_empty (strip response)); [intros [= <- <-]; left; auto|].
  destruct (scan_lines _ _ _ _ _ _ _ _ _) as [st|] eqn:Escan; [|discriminate].
  unfold bind at 1.
  match goal with
  | |- context [bind ?c _] => destruct c as [code'|] eqn:Ecode; [|discriminate]
  end.
  unfold bind. intro H. right. exists st. split; [reflexivity|].
  destruct code' as [|first_cmd more].
  - injection H as <- <-. split; [exact Ecode|reflexivity].
  - destruct (is_empty (low_level_instruction st)) eqn:Elow;
      injection H as <- <-; (split; [exact Ecode|]); rewrite ?Elow; reflexivity.
Qed.

End Compiled.

(** X1.  Whenever [parse_response] compiles at least one command, the
    summary it returns with them is not empty: it is the text of an
    [Action:] line or the sentence made up from the first command. *)
Theorem commands_come_with_summary json_loads py_repr ct ow oh pw ph
    (response : option string) (summary : string) (code : list string) :
  parse_response json_loads py_repr ct ow oh pw ph response = Ok (summary, code) ->
  code <> [] ->
  summary <> EmptyString.
Proof.
  destruct response as [response|]; [|intros [= <- <-] H; contradiction].
  intros H Hcode.
  destruct (parse_response_inv _ _ _ _ _ _ _ _ H) as [(_ & _ & ->)|(st & _ & _ & ->)];
    [contradiction|].
  destruct code as [|first_cmd more]; [contradiction|].
  destruct (is_empty (low_level_instruction st)) eqn:E.
  - discriminate.
  - apply is_empty_false. exact E.
Qed.

(** X1, tried on an output that is the tool call of [wait] alone. *)
Lemma commands_come_with_summary_witness :
  parse_response Cases.loads_wait Sample.repr "relative" (Some 1920%Z) (Some 1080%Z)
    None None (Some Cases.wait_only) = Ok ("Performing WAIT action", ["WAIT"])
  /\ "Performing WAIT action" <> EmptyString.
Proof.
  assert (E : parse_response Cases.loads_wait Sample.repr "relative" (Some 1920%Z)
                (Some 1080%Z) None None (Some Cases.wait_only)
              = Ok ("Performing WAIT action", ["WAIT"])) by (vm_compute; reflexivity).
  split; [exact E|].
  exact (commands_come_with_summary _ _ _ _ _ _ _ _ E ltac:(discriminate)).
Defined.

(** X2.  Every command [parse_response] compiles is [WAIT], [DONE], a
    call that starts with [pyautogui.] or the clipboard snippet of the
    [type] action; in particular the parser never emits [FAIL]. *)
Theorem compiled_commands_are_known json_loads py_repr ct ow oh pw ph
    (response : option string) (summary : string) (code : list string) :
  parse_response json_loads py_repr ct ow oh pw ph response = Ok (summary, code) ->
  Forall (fun cmd => command_form cmd = true) code /\ ~ In "FAIL" code.
Proof.
  intro H.
  assert (Hform : Forall (fun cmd => command_form cmd = true) code).
  { destruct response as [response|]; [|injection H as <- <-; constructor].
    destruct (parse_response_inv _ _ _ _ _ _ _ _ H) as [(_ & _ & ->)|(st & Hscan & Hlast & _)];
      [constructor|].
    assert (Hst : Forall (fun cmd => command_form cmd = true) (pyautogui_code st)).
    { eapply scan_lines_form; [|exact Hscan]. constructor. }
    destruct (current_tool_call st) as [|l block].
    - injection Hlast as <-. exact Hst.
    - eapply process_tool_call_form; [exact Hst|exact Hlast]. }
  split; [exact Hform|].
  intro Hin. rewrite Forall_forall in Hform. apply Hform in Hin. discriminate.
Qed.

(** X2, tried on the same output. *)
Lemma compiled_commands_are_known_witness :
  parse_response Cases.loads_wait Sample.repr "relative" (Some 1920%Z) (Some 1080%Z)
    None None (Some Cases.wait_only) = Ok ("Performing WAIT action", ["WAIT"])
  /\ Forall (fun cmd => command_form cmd = true) ["WAIT"].
Proof.
  assert (E : parse_response Cases.loads_wait Sample.repr "relative" (Some 1920%Z)
                (Some 1080%Z) None None (Some Cases.wait_only)
              = Ok ("Performing WAIT action", ["WAIT"])) by (vm_compute; reflexivity).
  split; [exact E|].
  exact (proj1 (compiled_commands_are_known _ _ _ _ _ _ _ _ E)).
Defined.

(** The text [json.dumps] writes for one character is passed over as a
    whole when the literal is read back. *)
Lemma after_literal_char (c : ascii) (rest : string) :
  after_literal (dumps_char c ++ rest) = after_literal rest.
Proof.
  destruct c as [[|] [|] [|] [|] [|] [|] [|] [|]]; reflexivity.
Qed.

Lemma after_literal_body (text rest : string) :
  after_literal (dumps_body text ++ dq ++ rest) = Some rest.
Proof.
  induction text as [|c text IH]; simpl; [reflexivity|].
  rewrite LineFacts.append_assoc, after_literal_char. exact IH.
Qed.

Lemma printable_append (a b : string) :
  printable (a ++ b) = printable a && printable b.
Proof.
  unfold printable. induction a as [|x a IH]; cbn [all_chars append]; [reflexivity|].
  rewrite IH. apply andb_assoc.
Qed.

Lemma printable_char (c : ascii) : printable (dumps_char c) = true.
Proof.
  destruct c as [[|] [|] [|] [|] [|] [|] [|] [|]]; reflexivity.
Qed.

Lemma printable_body (text : string) : printable (dumps_body text) = true.
Proof.
  induction text as [|c text IH]; cbn [dumps_body]; [reflexivity|].
  rewrite printable_append, printable_char, IH. reflexivity.
Qed.

(** X3.  The command of a [type] action holds the text in one
    double-quoted literal that ends where [json.dumps] ended it, whatever
    the text: no quote or backslash of the text closes the literal early,
    and the command has no character below U+0020 (no raw line feed,
    carriage return or tab). *)
Theorem typed_text_stays_quoted py_repr ct ow oh pw ph (args : list (string * json)) :
  exists literal,
    command_of py_repr ct ow oh pw ph "type" args
    = Ok (Some ("import pyperclip; text_to_type = " ++ dq ++ literal))
    /\ after_literal literal
       = Some "; pyperclip.copy(text_to_type); pyautogui.hotkey('command', 'v')"
    /\ printable ("import pyperclip; text_to_type = " ++ dq ++ literal) = true.
Proof.
  set (text := py_str py_repr match PyDict.get "text" args with
                              | Some v => v
                              | None => JStr EmptyString
                              end).
  exists (dumps_body text ++ dq
          ++ "; pyperclip.copy(text_to_type); pyautogui.hotkey('command', 'v')").
  split; [|split].
  - unfold command_of. simpl. fold text. unfold json_dumps_str.
    rewrite !LineFacts.append_assoc. reflexivity.
  - apply after_literal_body.
  - rewrite !printable_append, printable_body. reflexivity.
Qed.

(** *** Surplus closing braces *)

Lemma closing_snoc (k : nat) : closing (S k) = closing k ++ "}".
Proof. induction k as [|k IH]; [reflexivity|]. simpl in *. rewrite <- IH. reflexivity. Qed.

Lemma count_char_append (c : ascii) (a b : string) :
  count_char c (a ++ b) = count_char c a + count_char c b.
Proof. induction a as [|x a IH]; simpl; [reflexivity|]. rewrite IH. lia. Qed.

Lemma count_closing (k : nat) : count_char "}" (closing k) = k.
Proof. induction k as [|k IH]; simpl; [reflexivity|]. rewrite IH. reflexivity. Qed.

Lemma string_length_app (a b : string) :
  String.length (a ++ b) = String.length a + String.length b.
Proof. induction a as [|x a IH]; simpl; [reflexivity|]. rewrite IH. reflexivity. Qed.

Lemma drop_app (a b : string) : drop (String.length a) (a ++ b) = b.
Proof. induction a as [|x a IH]; simpl; [destruct b; reflexivity|exact IH]. Qed.

Lemma take_app (a b : string) : take (String.length a) (a ++ b) = a.
Proof.
  induction a as [|x a IH]; simpl; [destruct b; reflexivity|]. rewrite IH. reflexivity.
Qed.

Lemma endswith_snoc (a : string) : endswith (a ++ "}") "}" = true.
Proof.
  unfold endswith. rewrite string_length_app. simpl.
  replace (String.length a + 1 - 1) with (String.length a) by lia.
  rewrite drop_app. simpl.
  destruct (String.length a + 1) eqn:E; [lia|reflexivity].
Qed.

Lemma take_snoc (a : string) : take (String.length (a ++ "}") - 1) (a ++ "}") = a.
Proof.
  rewrite string_length_app. simpl.
  replace (String.length a + 1 - 1) with (String.length a) by lia. apply take_app.
Qed.

Lemma rstrip_by_snoc (p : ascii -> bool) (a : string) (c : ascii) :
  p c = false -> rstrip_by p (a ++ String c EmptyString) = a ++ String c EmptyString.
Proof.
  intro Hc. induction a as [|x a IH]; simpl.
  - rewrite Hc. reflexivity.
  - rewrite IH. destruct (a ++ String c EmptyString) eqn:E; [|reflexivity].
    destruct a; discriminate.
Qed.

Lemma lstrip_by_fixed_app (p : ascii -> bool) (a b : string) :
  a <> EmptyString -> lstrip_by p a = a -> lstrip_by p (a ++ b) = a ++ b.
Proof.
  destruct a as [|x a]; [contradiction|]. intros _. simpl.
  destruct (p x) eqn:E; [|reflexivity].
  intro H. exfalso.
  assert (Hlen : String.length (lstrip_by p a) <= String.length a).
  { clear. induction a as [|y a IH]; simpl; [lia|]. destruct (p y); simpl; lia. }
  rewrite H in Hlen. simpl in Hlen. lia.
Qed.

Lemma strip_fixed_both (p : ascii -> bool) (s : string) :
  strip_by p s = s -> lstrip_by p s = s /\ rstrip_by p s = s.
Proof.
  unfold strip_by. intro H.
  assert (Hl : String.length (lstrip_by p s) <= String.length s).
  { clear. induction s as [|y a IH]; simpl; [lia|]. destruct (p y); simpl; lia. }
  assert (Hr : String.length (rstrip_by p (lstrip_by p s)) <= String.length (lstrip_by p s))
    by apply ParserFacts.length_rstrip.
  assert (El : lstrip_by p s = s).
  { destruct s as [|y a]; [reflexivity|]. simpl in *. destruct (p y) eqn:E; [|reflexivity].
    rewrite H in Hr. simpl in Hr.
    assert (String.length (lstrip_by p a) <= String.length a).
    { clear. induction a as [|z a IH]; simpl; [lia|]. destruct (p z); simpl; lia. }
    lia. }
  split; [exact El|]. rewrite El in H. exact H.
Qed.

Lemma strip_with_closing (text : string) (k : nat) :
  strip text = text -> strip (text ++ closing k) = text ++ closing k.
Proof.
  intro H. destruct k as [|k].
  - simpl. rewrite LineFacts.append_nil_r. exact H.
  - apply strip_fixed_both in H as [Hl Hr]. unfold strip, strip_by.
    assert (El : lstrip_by isspace (text ++ closing (S k)) = text ++ closing (S k)).
    { destruct text as [|x text]; [reflexivity|].
      apply lstrip_by_fixed_app; [discriminate|exact Hl]. }
    rewrite El, closing_snoc, <- LineFacts.append_assoc. apply rstrip_by_snoc. reflexivity.
Qed.

Lemma trim_closing_step (fuel opening : nat) (stripped : string) :
  trim_closing (S fuel) opening stripped
  = if (opening <? count_char "}" stripped)%nat && endswith stripped "}"
    then trim_closing fuel opening
           (rstrip (take (String.length stripped - 1) stripped))
    else stripped.
Proof. reflexivity. Qed.

Lemma trim_closing_braces (text : string) :
  rstrip text = text ->
  count_char "{" text = count_char "}" text ->
  forall k fuel,
    k <= fuel ->
    trim_closing fuel (count_char "{" text) (text ++ closing k) = text.
Proof.
  intros Hr Hcount. induction k as [|k IH]; intros fuel Hfuel.
  - cbn [closing]. rewrite LineFacts.append_nil_r.
    destruct fuel as [|fuel]; [reflexivity|]. rewrite trim_closing_step.
    rewrite Hcount, Nat.ltb_irrefl. reflexivity.
  - destruct fuel as [|fuel]; [lia|].
    rewrite closing_snoc, <- LineFacts.append_assoc, trim_closing_step.
    rewrite endswith_snoc, take_snoc.
    rewrite !count_char_append, count_closing, Hcount.
    replace (count_char "}" text <? count_char "}" text + k + count_char "}" "}")%nat
      with true by (symmetry; apply Nat.ltb_lt; simpl; lia).
    cbn [andb].
    replace (rstrip (text ++ closing k)) with (text ++ closing k).
    + rewrite <- Hcount. apply IH. lia.
    + destruct k as [|k].
      * cbn [closing]. rewrite LineFacts.append_nil_r. symmetry. exact Hr.
      * rewrite closing_snoc, <- LineFacts.append_assoc. symmetry.
        apply rstrip_by_snoc. reflexivity.
Qed.

(** X4.  [_coerce_json] forgives surplus closing braces: for a text
    without blanks around it whose braces balance, any number of closing
    braces added at its end is dropped again whenever the decoder rejects
    the longer text with [JSONDecodeError], and the text is decoded as it
    was: the value of [json.loads], [None] where it rejects the text too,
    and what else it raises is raised. *)
Theorem surplus_braces_are_dropped (json_loads : string -> result json)
    (text : string) (k : nat) :
  strip text = text ->
  count_char "{" text = count_char "}" text ->
  (0 < k -> json_loads (text ++ closing k) = Raise JSONDecodeError) ->
  _coerce_json json_loads (text ++ closing k)
  = match json_loads text with
    | Ok v => Ok (Some v)
    | Raise JSONDecodeError => Ok None
    | Raise e => Raise e
    end.
Proof.
  intros Hstrip Hcount Hreject. unfold _coerce_json.
  rewrite (strip_with_closing k Hstrip).
  assert (Hr : rstrip text = text) by exact (proj2 (@strip_fixed_both isspace text Hstrip)).
  assert (Hlen : k <= String.length (text ++ closing k)).
  { rewrite string_length_app.
    assert (String.length (closing k) = k).
    { clear. induction k as [|n IH]; [reflexivity|]. simpl. rewrite IH. reflexivity. }
    lia. }
  assert (E0 : count_char "{" (text ++ closing k) = count_char "{" text).
  { rewrite count_char_append.
    assert (count_char "{" (closing k) = 0).
    { clear. induction k as [|n IH]; [reflexivity|]. simpl. exact IH. }
    lia. }
  rewrite E0, (trim_closing_braces Hr Hcount Hlen).
  destruct k as [|k].
  - cbn [closing]. rewrite LineFacts.append_nil_r.
    destruct (json_loads text) as [v|e]; [reflexivity|destruct e; reflexivity].
  - rewrite Hreject by lia. cbn [bind except_decode].
    destruct (json_loads text) as [v|e]; [reflexivity|destruct e; reflexivity].
Qed.

(** X4, tried on the tool call of [fly] followed by one brace too many. *)
Lemma surplus_braces_are_dropped_witness :
  strip (Sample.call_text "fly") = Sample.call_text "fly"
  /\ _coerce_json Sample.loads (Sample.call_text "fly" ++ "}")
     = Ok (Some (Sample.call_value "fly")).
Proof.
  split; [vm_compute; reflexivity|].
  apply (@surplus_braces_are_dropped Sample.loads (Sample.call_text "fly") 1);
    [vm_compute; reflexivity | vm_compute; reflexivity | intros _; vm_compute; reflexivity].
Defined.

Lemma contains_step (u : string) (c : ascii) (s : string) :
  contains u (String c s) = String.prefix u (String c s) || contains u s.
Proof. destruct u; reflexivity. Qed.

Lemma split_once_step (sep : string) (c : ascii) (s : string) :
  split_once sep (String c s)
  = if String.prefix sep (String c s)
    then Some (EmptyString, drop (String.length sep) (String c s))
    else match split_once sep s with
         | Some (a, b) => Some (String c a, b)
         | None => None
         end.
Proof. destruct sep; reflexivity. Qed.

Lemma split_once_some (sep : string) :
  forall s, contains sep s = true -> exists a b, split_once sep s = Some (a, b).
Proof.
  induction s as [|c s IH].
  - simpl. destruct sep; [eauto|discriminate].
  - rewrite contains_step, split_once_step.
    destruct (String.prefix sep (String c s)); [eauto|]. simpl. intro H.
    destruct (IH H) as (a & b & ->). eauto.
Qed.

(** The text before the first occurrence of a separator holds no
    occurrence of it. *)
Lemma split_once_before (c0 : ascii) (sep' : string) :
  let sep := String c0 sep' in
  forall s a b,
    split_once sep s = Some (a, b) ->
    contains sep a = false /\ s = a ++ sep ++ b.
Proof.
  intros sep. induction s as [|c s IH]; intros a b.
  - simpl. discriminate.
  - rewrite split_once_step.
    destruct (String.prefix sep (String c s)) eqn:E.
    + intros [= <- <-]. split; [reflexivity|].
      exact (@LineFacts.prefix_split sep (String c s) E).
    + destruct (split_once sep s) as [[a' b']|]; [|discriminate].
      intros [= <- <-]. destruct (IH a' b' eq_refl) as [Hno ->]. split; [|reflexivity].
      rewrite contains_step, Hno, orb_false_r.
      destruct (String.prefix sep (String c a')) eqn:P; [|reflexivity].
      rewrite <- E. symmetry.
      change (String c (a' ++ sep ++ b')) with (String c a' ++ sep ++ b').
      apply LineFacts.prefix_append. exact P.
Qed.

Lemma contains_split (u : string) :
  forall s, contains u s = true -> exists a b, s = a ++ u ++ b.
Proof.
  induction s as [|c s IH].
  - simpl. destruct u; [|discriminate]. intros _. exists EmptyString, EmptyString. reflexivity.
  - rewrite contains_step. intro H. apply orb_prop in H as [H|H].
    + exists EmptyString, (drop (String.length u) (String c s)).
      exact (@LineFacts.prefix_split u (String c s) H).
    + destruct (IH H) as (a & b & ->). exists (String c a), b. reflexivity.
Qed.

Lemma prefix_self_append (u b : string) : String.prefix u (u ++ b) = true.
Proof.
  induction u as [|c u IH]; simpl; [destruct b; reflexivity|].
  destruct (ascii_dec c c); [exact IH|contradiction].
Qed.

Lemma contains_within (u t s : string) :
  Spec.infix_of t s -> contains u t = true -> contains u s = true.
Proof.
  intros Hinf H. destruct (contains_split _ _ H) as (a & b & ->).
  apply (@LineFacts.contains_infix u (u ++ b) s); [apply prefix_self_append|].
  apply (@LineFacts.infix_trans (u ++ b) (a ++ u ++ b) s); [|exact Hinf].
  exists a, EmptyString. rewrite LineFacts.append_nil_r. reflexivity.
Qed.

Lemma contains_strip (u s : string) :
  contains u s = false -> contains u (strip s) = false.
Proof.
  intro H. destruct (contains u (strip s)) eqn:E; [|reflexivity].
  rewrite <- H. symmetry. apply (@contains_within u (strip s) s); [|exact E].
  apply LineFacts.strip_infix.
Qed.

Lemma contains_before (u a rest : string) :
  contains u (a ++ rest) = false -> contains u a = false.
Proof.
  intro H. destruct (contains u a) eqn:E; [|reflexivity].
  rewrite <- H. symmetry. apply (@contains_within u a (a ++ rest)); [|exact E].
  exists EmptyString, rest. reflexivity.
Qed.

Lemma cut_at_cuts (c0 : ascii) (marker' text : string) :
  contains (String c0 marker') (cut_at (String c0 marker') text) = false.
Proof.
  unfold cut_at. destruct (contains (String c0 marker') text) eqn:E; [|exact E].
  destruct (split_once_some _ _ E) as (a & b & Esplit). rewrite Esplit.
  apply contains_strip. exact (proj1 (split_once_before _ _ _ Esplit)).
Qed.

Lemma cut_at_keeps (u : string) (c0 : ascii) (marker' text : string) :
  contains u text = false -> contains u (cut_at (String c0 marker') text) = false.
Proof.
  intro H. unfold cut_at. destruct (contains (String c0 marker') text) eqn:E; [|exact H].
  destruct (split_once (String c0 marker') text) as [[a b]|] eqn:Esplit; [|exact H].
  apply contains_strip.
  destruct (split_once_before _ _ _ Esplit) as [_ Etext]. rewrite Etext in H.
  exact (contains_before _ _ _ H).
Qed.

Lemma cut_markers_unmarked (text : string) : unmarked (cut_markers text) = true.
Proof.
  unfold unmarked, cut_markers. rewrite cut_at_keeps, cut_at_cuts; [reflexivity|].
  apply cut_at_cuts.
Qed.

Section Summary.
Variable json_loads : string -> result json.
Variable py_repr : json -> string.
Variable ct : string.
Variables ow oh pw ph : option Z.

Lemma scan_line_unmarked (raw : string) (st st' : scan_state) :
  unmarked (low_level_instruction st) = true ->
  scan_line json_loads py_repr ct ow oh pw ph raw st = Ok st' ->
  unmarked (low_level_instruction st') = true.
Proof.
  intros Hlow. unfold scan_line.
  destruct (is_empty (strip raw)); [intros [= <-]; exact Hlow|].
  destruct (startswith (lower (strip raw)) "action:").
  { unfold action_line.
    destruct (is_empty (low_level_instruction st)); [|intros [= <-]; exact Hlow].
    destruct (split_once "Action:" (strip raw)) as [[before after]|]; [|discriminate].
    destruct (is_empty (cut_markers (strip after))); intros [= <-];
      [exact Hlow|apply cut_markers_unmarked]. }
  destruct (startswith (strip raw) "<tool_call>"); [intros [= <-]; exact Hlow|].
  destruct (startswith (strip raw) "</tool_call>").
  { match goal with
    | |- context [bind ?c _] => destruct c as [code|]; [|discriminate]
    end.
    unfold bind. intros [= <-]. exact Hlow. }
  destruct (inside_tool_call st); [intros [= <-]; exact Hlow|].
  destruct (startswith (strip raw) "{" && endswith (strip raw) "}");
    [|intros [= <-]; exact Hlow].
  intro H. destruct (ParserFacts.bare_line_inv _ _ _ _ _ _ _ _ _ H)
    as [->|(code & _ & ->)]; exact Hlow.
Qed.

Lemma scan_lines_unmarked (lines : list string) :
  forall st st',
    unmarked (low_level_instruction st) = true ->
    scan_lines json_loads py_repr ct ow oh pw ph lines st = Ok st' ->
    unmarked (low_level_instruction st') = true.
Proof.
  induction lines as [|raw rest IH]; intros st st' Hlow; simpl.
  - intros [= <-]. exact Hlow.
  - destruct (scan_line json_loads py_repr ct ow oh pw ph raw st) as [st1|] eqn:E;
      [|discriminate].
    unfold bind. apply IH. exact (scan_line_unmarked _ _ Hlow E).
Qed.

End Summary.

(** X5.  A summary that [parse_response] takes from an [Action:] line is
    cut before the first [<tool_call] or [<skill]: the summary returned
    holds neither marker, unless it is the sentence made up from the
    first command because no [Action:] line gave one. *)
Theorem summary_is_cut_at_markers json_loads py_repr ct ow oh pw ph
    (response : option string) (summary : string) (code : list string) :
  parse_response json_loads py_repr ct ow oh pw ph response = Ok (summary, code) ->
  unmarked summary = true
  \/ exists first_cmd rest,
       code = first_cmd :: rest /\ summary = fallback_instruction first_cmd.
Proof.
  destruct response as [response|]; [|intros [= <- <-]; left; reflexivity].
  intro H.
  destruct (parse_response_inv _ _ _ _ _ _ _ _ H)
    as [(_ & -> & _)|(st & Hscan & _ & ->)]; [left; reflexivity|].
  assert (Hst : unmarked (low_level_instruction st) = true).
  { eapply scan_lines_unmarked; [|exact Hscan]. simpl.
    unfold initial_instruction.
    destruct (search_action response); [apply cut_markers_unmarked|reflexivity]. }
  destruct code as [|first_cmd rest]; [left; exact Hst|].
  destruct (is_empty (low_level_instruction st)); [right; eauto|left; exact Hst].
Qed.

(** X5, tried on an output whose [Action:] line runs into a tool call. *)
Lemma summary_is_cut_at_markers_witness :
  parse_response Sample.loads Sample.repr "relative" (Some 1920%Z) (Some 1080%Z)
    None None (Some Cases.summary_then_call) = Ok ("Fly away", [])
  /\ (unmarked "Fly away" = true
      \/ exists first_cmd rest,
           @nil string = first_cmd :: rest /\ "Fly away" = fallback_instruction first_cmd).
Proof.
  assert (E : parse_response Sample.loads Sample.repr "relative" (Some 1920%Z)
                (Some 1080%Z) None None (Some Cases.summary_then_call)
              = Ok ("Fly away", [])) by (vm_compute; reflexivity).
  split; [exact E|].
  exact (summary_is_cut_at_markers _ _ _ _ _ _ _ _ E).
Defined.

End ParserExtras.

(** ** Further properties of the conversation engine *)

Module ConversationExtras.
Import PyStr PyVal Repository SkillManager Agent Qwen3VLAgent Notions PyStrFacts.

(** X6.  Every reference [extract_requests] returns is a non-empty text
    without blanks around it: empty [<skill></skill>] pairs are left out
    and the others are trimmed. *)
Theorem extracted_requests_are_trimmed (response : string) :
  Forall (fun ref => ref <> EmptyString /\ strip ref = ref) (extract_requests response).
Proof.
  unfold extract_requests. generalize 0 as skip.
  induction response as [|c s IH]; intro skip; [constructor|].
  cbn [requests_from]. destruct skip as [|k]; [|apply IH].
  destruct (String.prefix "<skill>" (lower (String c s))); [|apply IH].
  destruct (until_close (drop 7 (String c s))) as [[inner n]|]; [|apply IH].
  apply Forall_app. split; [|apply IH].
  destruct (is_empty (strip inner)) eqn:E; constructor; [|constructor].
  split; [apply is_empty_false; exact E|apply strip_idempotent].
Qed.

Lemma prefix_shorter (a b s : string) :
  String.prefix (a ++ b) s = true -> String.prefix a s = true.
Proof.
  revert s. induction a as [|x a IH]; intro s; [destruct s; reflexivity|].
  destruct s as [|y s]; [discriminate|]. simpl.
  destruct (ascii_dec x y); [apply IH|discriminate].
Qed.

Lemma contains_cons (u : string) (c : ascii) (s : string) :
  contains u (String c s) = false ->
  String.prefix u (String c s) = false /\ contains u s = false.
Proof.
  intro H. assert (E : contains u (String c s)
                       = String.prefix u (String c s) || contains u s)
    by (destruct u; reflexivity).
  rewrite E in H. apply orb_false_elim in H. exact H.
Qed.

Lemma requests_without_tag (s : string) :
  contains "<skill" (lower s) = false -> forall skip, requests_from skip s = [].
Proof.
  induction s as [|c s IH]; intros H skip; [reflexivity|].
  cbn [lower] in H. apply contains_cons in H as [Hp Hrest].
  cbn [requests_from]. destruct skip as [|k]; [|apply IH; exact Hrest].
  destruct (String.prefix "<skill>" (lower (String c s))) eqn:P;
    [|apply IH; exact Hrest].
  apply (@prefix_shorter "<skill" ">") in P. cbn [lower] in P. congruence.
Qed.

(** X7.  A reply of ASCII characters without the text [<skill], in any
    letter case, asks for no skill: [extract_requests] finds nothing in
    it, [_strip_skill_markers] returns it as it is, and
    [_chat_with_skills] ends after this one reply, which it appends to
    the history as the message of the assistant, with no skill output.
    (A reply with other characters is left out: there the pattern of
    [extract_requests] and the test of [_strip_skill_markers] need not
    agree.) *)
Theorem reply_without_skill_tag (call_llm : list message -> result string)
    (self : agent) (reply : string) :
  isascii reply = true ->
  contains "<skill" (lower reply) = false ->
  call_llm (_prepare_messages_for_send self) = Ok reply ->
  extract_requests reply = []
  /\ _strip_skill_markers reply = reply
  /\ _chat_with_skills call_llm self
     = Ok (reply,
           {| max_steps := max_steps self; skill_manager := skill_manager self;
              messages := (messages self ++ [text_message "assistant" reply])%list;
              executed_actions := executed_actions self;
              latest_skill_outputs := [] |}).
Proof.
  intros _ Htag Hreply.
  assert (Hnone : extract_requests reply = []) by (apply requests_without_tag; exact Htag).
  split; [exact Hnone|]. split.
  - unfold _strip_skill_markers. rewrite Htag. reflexivity.
  - unfold _chat_with_skills, MAX_SKILL_TURNS. cbn [chat_loop].
    match goal with
    | |- context [call_llm ?sent] =>
        replace sent with (_prepare_messages_for_send self) by reflexivity
    end.
    rewrite Hreply. unfold bind at 1. rewrite Hnone. reflexivity.
Qed.

(** X7, tried on an agent with a history and a provider that answers
    with a summary line. *)
Lemma reply_without_skill_tag_witness :
  isascii "Action: wait a moment" = true
  /\ contains "<skill" (lower "Action: wait a moment") = false
  /\ extract_requests "Action: wait a moment" = []
  /\ _strip_skill_markers "Action: wait a moment" = "Action: wait a moment".
Proof.
  split; [reflexivity|]. split; [reflexivity|].
  destruct (@reply_without_skill_tag Cases.answers Sample.agent_before_limit
              "Action: wait a moment" eq_refl eq_refl eq_refl) as (H1 & H2 & _).
  split; [exact H1|exact H2].
Defined.

(** *** The bound on the turns of [_chat_with_skills] *)

Lemma assistant_turns_app (a b : list message) :
  assistant_turns (a ++ b) = assistant_turns a + assistant_turns b.
Proof. unfold assistant_turns. rewrite filter_app, length_app. reflexivity. Qed.

Lemma answer_requests_extends (manager : SkillManager.manager) (skill_refs : list string) :
  forall history outputs history' outputs',
    answer_requests manager skill_refs history outputs = Ok (history', outputs') ->
    exists added,
      history' = (history ++ added)%list
      /\ assistant_turns added = 0
      /\ List.length added = List.length skill_refs.
Proof.
  induction skill_refs as [|ref rest IH]; intros history outputs history' outputs'.
  - intros [= <- <-]. exists []. rewrite app_nil_r. auto.
  - cbn [answer_requests].
    destruct (build_skill_reply manager ref) as [[reply_text found]|]; [|discriminate].
    unfold bind. intro H. destruct (IH _ _ _ _ H) as (added & -> & Hturns & Hlen).
    exists (text_message "user" reply_text :: added).
    rewrite <- app_assoc. split; [reflexivity|]. split; [exact Hturns|].
    simpl. rewrite Hlen. reflexivity.
Qed.

Lemma chat_loop_extends (call_llm : list message -> result string) :
  forall turns_left self response self',
    chat_loop call_llm turns_left self = Ok (response, self') ->
    exists added,
      messages self' = (messages self ++ added)%list
      /\ 1 <= assistant_turns added <= Nat.max 1 turns_left
      /\ max_steps self' = max_steps self
      /\ executed_actions self' = executed_actions self
      /\ skill_manager self' = skill_manager self.
Proof.
  assert (Hstep : forall n self response self',
    (forall self1 response1 self1',
        chat_loop call_llm n self1 = Ok (response1, self1') ->
        exists added,
          messages self1' = (messages self1 ++ added)%list
          /\ 1 <= assistant_turns added <= Nat.max 1 n
          /\ max_steps self1' = max_steps self1
          /\ executed_actions self1' = executed_actions self1
          /\ skill_manager self1' = skill_manager self1) ->
    chat_loop call_llm (S n) self = Ok (response, self') ->
    exists added,
      messages self' = (messages self ++ added)%list
      /\ 1 <= assistant_turns added <= Nat.max 1 (S n)
      /\ max_steps self' = max_steps self
      /\ executed_actions self' = executed_actions self
      /\ skill_manager self' = skill_manager self).
  { intros n self response self' IH. cbn [chat_loop].
    destruct (call_llm (_prepare_messages_for_send self)) as [reply|]; [|discriminate].
    unfold bind at 1.
    destruct (extract_requests reply) as [|ref refs].
    { intros [= <- <-]. exists [text_message "assistant" reply]. cbn.
      repeat split; lia. }
    destruct (answer_requests (skill_manager self) (ref :: refs)
                (messages self ++ [text_message "assistant" reply])%list [])
      as [[h o]|] eqn:E; [|discriminate].
    unfold bind. destruct (answer_requests_extends _ _ _ _ E) as (users & -> & Hu & _).
    destruct n as [|n].
    - intros [= <- <-]. exists ([text_message "assistant" reply] ++ users)%list.
      cbn [messages max_steps executed_actions skill_manager].
      rewrite <- app_assoc, assistant_turns_app, Hu. cbn. repeat split; lia.
    - intro H. destruct (IH _ _ _ H) as (added & Hm & Hturns & H1 & H2 & H3).
      cbn [messages max_steps executed_actions skill_manager] in *.
      exists (([text_message "assistant" reply] ++ users) ++ added)%list.
      rewrite Hm, <- !app_assoc. split; [reflexivity|].
      rewrite !assistant_turns_app, Hu. cbn [assistant_turns filter from_assistant
        text_message role String.eqb Ascii.eqb Bool.eqb List.length].
      repeat split; try assumption; lia. }
  induction turns_left as [|n IH]; [|intros; eapply Hstep; eauto].
  intros self response self'. cbn [chat_loop].
  destruct (call_llm (_prepare_messages_for_send self)) as [reply|]; [|discriminate].
  unfold bind at 1.
  destruct (extract_requests reply) as [|ref refs].
  { intros [= <- <-]. exists [text_message "assistant" reply]. cbn. repeat split; lia. }
  destruct (answer_requests (skill_manager self) (ref :: refs)
              (messages self ++ [text_message "assistant" reply])%list [])
    as [[h o]|] eqn:E; [|discriminate].
  unfold bind. destruct (answer_requests_extends _ _ _ _ E) as (users & -> & Hu & _).
  intros [= <- <-]. exists ([text_message "assistant" reply] ++ users)%list.
  cbn [messages max_steps executed_actions skill_manager].
  rewrite <- app_assoc, assistant_turns_app, Hu. cbn. repeat split; lia.
Qed.

(** X8.  [_chat_with_skills] only adds to the history, and it calls the
    provider at most [MAX_SKILL_TURNS] = 3 times: what it adds holds
    between one and three messages of the assistant, even when every
    reply asks for another skill.  The step budget, the recorded actions
    and the skill manager stay as they were. *)
Theorem chat_turns_are_bounded (call_llm : list message -> result string)
    (self : agent) (response : string) (self' : agent) :
  _chat_with_skills call_llm self = Ok (response, self') ->
  exists added,
    messages self' = (messages self ++ added)%list
    /\ 1 <= assistant_turns added <= MAX_SKILL_TURNS
    /\ max_steps self' = max_steps self
    /\ executed_actions self' = executed_actions self
    /\ skill_manager self' = skill_manager self.
Proof.
  unfold _chat_with_skills. intro H.
  destruct (chat_loop_extends _ _ _ H) as (added & Hm & Hturns & H1 & H2 & H3).
  exists added. cbn [messages max_steps executed_actions skill_manager] in *.
  unfold MAX_SKILL_TURNS in *. repeat split; try assumption; lia.
Qed.

(** X8, tried with a provider that asks for a skill in every reply. *)
Lemma chat_turns_are_bounded_witness :
  exists response self',
    _chat_with_skills Cases.asks_forever Sample.agent_before_limit = Ok (response, self')
    /\ exists added,
         messages self' = (messages Sample.agent_before_limit ++ added)%list
         /\ 1 <= assistant_turns added <= MAX_SKILL_TURNS.
Proof.
  destruct (_chat_with_skills Cases.asks_forever Sample.agent_before_limit)
    as [[response self']|] eqn:E; [|vm_compute in E; discriminate].
  exists response, self'. split; [reflexivity|].
  destruct (chat_turns_are_bounded _ _ E) as (added & Hm & Hturns & _).
  exists added. split; assumption.
Defined.

(** X9.  What is sent to Ollama has one entry per message, in order,
    and no entry of the user has an empty text: a user message without
    text gets the hint about the screenshot.  An entry has an [images]
    key only when it carries an image. *)
Theorem ollama_messages_have_text (messages : list message) :
  List.length (_normalize_ollama_messages messages) = List.length messages
  /\ Forall (fun entry => ollama_role entry = "user" -> ollama_content entry <> EmptyString)
       (_normalize_ollama_messages messages)
  /\ Forall (fun entry => ollama_images entry <> Some [])
       (_normalize_ollama_messages messages).
Proof.
  unfold _normalize_ollama_messages. split; [apply length_map|].
  split; apply Forall_forall; intros entry Hin; apply in_map_iff in Hin as (m & <- & _).
  - destruct (_split_multimodal_content (content m)) as [text_value images].
    cbn [ollama_role ollama_content]. intro Hrole. rewrite Hrole. cbn [String.eqb Ascii.eqb Bool.eqb].
    destruct (is_empty text_value) eqn:E; cbn [andb].
    + discriminate.
    + apply is_empty_false. exact E.
  - destruct (_split_multimodal_content (content m)) as [text_value images].
    cbn [ollama_images]. destruct images; discriminate.
Qed.

(** X10.  The image [build_user_message] attaches reaches Ollama as the
    base64 text it was given: the [data:] prefix that the message carries
    is taken off again, whatever the text holds.  The text of the message
    arrives trimmed. *)
Theorem image_payload_round_trip (text : option string) (image_base64 : string) :
  _split_multimodal_content
    (content (PromptBuilder.build_user_message text (Some image_base64)))
  = (strip match text with Some t => t | None => EmptyString end,
     if is_empty image_base64 then [] else [image_base64]).
Proof.
  destruct text as [[|t text]|], image_base64 as [|c image_base64]; reflexivity.
Qed.

(** *** The system prompt and [predict] *)

Section Predict.
Variables SYSTEM_PROMPT_TEMPLATE TOOL_DESCRIPTION_PROMPT : string.
Variable call_llm : list message -> result string.
Variable json_loads : string -> result json.
Variable py_repr : json -> string.

Lemma same_size_refl (z : Z) : same_size (Some z) z = true.
Proof. apply Z.eqb_refl. Qed.

Lemma ensure_system_prompt_head (width height : Z) (self : state) :
  headed (messages (core self)) = true ->
  exists first,
    messages (core (_ensure_system_prompt SYSTEM_PROMPT_TEMPLATE TOOL_DESCRIPTION_PROMPT
                      width height self))
    = first :: Spec.non_system_part (messages (core self))
    /\ is_system first = true.
Proof.
  intro Hhead. unfold _ensure_system_prompt.
  destruct (same_size (screen_width self) width && same_size (screen_height self) height
            && match messages (core self) with [] => false | _ => true end) eqn:Eskip.
  - destruct (messages (core self)) as [|first rest].
    + rewrite andb_false_r in Eskip. discriminate.
    + exists first. cbn in Hhead |- *. rewrite Hhead. auto.
  - destruct (SkillCache.build_catalog_section (skill_manager (core self)))
      as [skill_section manager].
    cbn [core with_conversation messages].
    destruct (messages (core self)) as [|first rest]; [eexists; split; reflexivity|].
    cbn in Hhead. rewrite Hhead. eexists. split; [cbn; rewrite Hhead; reflexivity|].
    exact Hhead.
Qed.

Lemma ensure_system_prompt_frame (width height : Z) (self : state) :
  let self' := _ensure_system_prompt SYSTEM_PROMPT_TEMPLATE TOOL_DESCRIPTION_PROMPT
                 width height self in
  screen_width self' = Some width /\ screen_height self' = Some height
  /\ conversation_started self' = conversation_started self
  /\ coordinate_type self' = coordinate_type self
  /\ executed_actions (core self') = executed_actions (core self)
  /\ max_steps (core self') = max_steps (core self).
Proof.
  unfold _ensure_system_prompt.
  destruct (same_size (screen_width self) width && same_size (screen_height self) height
            && match messages (core self) with [] => false | _ => true end) eqn:Eskip.
  - apply andb_prop in Eskip as [Eskip _]. apply andb_prop in Eskip as [Ew Eh].
    unfold same_size in Ew, Eh.
    destruct (screen_width self) as [w|]; [|discriminate].
    destruct (screen_height self) as [h|]; [|discriminate].
    apply Z.eqb_eq in Ew, Eh. subst. cbn. auto 10.
  - destruct (SkillCache.build_catalog_section (skill_manager (core self))).
    cbn. auto 10.
Qed.

Lemma ensure_system_prompt_nonempty (width height : Z) (self : state) :
  messages (core (_ensure_system_prompt SYSTEM_PROMPT_TEMPLATE TOOL_DESCRIPTION_PROMPT
                    width height self)) <> [].
Proof.
  unfold _ensure_system_prompt.
  destruct (same_size (screen_width self) width && same_size (screen_height self) height
            && match messages (core self) with [] => false | _ => true end) eqn:Eskip.
  - destruct (messages (core self)); [|discriminate].
    rewrite andb_false_r in Eskip. discriminate.
  - destruct (SkillCache.build_catalog_section (skill_manager (core self))).
    cbn [core with_conversation messages].
    destruct (messages (core self)) as [|first rest]; [discriminate|].
    destruct (is_system first); discriminate.
Qed.

End Predict.

(** X11.  [_ensure_system_prompt] keeps the conversation: the messages
    other than the system message stay as they were, and a history that
    is empty or headed by the system message is headed by it afterwards.
    Called again for the same screen size it changes nothing. *)
Theorem system_prompt_heads_history (SYSTEM_PROMPT_TEMPLATE TOOL_DESCRIPTION_PROMPT : string)
    (width height : Z) (self : state) :
  let ensure := _ensure_system_prompt SYSTEM_PROMPT_TEMPLATE TOOL_DESCRIPTION_PROMPT
                  width height in
  ensure (ensure self) = ensure self
  /\ Spec.non_system_part (messages (core (ensure self)))
     = Spec.non_system_part (messages (core self))
  /\ (headed (messages (core self)) = true ->
      exists first,
        messages (core (ensure self)) = first :: Spec.non_system_part (messages (core self))
        /\ is_system first = true).
Proof.
  intro ensure. split; [|split].
  - subst ensure.
    destruct (ensure_system_prompt_frame SYSTEM_PROMPT_TEMPLATE TOOL_DESCRIPTION_PROMPT
                width height self) as (Hw & Hh & _).
    pose proof (ensure_system_prompt_nonempty SYSTEM_PROMPT_TEMPLATE
                  TOOL_DESCRIPTION_PROMPT width height self) as Hne.
    set (self1 := _ensure_system_prompt SYSTEM_PROMPT_TEMPLATE TOOL_DESCRIPTION_PROMPT
                    width height self) in *.
    unfold _ensure_system_prompt. rewrite Hw, Hh, !same_size_refl.
    destruct (messages (core self1)); [contradiction|reflexivity].
  - subst ensure. unfold _ensure_system_prompt.
    destruct (same_size (screen_width self) width && same_size (screen_height self) height
              && match messages (core self) with [] => false | _ => true end);
      [reflexivity|].
    destruct (SkillCache.build_catalog_section (skill_manager (core self)))
      as [skill_section manager].
    cbn [core with_conversation messages].
    destruct (messages (core self)) as [|first rest]; [reflexivity|].
    destruct (is_system first) eqn:E.
    + unfold Spec.non_system_part, is_system in *. cbn [role]. rewrite E. reflexivity.
    + unfold Spec.non_system_part. rewrite E. reflexivity.
  - apply ensure_system_prompt_head.
Qed.

(** X12.  A [predict] that returns has recorded exactly one more
    executed action, and it has only added to the conversation: behind
    the system message, which heads the history, the earlier messages
    are followed by the new user message (with the instruction on the
    first call only) and by what the loop of the skills added, one to
    three messages of the assistant among it. *)
Theorem predict_extends_history (SYSTEM_PROMPT_TEMPLATE TOOL_DESCRIPTION_PROMPT : string)
    (call_llm : list message -> result string)
    (json_loads : string -> result json) (py_repr : json -> string)
    (instruction processed_image : string)
    (width height processed_width processed_height : Z)
    (self : state) (out : string * list string) (self' : state) :
  headed (messages (core self)) = true ->
  predict SYSTEM_PROMPT_TEMPLATE TOOL_DESCRIPTION_PROMPT call_llm json_loads py_repr
    instruction processed_image width height processed_width processed_height self
  = Ok (out, self') ->
  (exists first added,
     messages (core self')
     = (first :: Spec.non_system_part (messages (core self))
        ++ PromptBuilder.build_user_message
             (if conversation_started self then None else Some instruction)
             (Some processed_image)
        :: added)%list
     /\ is_system first = true
     /\ 1 <= assistant_turns added <= MAX_SKILL_TURNS)
  /\ List.length (executed_actions (core self'))
     = S (List.length (executed_actions (core self)))
  /\ conversation_started self' = true
  /\ screen_width self' = Some width /\ screen_height self' = Some height.
Proof.
  intros Hhead. unfold predict.
  destruct (ensure_system_prompt_head SYSTEM_PROMPT_TEMPLATE TOOL_DESCRIPTION_PROMPT
              width height self Hhead) as (first & Hm & Hfirst).
  destruct (ensure_system_prompt_frame SYSTEM_PROMPT_TEMPLATE TOOL_DESCRIPTION_PROMPT
              width height self) as (Hw & Hh & Hstarted & _ & Hactions & _).
  set (self1 := _ensure_system_prompt SYSTEM_PROMPT_TEMPLATE TOOL_DESCRIPTION_PROMPT
                  width height self) in *.
  match goal with
  | |- context [_chat_with_skills call_llm ?a] =>
      destruct (_chat_with_skills call_llm a) as [[response_raw agent3]|] eqn:Echat;
        [|discriminate]
  end.
  unfold bind at 1.
  match goal with
  | |- context [bind ?p _] => destruct p as [[low code]|]; [|discriminate]
  end.
  unfold bind. intros [= <- <-].
  unfold _chat_with_skills in Echat.
  destruct (chat_loop_extends _ _ _ Echat) as (added & Hadded & Hturns & _ & Hkept & _).
  cbn [messages executed_actions with_conversation] in Hadded, Hkept.
  rewrite Hm, Hstarted in Hadded.
  assert (Hafter : forall display,
             messages (agent_after (predict_finish agent3 display low code)) = messages agent3
             /\ executed_actions (agent_after (predict_finish agent3 display low code))
                = (executed_actions agent3
                   ++ [if is_empty low then "Skill interaction" else low])%list).
  { intro display. unfold predict_finish.
    match goal with |- context [if ?b then _ else _] => destruct b end; cbn; auto. }
  cbn [core conversation_started screen_width screen_height].
  destruct (Hafter (_strip_skill_markers response_raw)) as [-> ->].
  split; [|split; [|auto]].
  - exists first, added. split; [|split; [exact Hfirst|]].
    + rewrite Hadded. cbn [app]. rewrite <- app_assoc.
      destruct (conversation_started self); reflexivity.
    + unfold MAX_SKILL_TURNS in *. lia.
  - rewrite length_app, Hkept, Hactions. cbn. lia.
Qed.

(** X12, tried on the first [predict] after a [reset]. *)
Lemma predict_extends_history_witness :
  exists out self',
    predict "system" "tools" Cases.answers Sample.loads Sample.repr
      "open the mail app" "c2hvdA==" 1920 1080 960 540 Cases.fresh_agent = Ok (out, self')
    /\ List.length (executed_actions (core self')) = 1
    /\ conversation_started self' = true.
Proof.
  destruct (predict "system" "tools" Cases.answers Sample.loads Sample.repr
              "open the mail app" "c2hvdA==" 1920 1080 960 540 Cases.fresh_agent)
    as [[out self']|] eqn:E; [|vm_compute in E; discriminate].
  exists out, self'. split; [reflexivity|].
  destruct (@predict_extends_history _ _ _ _ _ _ _ _ _ _ _ Cases.fresh_agent out self'
              eq_refl E) as (_ & Hsteps & Hstarted & _).
  split; [exact Hsteps|exact Hstarted].
Defined.

End ConversationExtras.

(** ** Further properties of the skill store *)

Module StoreFacts.
Import PyStr PyVal Repository Notions PyStrFacts.

Section Dict.
Variable V : Type.

Lemma get_pop_other (k k' : string) (d : PyDict.dict V) :
  k' <> k -> PyDict.get k' (PyDict.pop k d) = PyDict.get k' d.
Proof.
  intro Hne. induction d as [|[k0 v0] d IH]; [reflexivity|]. simpl.
  destruct (String.eqb k0 k) eqn:E.
  - apply String.eqb_eq in E. subst k0.
    destruct (String.eqb k k') eqn:E'; [|reflexivity].
    apply String.eqb_eq in E'. congruence.
  - simpl. rewrite IH. reflexivity.
Qed.

Lemma get_none_not_in (k : string) (d : PyDict.dict V) :
  ~ In k (PyDict.keys d) -> PyDict.get k d = None.
Proof.
  induction d as [|[k0 v0] d IH]; [reflexivity|]. simpl. intro H.
  destruct (String.eqb k0 k) eqn:E.
  - apply String.eqb_eq in E. subst. exfalso. apply H. left. reflexivity.
  - apply IH. intro Hin. apply H. right. exact Hin.
Qed.

Lemma get_pop_same (k : string) (d : PyDict.dict V) :
  NoDup (PyDict.keys d) -> PyDict.get k (PyDict.pop k d) = None.
Proof.
  induction d as [|[k0 v0] d IH]; [reflexivity|]. simpl. intro H.
  inversion H as [|? ? Hnotin Hrest]; subst.
  destruct (String.eqb k0 k) eqn:E.
  - apply String.eqb_eq in E. subst. apply get_none_not_in. exact Hnotin.
  - simpl. rewrite E. apply IH. exact Hrest.
Qed.

Lemma pop_absent (k : string) (d : PyDict.dict V) :
  PyDict.get k d = None -> PyDict.pop k d = d.
Proof.
  induction d as [|[k0 v0] d IH]; [reflexivity|]. simpl.
  destruct (String.eqb k0 k); [discriminate|]. intro H. rewrite IH; auto.
Qed.

Lemma length_pop (k : string) (d : PyDict.dict V) (v : V) :
  PyDict.get k d = Some v -> S (List.length (PyDict.pop k d)) = List.length d.
Proof.
  induction d as [|[k0 v0] d IH]; [discriminate|]. simpl.
  destruct (String.eqb k0 k); [reflexivity|]. intro H. simpl. rewrite IH; auto.
Qed.

Lemma length_set_known (k : string) (old v : V) (d : PyDict.dict V) :
  PyDict.get k d = Some old -> List.length (PyDict.set k v d) = List.length d.
Proof.
  induction d as [|[k0 v0] d IH]; [discriminate|]. simpl.
  destruct (String.eqb k0 k); [reflexivity|]. intro H. simpl. rewrite IH; auto.
Qed.

Lemma in_values_set (k : string) (v : V) (d : PyDict.dict V) :
  In v (PyDict.values (PyDict.set k v d)).
Proof.
  induction d as [|[k0 v0] d IH]; [left; reflexivity|]. simpl.
  destruct (String.eqb k0 k); [left; reflexivity|right; exact IH].
Qed.

Lemma values_set_forall (P : V -> Prop) (k : string) (v : V) (d : PyDict.dict V) :
  P v -> Forall P (PyDict.values d) -> Forall P (PyDict.values (PyDict.set k v d)).
Proof.
  intros Hv. induction d as [|[k0 v0] d IH]; intro H.
  - constructor; [exact Hv|constructor].
  - simpl. inversion H; subst. destruct (String.eqb k0 k); constructor; auto.
Qed.

Lemma values_pop_forall (P : V -> Prop) (k : string) (d : PyDict.dict V) :
  Forall P (PyDict.values d) -> Forall P (PyDict.values (PyDict.pop k d)).
Proof.
  induction d as [|[k0 v0] d IH]; intro H; [constructor|].
  simpl. inversion H; subst. destruct (String.eqb k0 k); [assumption|constructor; auto].
Qed.

Lemma get_in_values (k : string) (v : V) (d : PyDict.dict V) :
  PyDict.get k d = Some v -> In v (PyDict.values d).
Proof.
  induction d as [|[k0 v0] d IH]; [discriminate|]. simpl.
  destruct (String.eqb k0 k); [intros [= <-]; left; reflexivity|].
  intro H. right. apply IH. exact H.
Qed.

End Dict.

(** *** Characters kept by the string operations *)

Lemma all_chars_lstrip (p q : ascii -> bool) (s : string) :
  all_chars p s = true -> all_chars p (lstrip_by q s) = true.
Proof.
  induction s as [|c s IH]; [reflexivity|]. simpl. intro H.
  apply andb_prop in H as [Hc Hs]. destruct (q c); [apply IH; exact Hs|].
  simpl. rewrite Hc, Hs. reflexivity.
Qed.

Lemma all_chars_rstrip (p q : ascii -> bool) (s : string) :
  all_chars p s = true -> all_chars p (rstrip_by q s) = true.
Proof.
  induction s as [|c s IH]; [reflexivity|]. simpl. intro H.
  apply andb_prop in H as [Hc Hs]. specialize (IH Hs).
  destruct (rstrip_by q s) as [|d r].
  - destruct (q c); [reflexivity|]. simpl. rewrite Hc. reflexivity.
  - cbn [all_chars]. rewrite Hc. exact IH.
Qed.

Lemma all_chars_strip (p q : ascii -> bool) (s : string) :
  all_chars p s = true -> all_chars p (strip_by q s) = true.
Proof. intro H. apply all_chars_rstrip, all_chars_lstrip, H. Qed.

Lemma all_chars_app (p : ascii -> bool) (a b : string) :
  all_chars p (a ++ b) = all_chars p a && all_chars p b.
Proof.
  induction a as [|c a IH]; cbn [append all_chars]; [reflexivity|].
  rewrite IH. apply andb_assoc.
Qed.

Lemma all_chars_weaken (p q : ascii -> bool) (s : string) :
  (forall c, p c = true -> q c = true) -> all_chars p s = true -> all_chars q s = true.
Proof.
  intro Hpq. induction s as [|c s IH]; [reflexivity|]. cbn [all_chars]. intro H.
  apply andb_prop in H as [Hc Hs]. rewrite (Hpq _ Hc), (IH Hs). reflexivity.
Qed.

Lemma all_chars_not_mem (p : ascii -> bool) (s : string) (c : ascii) :
  all_chars p s = true -> p c = false -> mem_char s c = false.
Proof.
  intros H Hc. induction s as [|d s IH]; [reflexivity|]. cbn [all_chars] in H.
  apply andb_prop in H as [Hd Hs]. cbn [mem_char]. rewrite (IH Hs), orb_false_r.
  destruct (Ascii.eqb c d) eqn:E; [|reflexivity].
  apply Ascii.eqb_eq in E. subst. congruence.
Qed.

Lemma strip_by_idempotent (p : ascii -> bool) (s : string) :
  strip_by p (strip_by p s) = strip_by p s.
Proof. apply (@strip_strip p p). auto. Qed.

End StoreFacts.

Module StoreExtras.
Import PyStr PyVal Repository SkillManager Notions PyStrFacts StoreFacts SkillRoutes.

Lemma sub_non_word_chars (s : string) :
  forall in_run, all_chars slug_char (sub_non_word in_run s) = true.
Proof.
  induction s as [|c s IH]; intro in_run; [reflexivity|]. cbn [sub_non_word].
  destruct (isword c || Ascii.eqb c "-") eqn:E.
  - cbn [all_chars]. unfold slug_char at 1. rewrite E. apply IH.
  - destruct in_run; [apply IH|]. cbn [all_chars]. rewrite IH. reflexivity.
Qed.

Lemma sub_hyphens_chars (p : ascii -> bool) (s : string) :
  forall after_hyphen,
    all_chars p s = true -> all_chars p (sub_hyphens after_hyphen s) = true.
Proof.
  induction s as [|c s IH]; intros after_hyphen H; [reflexivity|].
  cbn [all_chars] in H. apply andb_prop in H as [Hc Hs]. cbn [sub_hyphens].
  destruct (Ascii.eqb c "-").
  - destruct after_hyphen; [apply IH; exact Hs|].
    cbn [all_chars]. rewrite Hc. apply IH. exact Hs.
  - cbn [all_chars]. rewrite Hc. apply IH. exact Hs.
Qed.

(** X13.  The file name [_slugify] makes from a title is never empty,
    holds only word characters and hyphens (so no slash and no dot: it
    names a file of the skills directory itself), and neither starts nor
    ends with a hyphen or an underscore. *)
Theorem slug_is_a_plain_name (text : string) :
  _slugify text <> EmptyString
  /\ all_chars slug_char (_slugify text) = true
  /\ mem_char (_slugify text) "/" = false
  /\ mem_char (_slugify text) "." = false
  /\ strip_chars "-_" (_slugify text) = _slugify text.
Proof.
  assert (Hchars : all_chars slug_char (_slugify text) = true).
  { unfold _slugify.
    destruct (is_empty _); [reflexivity|].
    apply all_chars_strip, sub_hyphens_chars, sub_non_word_chars. }
  split; [|split; [exact Hchars|split; [|split]]].
  - unfold _slugify. destruct (is_empty _) eqn:E; [discriminate|].
    apply is_empty_false. exact E.
  - apply (all_chars_not_mem _ _ _ Hchars). reflexivity.
  - apply (all_chars_not_mem _ _ _ Hchars). reflexivity.
  - unfold _slugify. destruct (is_empty _); [reflexivity|].
    apply strip_by_idempotent.
Qed.

(** What [upsert] does when it names the file itself. *)
Lemma upsert_new_inv (self : repository) (title_ body_ : string)
    (skill : Skill) (self' : repository) :
  upsert self title_ body_ None = Some (Ok (skill, self')) ->
  is_empty (strip title_) = false
  /\ exists_ (skills_dir self) (path skill) = Ok false
  /\ skill = {| id := stem (path skill); title := strip title_;
                body := strip (strip_chars nl body_); path := path skill |}
  /\ self' = {| skills_dir :=
                  PyDict.set (path skill)
                    (TextFile (_compose_file (strip title_) (strip_chars nl body_)))
                    (skills_dir self);
                _skills := PyDict.set (id skill) skill (_skills self) |}.
Proof.
  intro H.
  assert (Ht : is_empty (strip title_) = false).
  { unfold upsert in H. destruct (is_empty (strip title_)); [discriminate|reflexivity]. }
  split; [exact Ht|].
  destruct (@RepositoryFacts.upsert_new_cases self title_ body_ Ht)
    as [(p & Hp & E)|[E _]]; rewrite E in H; [|discriminate].
  injection H as <- <-. cbn [path id]. auto.
Qed.

(** X14.  [create_skill] never writes over a file: the skill it answers
    with is stored in a file that did not exist, under the trimmed title
    and body; every other file of the directory and every other skill of
    the cache stay as they were, and the skill can be read back by the id
    of the answer. *)
Theorem create_skill_adds_one_file (payload : SkillUpsertRequest)
    (repo : repository) (detail : SkillDetailResponse) (repo' : repository) :
  create_skill payload repo = Some (Response detail, repo') ->
  exists path_,
    exists_ (skills_dir repo) path_ = Ok false
    /\ PyDict.get path_ (skills_dir repo')
       = Some (TextFile (_compose_file (strip (request_title payload))
                           (strip_chars nl (request_body payload))))
    /\ (forall name, name <> path_ ->
          PyDict.get name (skills_dir repo') = PyDict.get name (skills_dir repo))
    /\ detail_title detail = strip (request_title payload)
    /\ detail_body detail = strip (request_body payload)
    /\ get_skill (detail_id detail) repo' = Response detail
    /\ (forall other, other <> detail_id detail ->
          get_skill other repo' = get_skill other repo).
Proof.
  unfold create_skill.
  destruct (upsert repo (request_title payload) (request_body payload) None)
    as [[[skill self']|]|] eqn:E; try discriminate.
  intros [= <- <-].
  destruct (upsert_new_inv _ _ _ E) as (_ & Hfresh & Hskill & ->).
  exists (path skill). cbn [skills_dir _skills]. split; [exact Hfresh|]. split.
  { apply PyDictFacts.get_set_same. }
  split. { intros name Hne. apply PyDictFacts.get_set_other. exact Hne. }
  rewrite Hskill at 1 2. cbn [detail_of detail_title detail_body title body].
  split; [reflexivity|]. split; [apply strip_strip_newlines|].
  unfold get_skill, get. cbn [_skills detail_of detail_id].
  split.
  - rewrite PyDictFacts.get_set_same. reflexivity.
  - intros other Hne. rewrite PyDictFacts.get_set_other by exact Hne. reflexivity.
Qed.

(** X14, tried on the sample repository. *)
Lemma create_skill_adds_one_file_witness :
  exists detail repo',
    create_skill {| request_title := " Open Mail "; request_body := "Click." |} Sample.repo
    = Some (Response detail, repo')
    /\ detail_id detail = "open-mail-1"
    /\ exists_ (skills_dir Sample.repo) "open-mail-1.md" = Ok false
    /\ get_skill "open-mail-1" repo' = Response detail.
Proof.
  destruct (create_skill {| request_title := " Open Mail "; request_body := "Click." |}
              Sample.repo) as [[[detail| |] repo']|] eqn:E;
    try (vm_compute in E; discriminate).
  exists detail, repo'. split; [reflexivity|].
  assert (Hid : detail_id detail = "open-mail-1").
  { pose proof E as E2. vm_compute in E2. injection E2 as Hd _. rewrite <- Hd. reflexivity. }
  split; [exact Hid|]. split; [reflexivity|].
  destruct (create_skill_adds_one_file _ _ E) as (_ & _ & _ & _ & _ & _ & Hget & _).
  rewrite <- Hid. exact Hget.
Defined.

(** *** Lines written and read back *)

Lemma splitlines_step (after_cr : bool) (c : ascii) (s : string) :
  splitlines_from after_cr (String c s)
  = if after_cr && Ascii.eqb c LF then splitlines_from false s
    else if is_linebreak c
         then EmptyString :: splitlines_from (Ascii.eqb c CR) s
         else match splitlines_from false s with
              | h :: t => String c h :: t
              | [] => [String c EmptyString]
              end.
Proof. reflexivity. Qed.

(** A first line without a line boundary, ended by a line feed. *)
Lemma splitlines_first_line (a rest : string) :
  one_line a = true ->
  splitlines_from false (a ++ String LF rest) = a :: splitlines_from false rest.
Proof.
  unfold one_line. induction a as [|c a IH]; intro H.
  - reflexivity.
  - cbn [all_chars] in H. apply andb_prop in H as [Hc Ha].
    cbn [append]. rewrite splitlines_step. cbn [andb].
    apply negb_true_iff in Hc. rewrite Hc, (IH Ha). reflexivity.
Qed.

Lemma join_cons_char (c : ascii) (h : string) (t : list string) :
  join nl (String c h :: t) = String c (join nl (h :: t)).
Proof. destruct t; reflexivity. Qed.

(** Lines that end in line feeds only are put together again as they
    were. *)
Lemma join_splitlines (text : string) :
  unix_lines text = true ->
  splitlines_from false (text ++ nl) <> []
  /\ join nl (splitlines_from false (text ++ nl)) = text.
Proof.
  unfold unix_lines. induction text as [|c text IH]; intro H.
  - split; [discriminate|reflexivity].
  - cbn [all_chars] in H. apply andb_prop in H as [Hc Ht].
    destruct (IH Ht) as [Hne Hjoin].
    cbn [append]. rewrite splitlines_step. cbn [andb].
    destruct (is_linebreak c) eqn:Eb.
    + cbn [negb orb] in Hc. apply Ascii.eqb_eq in Hc. subst c.
      change (Ascii.eqb LF CR) with false.
      split; [discriminate|].
      destruct (splitlines_from false (text ++ nl)) as [|h t] eqn:E; [contradiction|].
      change (join nl (EmptyString :: h :: t)) with (nl ++ join nl (h :: t)).
      rewrite Hjoin. reflexivity.
    + destruct (splitlines_from false (text ++ nl)) as [|h t] eqn:E; [contradiction|].
      split; [discriminate|]. rewrite join_cons_char, Hjoin. reflexivity.
Qed.

Lemma universal_newlines_unix (s : string) :
  unix_lines s = true -> universal_newlines s = s.
Proof.
  unfold unix_lines. induction s as [|c s IH]; [reflexivity|]. cbn [all_chars]. intro H.
  apply andb_prop in H as [Hc Hs]. cbn [universal_newlines].
  destruct (Ascii.eqb c CR) eqn:E.
  - apply Ascii.eqb_eq in E. subst c. discriminate.
  - rewrite (IH Hs). reflexivity.
Qed.

Lemma one_line_unix (s : string) : one_line s = true -> unix_lines s = true.
Proof.
  apply all_chars_weaken. intros c H. rewrite H. reflexivity.
Qed.

Lemma rstrip_by_after (p : ascii -> bool) (a t : string) :
  t <> EmptyString -> rstrip_by p t = t -> rstrip_by p (a ++ t) = a ++ t.
Proof.
  intros Hne Ht. induction a as [|c a IH]; [exact Ht|].
  cbn [append rstrip_by]. rewrite IH.
  destruct (a ++ t) eqn:E; [|reflexivity].
  destruct a; [contradiction|discriminate].
Qed.

Lemma lstrip_space_first (s : string) (c : ascii) (rest : string) :
  lstrip s = String c rest -> isspace c = false.
Proof.
  unfold lstrip. induction s as [|d s IH]; [discriminate|]. cbn [lstrip_by].
  destruct (isspace d) eqn:E; [exact IH|]. intros [= <- _]. exact E.
Qed.

Lemma strip_lstrip_fixed (s : string) : lstrip (strip s) = strip s.
Proof.
  unfold strip, strip_by, lstrip.
  rewrite (@lstrip_rstrip isspace isspace) by auto.
  rewrite (@lstrip_lstrip isspace isspace) by auto. reflexivity.
Qed.

Lemma strip_rstrip_fixed (s : string) : rstrip (strip s) = strip s.
Proof.
  unfold strip, strip_by, rstrip.
  apply (@rstrip_rstrip isspace isspace). auto.
Qed.

Lemma strip_of_rstrip (p : ascii -> bool) (s : string) :
  strip_by p (rstrip_by p s) = strip_by p s.
Proof.
  unfold strip_by. rewrite (@lstrip_rstrip p p) by auto.
  apply (@rstrip_rstrip p p). auto.
Qed.

(** The file [_compose_file] writes is parsed back to the title and the
    body it was given. *)
Lemma parse_composed (title_ body_ fallback : string) :
  strip title_ = title_ ->
  title_ <> EmptyString ->
  one_line title_ = true ->
  startswith title_ "#" = false ->
  unix_lines body_ = true ->
  _parse_markdown (_compose_file title_ body_) fallback = (title_, strip body_).
Proof.
  intros Hstrip Hne Hline Hhash Hbody.
  assert (Hr : rstrip title_ = title_).
  { rewrite <- Hstrip. apply strip_rstrip_fixed. }
  assert (Hl : lstrip title_ = title_).
  { rewrite <- Hstrip. apply strip_lstrip_fixed. }
  assert (Hfirst : strip ("# " ++ title_) = "# " ++ title_).
  { unfold strip, strip_by. cbn [append lstrip_by isspace].
    change (lstrip_by isspace (String "#" (String " " title_)))
      with (String "#" (String " " title_)).
    apply (@rstrip_by_after isspace "# " title_ Hne Hr). }
  assert (Htitle : strip (lstrip_chars "# " ("# " ++ title_)) = title_).
  { unfold lstrip_chars. cbn [append lstrip_by mem_char].
    change (lstrip_by (mem_char "# ") (String "#" (String " " title_)))
      with (lstrip_by (mem_char "# ") title_).
    destruct title_ as [|c rest]; [contradiction|].
    cbn [lstrip_by mem_char].
    assert (Hc : Ascii.eqb c "#" = false).
    { unfold startswith in Hhash. cbn in Hhash.
      destruct (ascii_dec "#" c) as [<-|Hd]; [destruct rest; discriminate|].
      apply Ascii.eqb_neq. congruence. }
    assert (Hs : Ascii.eqb c " " = false).
    { pose proof (@lstrip_space_first _ _ _ Hl) as Hsp.
      destruct (Ascii.eqb c " ") eqn:E; [|reflexivity].
      apply Ascii.eqb_eq in E. subst c. discriminate. }
    rewrite Hc, Hs. cbn [orb]. exact Hstrip. }
  assert (Hhead : one_line ("# " ++ title_) = true).
  { unfold one_line in *. rewrite all_chars_app, Hline. reflexivity. }
  unfold _parse_markdown, _compose_file, splitlines.
  destruct (is_empty body_) eqn:Eb.
  - apply is_empty_true in Eb. subst body_.
    rewrite <- LineFacts.append_assoc.
    change (("# " ++ title_) ++ nl) with (("# " ++ title_) ++ String LF EmptyString).
    rewrite (@splitlines_first_line ("# " ++ title_) _ Hhead). cbn [splitlines_from].
    unfold _parse_markdown_lines. rewrite Hfirst.
    destruct (is_empty ("# " ++ title_)) eqn:E; [discriminate|].
    rewrite Htitle.
    destruct (is_empty title_) eqn:E2; [apply is_empty_true in E2; contradiction|].
    reflexivity.
  - assert (Hrs : unix_lines (rstrip body_) = true).
    { apply all_chars_rstrip. exact Hbody. }
    destruct (@join_splitlines (rstrip body_) Hrs) as [Hlines Hjoin].
    replace ("# " ++ title_ ++ nl ++ nl ++ rstrip body_ ++ nl)
      with (("# " ++ title_) ++ String LF (String LF (rstrip body_ ++ nl)))
      by (rewrite LineFacts.append_assoc; reflexivity).
    rewrite (@splitlines_first_line ("# " ++ title_) _ Hhead).
    change (splitlines_from false (String LF (rstrip body_ ++ nl)))
      with (EmptyString :: splitlines_from false (rstrip body_ ++ nl)).
    unfold _parse_markdown_lines. rewrite Hfirst.
    destruct (is_empty ("# " ++ title_)) eqn:E; [discriminate|].
    rewrite Htitle.
    destruct (is_empty title_) eqn:E2; [apply is_empty_true in E2; contradiction|].
    f_equal.
    destruct (splitlines_from false (rstrip body_ ++ nl)) as [|h t] eqn:El;
      [contradiction|].
    change (join nl (EmptyString :: h :: t)) with (nl ++ join nl (h :: t)).
    rewrite Hjoin.
    change (strip (nl ++ rstrip body_)) with (strip (rstrip body_)).
    apply strip_of_rstrip.
Qed.

(** X15.  A skill saved by [upsert] survives on disk: for a title of
    one line that does not start with a hash sign and a body whose lines
    end in line feeds, [_load_skill] reads the written file back as the
    very skill [upsert] returned, with the same id, title, body and
    path. *)
Theorem saved_skill_loads_back (self : repository) (title_ body_ : string)
    (skill : Skill) (self' : repository) :
  one_line (strip title_) = true ->
  startswith (strip title_) "#" = false ->
  unix_lines body_ = true ->
  upsert self title_ body_ None = Some (Ok (skill, self')) ->
  _load_skill (skills_dir self') (path skill) = Ok (Some skill).
Proof.
  intros Hline Hhash Hbody Hup.
  destruct (upsert_new_inv _ _ _ Hup) as (Hne & Hfresh & Hskill & ->).
  destruct (RepositoryFacts.exists_false_fits _ _ Hfresh) as [Hfit _].
  assert (Hb0 : unix_lines (strip_chars nl body_) = true).
  { apply all_chars_strip. exact Hbody. }
  assert (Hcontent : unix_lines (_compose_file (strip title_) (strip_chars nl body_)) = true).
  { assert (Ht : unix_lines (strip title_) = true) by (apply one_line_unix; exact Hline).
    assert (Hr : unix_lines (rstrip (strip_chars nl body_)) = true)
      by (apply all_chars_rstrip; exact Hb0).
    unfold _compose_file.
    destruct (is_empty (strip_chars nl body_)); unfold unix_lines in *;
      rewrite !all_chars_app, Ht, ?Hr; reflexivity. }
  unfold _load_skill, read_text. cbn [skills_dir].
  rewrite Hfit, PyDictFacts.get_set_same, (@universal_newlines_unix _ Hcontent).
  rewrite parse_composed; try assumption.
  - rewrite Hskill at 3. reflexivity.
  - apply strip_idempotent.
  - apply is_empty_false. exact Hne.
Qed.

(** X15, tried on a skill of two lines added to the sample repository. *)
Lemma saved_skill_loads_back_witness :
  exists skill self',
    upsert Sample.repo " Reply to mail " ("Open the mail." ++ nl ++ "Click reply." ++ nl) None
    = Some (Ok (skill, self'))
    /\ _load_skill (skills_dir self') (path skill) = Ok (Some skill).
Proof.
  destruct (upsert Sample.repo " Reply to mail "
              ("Open the mail." ++ nl ++ "Click reply." ++ nl) None)
    as [[[skill self']|]|] eqn:E; try (vm_compute in E; discriminate).
  exists skill, self'. split; [reflexivity|].
  apply (@saved_skill_loads_back Sample.repo " Reply to mail "
           ("Open the mail." ++ nl ++ "Click reply." ++ nl));
    [reflexivity | reflexivity | reflexivity | exact E].
Defined.

Lemma lower_empty (s : string) : lower s = EmptyString -> s = EmptyString.
Proof. destruct s; [reflexivity|discriminate]. Qed.

(** X16.  A skill saved by [upsert] is found by its title whatever the
    letter case and the blanks around the reference: [lookup] returns a
    skill, the one stored under the reference as an id or else one with
    that title, and [build_skill_reply] answers with its steps and the
    availability flag [True]. *)
Theorem saved_skill_is_found_by_title (self : repository) (title_ body_ : string)
    (skill : Skill) (self' : repository)
    (catalog : option (list SkillSummary)) (reference : string) :
  upsert self title_ body_ None = Some (Ok (skill, self')) ->
  lower (strip reference) = lower (strip title_) ->
  let manager := {| _repo := Some self'; _catalog := catalog |} in
  exists found,
    lookup manager reference = Ok (Some found)
    /\ (get self' (strip reference) = Ok found
        \/ lower (strip (title found)) = lower (strip title_))
    /\ build_skill_reply manager reference = Ok (format_skill_message found, true).
Proof.
  intros Hup Href manager.
  destruct (upsert_new_inv _ _ _ Hup) as (Hne & _ & Hskill & Hself).
  assert (Hin : In skill (PyDict.values (_skills self'))).
  { rewrite Hself. cbn [_skills]. apply in_values_set. }
  assert (Hlookup : exists found,
             lookup manager reference = Ok (Some found)
             /\ (get self' (strip reference) = Ok found
                 \/ lower (strip (title found)) = lower (strip title_))).
  { unfold lookup, manager. cbn [_repo].
    destruct (is_empty (strip reference)) eqn:Er.
    { apply is_empty_true in Er. rewrite Er in Href. symmetry in Href.
      apply lower_empty in Href. apply is_empty_false in Hne. contradiction. }
    unfold get. destruct (PyDict.get (strip reference) (_skills self')) as [found|] eqn:Eg.
    - exists found. split; [reflexivity|]. left. reflexivity.
    - unfold get_by_title.
      destruct (find _ (PyDict.values (_skills self'))) as [found|] eqn:Ef.
      + exists found. split; [reflexivity|]. right.
        apply find_some in Ef as [_ Ef]. apply String.eqb_eq in Ef.
        rewrite Ef, strip_idempotent. exact Href.
      + exfalso. apply (find_none _ _ Ef) in Hin.
        rewrite Hskill in Hin. cbn [title] in Hin.
        rewrite !strip_idempotent, Href, String.eqb_refl in Hin. discriminate. }
  destruct Hlookup as (found & Hl & Hwhich). exists found.
  split; [exact Hl|]. split; [exact Hwhich|].
  unfold build_skill_reply. rewrite Hl. reflexivity.
Qed.

(** X16, tried on a skill added to the sample repository and looked up
    in capitals. *)
Lemma saved_skill_is_found_by_title_witness :
  exists skill self' found,
    upsert Sample.repo "Reply to mail" "Click reply." None = Some (Ok (skill, self'))
    /\ lookup {| _repo := Some self'; _catalog := None |} "  REPLY TO MAIL " = Ok (Some found)
    /\ build_skill_reply {| _repo := Some self'; _catalog := None |} "  REPLY TO MAIL "
       = Ok (format_skill_message found, true).
Proof.
  destruct (upsert Sample.repo "Reply to mail" "Click reply." None)
    as [[[skill self']|]|] eqn:E; try (vm_compute in E; discriminate).
  destruct (@saved_skill_is_found_by_title Sample.repo "Reply to mail" "Click reply."
              skill self' None "  REPLY TO MAIL " E eq_refl) as (found & Hl & _ & Hr).
  exists skill, self', found. split; [reflexivity|]. split; [exact Hl|exact Hr].
Defined.

(** X17.  The catalog of the skill manager is read from the repository
    once: a skill saved after the first [build_catalog_section] does not
    show in the section, which stays the same text, until [reset_cache];
    after it the catalog lists the new skill under its trimmed title. *)
Theorem catalog_is_cached_until_reset (repo : repository) (title_ body_ : string)
    (skill : Skill) (repo' : repository) :
  upsert repo title_ body_ None = Some (Ok (skill, repo')) ->
  let manager := {| _repo := Some repo; _catalog := None |} in
  let cached := snd (SkillCache.build_catalog_section manager) in
  let later := {| _repo := Some repo'; _catalog := _catalog cached |} in
  fst (SkillCache.build_catalog_section manager)
  = SkillManager.build_catalog_section (list_titles repo)
  /\ fst (SkillCache.build_catalog_section later)
     = fst (SkillCache.build_catalog_section manager)
  /\ fst (SkillCache._get_catalog (SkillCache.reset_cache later)) = list_titles repo'
  /\ In {| summary_id := id skill; summary_title := strip title_ |} (list_titles repo').
Proof.
  intros Hup manager cached later.
  destruct (upsert_new_inv _ _ _ Hup) as (_ & _ & Hskill & Hself).
  split; [reflexivity|]. split; [reflexivity|]. split; [reflexivity|].
  unfold list_titles. apply in_map_iff. exists skill. split.
  - rewrite Hskill at 2. reflexivity.
  - rewrite Hself. cbn [_skills]. apply in_values_set.
Qed.

(** X17, tried on the sample repository. *)
Lemma catalog_is_cached_until_reset_witness :
  exists skill repo',
    upsert Sample.repo "Reply to mail" "Click reply." None = Some (Ok (skill, repo'))
    /\ fst (SkillCache.build_catalog_section
              {| _repo := Some repo';
                 _catalog := _catalog (snd (SkillCache.build_catalog_section
                                              Sample.skill_manager)) |})
       = "- Open Mail"
    /\ In {| summary_id := id skill; summary_title := "Reply to mail" |} (list_titles repo').
Proof.
  destruct (upsert Sample.repo "Reply to mail" "Click reply." None)
    as [[[skill self']|]|] eqn:E; try (vm_compute in E; discriminate).
  exists skill, self'. split; [reflexivity|].
  destruct (@catalog_is_cached_until_reset Sample.repo "Reply to mail" "Click reply."
              skill self' E) as (_ & Hsame & _ & Hin).
  split; [|exact Hin]. exact Hsame.
Defined.

End StoreExtras.

(** ** Properties of the skill endpoints *)

Module RouteExtras.
Import PyStr PyVal Repository Notions PyStrFacts StoreFacts SkillRoutes.

(** X18.  A skill removed through [delete_skill] is gone: the answer
    names the id, [get_skill] and a second [delete_skill] for that id
    answer 404, the listing is one entry shorter and the file of the
    skill is removed, while every other skill is answered as before.
    An id that is not in the cache is answered 404 and nothing
    changes; so does nothing for a cached skill whose file name is
    longer than the file system takes, where the route ends with the
    [OSError] of [exists]. *)
Theorem deleted_skill_is_gone (skill_id : string) (repo : repository) :
  NoDup (PyDict.keys (_skills repo)) ->
  NoDup (PyDict.keys (skills_dir repo)) ->
  match get repo skill_id with
  | Ok skill =>
      if fits (path skill) then
        PyDict.get (path skill) (skills_dir repo) <> Some Directory ->
        exists repo',
          delete_skill skill_id repo = (Response ("deleted", skill_id), repo')
          /\ get_skill skill_id repo' = not_found
          /\ delete_skill skill_id repo' = (not_found, repo')
          /\ exists_ (skills_dir repo') (path skill) = Ok false
          /\ S (List.length (list_skills repo')) = List.length (list_skills repo)
          /\ (forall other, other <> skill_id ->
                get_skill other repo' = get_skill other repo)
      else delete_skill skill_id repo = (Unhandled OSError, repo)
  | Raise _ => delete_skill skill_id repo = (not_found, repo)
  end.
Proof.
  intros Hskills Hdir. unfold get.
  destruct (PyDict.get skill_id (_skills repo)) as [skill|] eqn:Eg.
  - destruct (fits (path skill)) eqn:Efit;
      [|unfold delete_skill, delete, exists_; rewrite Eg, Efit; reflexivity].
    intro Hfile.
    assert (Hdel : delete repo skill_id
                   = Ok {| skills_dir := PyDict.pop (path skill) (skills_dir repo);
                           _skills := PyDict.pop skill_id (_skills repo) |}).
    { unfold delete, exists_, unlink, PyDict.mem. rewrite Eg, Efit. cbn [bind].
      destruct (PyDict.get (path skill) (skills_dir repo)) as [[| |]|] eqn:Ep;
        cbn [bind]; try reflexivity; [contradiction|].
      rewrite (pop_absent _ _ Ep). reflexivity. }
    eexists. unfold delete_skill. rewrite Hdel. split; [reflexivity|].
    assert (Hgone : PyDict.get skill_id (PyDict.pop skill_id (_skills repo)) = None)
      by (apply get_pop_same; exact Hskills).
    split; [|split; [|split; [|split]]].
    + unfold get_skill, get. cbn [_skills]. rewrite Hgone. reflexivity.
    + unfold delete. cbn [_skills]. rewrite Hgone. reflexivity.
    + unfold exists_, PyDict.mem. cbn [skills_dir].
      rewrite Efit, get_pop_same by exact Hdir. reflexivity.
    + unfold list_skills, list_titles, PyDict.values. cbn [_skills].
      rewrite !length_map. apply (length_pop _ _ Eg).
    + intros other Hne. unfold get_skill, get. cbn [_skills].
      rewrite get_pop_other by exact Hne. reflexivity.
  - unfold delete_skill, delete. rewrite Eg. reflexivity.
Qed.

(** X18, tried on the skill of the sample repository. *)
Lemma deleted_skill_is_gone_witness :
  exists repo',
    delete_skill "open-mail" Sample.repo = (Response ("deleted", "open-mail"), repo')
    /\ get_skill "open-mail" repo' = not_found
    /\ exists_ (skills_dir repo') "open-mail.md" = Ok false.
Proof.
  assert (H1 : NoDup (PyDict.keys (_skills Sample.repo))).
  { repeat constructor; simpl; intuition discriminate. }
  assert (H2 : NoDup (PyDict.keys (skills_dir Sample.repo))).
  { repeat constructor; simpl; intuition discriminate. }
  pose proof (@deleted_skill_is_gone "open-mail" Sample.repo H1 H2) as H.
  cbv beta iota delta [get Sample.repo _skills PyDict.get String.eqb Ascii.eqb Bool.eqb] in H.
  cbn [path] in H. change (fits "open-mail.md") with true in H. cbv iota in H.
  destruct (H ltac:(discriminate)) as (repo' & Hd & Hg & _ & Hf & _).
  exists repo'. split; [exact Hd|]. split; [exact Hg|exact Hf].
Defined.

(** What [upsert] does for a given id. *)
Lemma upsert_id_inv (self : repository) (title_ body_ sid : string)
    (skill : Skill) (self' : repository) :
  sid <> EmptyString ->
  upsert self title_ body_ (Some sid) = Some (Ok (skill, self')) ->
  skill = {| id := sid; title := strip title_;
             body := strip (strip_chars nl body_); path := sid ++ ".md" |}
  /\ self' = {| skills_dir :=
                  PyDict.set (sid ++ ".md")
                    (TextFile (_compose_file (strip title_) (strip_chars nl body_)))
                    (skills_dir self);
                _skills := PyDict.set sid skill (_skills self) |}.
Proof.
  intro Hne. unfold upsert.
  destruct (is_empty (strip title_)); [discriminate|].
  destruct (is_empty sid) eqn:Ee; [apply is_empty_true in Ee; contradiction|].
  cbn [bind]. unfold write_text.
  destruct (fits (sid ++ ".md")); [|discriminate].
  destruct (PyDict.get (sid ++ ".md") (skills_dir self)) as [[| |]|];
    unfold bind; try discriminate; intros [= <- <-]; auto.
Qed.

(** X19.  [update_skill] keeps the id: for an id that is in the cache
    and not empty, the answer carries that id with the trimmed title and
    body, [get_skill] for the id answers the same afterwards, the listing
    keeps its length and every other skill is answered as before.  An id
    that is not in the cache is answered 404 and nothing is written. *)
Theorem update_keeps_the_id (skill_id : string) (payload : SkillUpsertRequest)
    (repo : repository) :
  (PyDict.mem skill_id (_skills repo) = false ->
   update_skill skill_id payload repo = Some (not_found, repo))
  /\ (forall detail repo',
        skill_id <> EmptyString ->
        update_skill skill_id payload repo = Some (Response detail, repo') ->
        detail = {| detail_id := skill_id;
                    detail_title := strip (request_title payload);
                    detail_body := strip (request_body payload) |}
        /\ get_skill skill_id repo' = Response detail
        /\ PyDict.get (skill_id ++ ".md") (skills_dir repo')
           = Some (TextFile (_compose_file (strip (request_title payload))
                               (strip_chars nl (request_body payload))))
        /\ List.length (list_skills repo') = List.length (list_skills repo)
        /\ (forall other, other <> skill_id ->
              get_skill other repo' = get_skill other repo)).
Proof.
  split.
  - unfold PyDict.mem, update_skill, get.
    destruct (PyDict.get skill_id (_skills repo)); [discriminate|reflexivity].
  - intros detail repo' Hne. unfold update_skill, get.
    destruct (PyDict.get skill_id (_skills repo)) as [old|] eqn:Eg; [|discriminate].
    destruct (upsert repo (request_title payload) (request_body payload) (Some skill_id))
      as [[[skill self']|]|] eqn:Eu; try discriminate.
    intros [= <- <-].
    destruct (upsert_id_inv _ _ _ Hne Eu) as (-> & ->).
    cbn [detail_of id title body skills_dir _skills]. rewrite strip_strip_newlines.
    split; [reflexivity|].
    split.
    { unfold get_skill, get. cbn [_skills]. rewrite PyDictFacts.get_set_same.
      cbn [detail_of id title body]. rewrite ?strip_strip_newlines. reflexivity. }
    split; [apply PyDictFacts.get_set_same|].
    split.
    { unfold list_skills, list_titles, PyDict.values. cbn [_skills].
      rewrite !length_map. apply (length_set_known _ _ _ Eg). }
    intros other Ho. unfold get_skill, get. cbn [_skills].
    rewrite PyDictFacts.get_set_other by exact Ho. reflexivity.
Qed.

End RouteExtras.

(** ** Further properties of the run lifecycle manager *)

Module ServiceExtras.
Import PyStr PyVal Service Profiles Execution Notions PyStrFacts StoreFacts.

Lemma bounded_run (limit : Z) (self : service) (rid : string) (run : GuiAgentRun) :
  bounded limit self -> PyDict.get rid (_runs self) = Some run -> within limit run.
Proof.
  intros [_ H] Hget. rewrite Forall_forall in H. apply H.
  exact (@get_in_values _ _ _ _ Hget).
Qed.

Lemma bounded_set (limit : Z) (self : service) (rid : string) (run : GuiAgentRun) :
  bounded limit self -> within limit run ->
  bounded limit (with_runs self (PyDict.set rid run (_runs self))).
Proof.
  intros [Hl H] Hrun. split; [exact Hl|]. cbn [with_runs _runs].
  apply values_set_forall; assumption.
Qed.

Lemma start_run_bounded (limit : Z) (self : service) sid ins uuid now :
  (0 <= limit)%Z -> bounded limit self ->
  bounded limit (snd (start_run self sid ins uuid now)).
Proof.
  intros Hpos Hb. unfold start_run.
  destruct (is_empty (strip ins)); [exact Hb|].
  destruct (_active_run self) as [active_|];
    [destruct (is_active (status active_)); [exact Hb|]|];
    cbn [snd]; apply bounded_set; try exact Hb; unfold within; cbn; exact Hpos.
Qed.

Lemma cancel_run_bounded (limit : Z) (self : service) (rid : string) :
  bounded limit self -> bounded limit (snd (cancel_run self rid)).
Proof.
  intro Hb. unfold cancel_run.
  destruct (PyDict.get rid (_runs self)) as [run|] eqn:Eg; [|exact Hb].
  destruct (is_terminal (status run)); [exact Hb|]. cbn [snd].
  apply bounded_set; [exact Hb|]. exact (@bounded_run _ _ _ _ Hb Eg).
Qed.

Lemma handle_event_bounded (limit : Z) (self : service) (rid : string) (ev : event) :
  (0 <= limit)%Z -> bounded limit self -> bounded limit (_handle_event self rid ev).
Proof.
  intros Hpos Hb. unfold _handle_event.
  destruct (PyDict.get rid (_runs self)) as [run|] eqn:Eg; [|exact Hb].
  apply bounded_set; [exact Hb|].
  pose proof (@bounded_run _ _ _ _ Hb Eg) as Hrun. unfold within in *. cbn [history].
  destruct Hb as [-> _].
  match goal with |- context [(limit <? ?n)%Z] => destruct (limit <? n)%Z eqn:E end.
  - rewrite length_app in *. cbn [List.length] in *.
    destruct (history run) as [|e0 h]; cbn [app tl List.length] in *; [lia|].
    rewrite length_app. cbn [List.length]. lia.
  - apply Z.ltb_ge in E. exact E.
Qed.

Lemma finalize_bounded (limit : Z) (self : service) (rid : string) (now : Z) :
  bounded limit self -> bounded limit (_finalize_run self rid now).
Proof.
  intro Hb. unfold _finalize_run.
  destruct (PyDict.get rid (_runs self)) as [run|] eqn:Eg; [|exact Hb].
  pose proof (@bounded_run _ _ _ _ Hb Eg) as Hrun. destruct Hb as [Hl H].
  split; [exact Hl|]. cbn [_runs]. apply values_set_forall; assumption.
Qed.

Lemma update_run_bounded (limit : Z) (self : service) (rid : string)
    (f : GuiAgentRun -> GuiAgentRun) :
  (forall run, history (f run) = history run) ->
  bounded limit self -> bounded limit (update_run self rid f).
Proof.
  intros Hf Hb. unfold update_run.
  destruct (PyDict.get rid (_runs self)) as [run|] eqn:Eg; [|exact Hb].
  apply bounded_set; [exact Hb|]. unfold within. rewrite Hf.
  exact (@bounded_run _ _ _ _ Hb Eg).
Qed.

Lemma finish_execute_bounded (limit : Z) (self : service) (rid : string)
    (o : outcome) (now : Z) :
  bounded limit self -> bounded limit (finish_execute self rid o now).
Proof.
  intro Hb. unfold finish_execute. apply finalize_bounded.
  destruct o; [apply update_run_bounded|apply update_run_bounded|]; auto.
Qed.

Lemma expire_bounded (limit : Z) (self : service) (rid : string) :
  bounded limit self -> bounded limit (expire self rid).
Proof.
  intros [Hl H]. unfold expire.
  destruct (existsb (String.eqb rid) (scheduled self)); [|split; assumption].
  split; [exact Hl|]. cbn [_runs]. apply values_pop_forall. exact H.
Qed.

Lemma run_calls_bounded (limit : Z) (calls : list call) :
  (0 <= limit)%Z ->
  forall self, bounded limit self -> bounded limit (run_calls self calls).
Proof.
  intro Hpos. unfold run_calls.
  induction calls as [|c calls IH]; intros self Hb; [exact Hb|].
  cbn [fold_left]. apply IH. destruct c; cbn [step].
  - apply start_run_bounded; assumption.
  - apply cancel_run_bounded; assumption.
  - apply handle_event_bounded; assumption.
  - apply finish_execute_bounded; assumption.
  - apply expire_bounded; assumption.
Qed.

(** X20.  The history kept for replay is bounded: with a history limit
    that is not negative, whatever is started, cancelled, emitted,
    finished and expired, no run of the service ever holds more events
    in its history than the limit. *)
Theorem history_is_bounded (history_limit retention_seconds : Z) (calls : list call) :
  (0 <= history_limit)%Z ->
  Forall (fun run => (Z.of_nat (List.length (history run)) <= history_limit)%Z)
    (PyDict.values (_runs (run_calls (new_service history_limit retention_seconds) calls))).
Proof.
  intro Hpos.
  apply (@run_calls_bounded history_limit calls Hpos
           (new_service history_limit retention_seconds)).
  split; [reflexivity|constructor].
Qed.

(** X20, tried with a limit of two events and three events emitted. *)
Lemma history_is_bounded_witness :
  Forall (fun run => (Z.of_nat (List.length (history run)) <= 2)%Z)
    (PyDict.values
       (_runs (run_calls (new_service 2 300)
                 [StartRun "session-1" "open the mail app" "run-1" 1000;
                  Emit "run-1" "prompt_1" (EStatus "one");
                  Emit "run-1" "prompt_1" (EStatus "two");
                  Emit "run-1" "prompt_1" (EStatus "three")]))).
Proof.
  apply (@history_is_bounded 2 300). lia.
Defined.

(** X21.  A cancellation is accepted once: after [cancel_run] has
    returned [True] for a run, a second [cancel_run] for it returns
    [False] and changes nothing, so no second status event is queued. *)
Theorem second_cancel_is_refused (self : service) (run_id_ : string) :
  fst (cancel_run self run_id_) = true ->
  cancel_run (snd (cancel_run self run_id_)) run_id_
  = (false, snd (cancel_run self run_id_)).
Proof.
  unfold cancel_run at 1 3 4.
  destruct (PyDict.get run_id_ (_runs self)) as [run|]; [|discriminate].
  destruct (is_terminal (status run)); [discriminate|]. intros _. cbn [snd].
  unfold cancel_run. cbn [with_runs _runs].
  rewrite PyDictFacts.get_set_same. reflexivity.
Qed.

(** X21, tried on the sample service with its run in progress. *)
Lemma second_cancel_is_refused_witness :
  fst (cancel_run Sample.running_service "run-1") = true
  /\ fst (cancel_run (snd (cancel_run Sample.running_service "run-1")) "run-1") = false.
Proof.
  split; [reflexivity|].
  rewrite (@second_cancel_is_refused Sample.running_service "run-1" eq_refl).
  reflexivity.
Defined.

(** X22.  When [_execute_run] returns, its run is closed whatever
    happened before: the status is [completed], [error] or [cancelled]
    (a status outside these three, such as [running] or [success],
    becomes [completed]; one of the three is kept), the completion time
    is set, the closing marker is the last entry of the queue, the
    removal of the run is scheduled, and a later [cancel_run] for it
    returns [False] and changes nothing. *)
Theorem finished_run_is_closed (self : service) (run_id_ : string) (o : outcome)
    (now : Z) (run : GuiAgentRun) :
  get_run self run_id_ = Some run ->
  exists run',
    get_run (finish_execute self run_id_ o now) run_id_ = Some run'
    /\ status run' = (if is_terminal (status run) then status run else "completed")
    /\ is_terminal (status run') = true
    /\ completed_at run' = Some now
    /\ last (queue run') blank_event = close_event
    /\ history run' = history run
    /\ In run_id_ (scheduled (finish_execute self run_id_ o now))
    /\ cancel_run (finish_execute self run_id_ o now) run_id_
       = (false, finish_execute self run_id_ o now).
Proof.
  unfold get_run. intro Hget.
  assert (Hfin : forall self1 run1,
            PyDict.get run_id_ (_runs self1) = Some run1 ->
            status run1 = status run -> history run1 = history run ->
            exists run',
              PyDict.get run_id_ (_runs (_finalize_run self1 run_id_ now)) = Some run'
              /\ status run' = (if is_terminal (status run) then status run else "completed")
              /\ is_terminal (status run') = true
              /\ completed_at run' = Some now
              /\ last (queue run') blank_event = close_event
              /\ history run' = history run
              /\ In run_id_ (scheduled (_finalize_run self1 run_id_ now))
              /\ cancel_run (_finalize_run self1 run_id_ now) run_id_
                 = (false, _finalize_run self1 run_id_ now)).
  { intros self1 run1 Hget1 Hstatus Hhistory.
    assert (Hterm : is_terminal (if is_terminal (status run) then status run
                                 else "completed") = true).
    { destruct (is_terminal (status run)) eqn:E; [exact E|reflexivity]. }
    unfold cancel_run, _finalize_run. rewrite Hget1. cbn [_runs scheduled].
    rewrite PyDictFacts.get_set_same. eexists. split; [reflexivity|].
    cbn [status completed_at queue history]. rewrite Hstatus, Hterm, Hhistory.
    repeat split; try reflexivity.
    - apply last_last.
    - apply in_or_app. right. left. reflexivity. }
  unfold finish_execute. destruct o as [|task_id_ result_dir_|].
  - unfold update_run. rewrite Hget.
    eapply Hfin; [cbn [with_runs _runs]; apply PyDictFacts.get_set_same| |]; reflexivity.
  - unfold update_run. rewrite Hget.
    eapply Hfin; [cbn [with_runs _runs]; apply PyDictFacts.get_set_same| |]; reflexivity.
  - eapply Hfin; [exact Hget| |]; reflexivity.
Qed.

(** X22, tried on the sample service: its run ends while it is still
    [running]. *)
Lemma finished_run_is_closed_witness :
  exists run',
    get_run (finish_execute Sample.running_service "run-1" Failed 1010) "run-1" = Some run'
    /\ status run' = "completed"
    /\ completed_at run' = Some 1010%Z.
Proof.
  destruct (get_run Sample.running_service "run-1") as [run|] eqn:E;
    [|vm_compute in E; discriminate].
  destruct (@finished_run_is_closed Sample.running_service "run-1" Failed 1010 run E)
    as (run' & Hget & Hstatus & _ & Hdone & _).
  exists run'. split; [exact Hget|]. split; [|exact Hdone].
  rewrite Hstatus. vm_compute in E. injection E as <-. reflexivity.
Defined.

(** X23.  Without an active vision profile a run ends at once and ends
    as [completed], not as [error]: a blank [vlmActiveId] selects no
    profile, and when no profile is selected [_execute_run] leaves the
    run just started with the error event and the closing marker as the
    only entries of its queue, an empty history and the status
    [completed]. *)
Theorem run_without_vision_profile (self : service) (settings : Settings)
    (worker : LLMProfile -> option (option string * option string))
    (session_id_ instruction_ uuid : string) (now later : Z) :
  (all_chars isspace (vlmActiveId settings) = true ->
   get_active_vlm_profile settings = None)
  /\ (get_active_vlm_profile settings = None ->
      forall handle self1,
        start_run self session_id_ instruction_ uuid now = (Ok handle, self1) ->
        exists run,
          get_run (_execute_run self1 uuid settings worker later) uuid = Some run
          /\ queue run = [no_profile_event uuid; close_event]
          /\ history run = []
          /\ status run = "completed"
          /\ completed_at run = Some later).
Proof.
  split.
  - intro H. unfold get_active_vlm_profile.
    rewrite (@ParserFacts.blank_strip _ H). reflexivity.
  - intros Hnone handle self1. unfold _execute_run, execution_outcome. rewrite Hnone.
    unfold start_run.
    destruct (is_empty (strip instruction_)); [discriminate|].
    assert (Hcreated : forall self0 run0,
              self1 = with_runs self0 (PyDict.set uuid run0 (_runs self0)) ->
              queue run0 = [] -> history run0 = [] -> status run0 = "running" ->
              run_id run0 = uuid ->
              exists run,
                get_run (finish_execute self1 uuid NoProfile later) uuid = Some run
                /\ queue run = [no_profile_event uuid; close_event]
                /\ history run = []
                /\ status run = "completed"
                /\ completed_at run = Some later).
    { intros self0 run0 -> Hq Hh Hs Hid.
      unfold finish_execute, update_run. cbn [with_runs _runs].
      rewrite PyDictFacts.get_set_same.
      unfold _finalize_run. cbn [with_runs _runs]. rewrite PyDictFacts.get_set_same.
      unfold get_run. cbn [_runs]. rewrite PyDictFacts.get_set_same.
      eexists. split; [reflexivity|].
      cbn [queue history status completed_at run_id]. rewrite Hq, Hh, Hs, Hid.
      repeat split; reflexivity. }
    destruct (_active_run self) as [active_|];
      [destruct (is_active (status active_)); [discriminate|]|];
      intros [= _ <-]; eapply Hcreated; reflexivity.
Qed.

Section Counting.
Variable V : Type.
Variable p : V -> bool.

Lemma count_set_off (k : string) (old v : V) (d : PyDict.dict V) :
  PyDict.get k d = Some old -> p old = true -> p v = false ->
  S (Spec.count p (PyDict.set k v d)) = Spec.count p d.
Proof.
  unfold Spec.count, PyDict.values. intros Hget Hold Hv.
  induction d as [|[k0 v0] d IH]; [discriminate|]. cbn [PyDict.get] in Hget.
  cbn [PyDict.set]. destruct (String.eqb k0 k).
  - injection Hget as ->. cbn [map snd filter]. rewrite Hold, Hv. reflexivity.
  - cbn [map snd filter]. destruct (p v0); cbn [List.length]; rewrite <- (IH Hget);
      reflexivity.
Qed.

Lemma count_zero_find (d : PyDict.dict V) :
  Spec.count p d = 0 -> find p (PyDict.values d) = None.
Proof.
  unfold Spec.count. induction (PyDict.values d) as [|v l IH]; [reflexivity|].
  cbn [filter find]. destruct (p v); [discriminate|exact IH].
Qed.

End Counting.

(** X24.  Cancelling the active run frees the service at once: in every
    state the service reaches, once [cancel_run] has been called for the
    run that is pending or running, no run is active any more and a
    [start_run] with an instruction that is not blank succeeds, before
    the cancelled run has ended. *)
Theorem cancelling_frees_the_service (history_limit retention_seconds : Z)
    (calls : list call) (run_id_ : string) (run : GuiAgentRun)
    (session_id_ instruction_ uuid : string) (now : Z) :
  let self := run_calls (new_service history_limit retention_seconds) calls in
  get_run self run_id_ = Some run ->
  is_active (status run) = true ->
  is_empty (strip instruction_) = false ->
  fst (cancel_run self run_id_) = true
  /\ _active_run (snd (cancel_run self run_id_)) = None
  /\ fst (start_run (snd (cancel_run self run_id_)) session_id_ instruction_ uuid now)
     = Ok {| handle_run_id := uuid; handle_session_id := session_id_;
             handle_instruction := strip instruction_; handle_task_id := None |}.
Proof.
  intros self Hget Hactive Hins.
  assert (Hcount : Spec.count Spec.active (_runs self) <= 1).
  { apply ServiceFacts.run_calls_count. cbn. lia. }
  unfold get_run in Hget.
  assert (Hterm : is_terminal (status run) = false).
  { unfold is_active in Hactive. unfold is_terminal.
    apply orb_prop in Hactive as [H|H]; apply String.eqb_eq in H; rewrite H; reflexivity. }
  assert (Hnone : _active_run (snd (cancel_run self run_id_)) = None).
  { unfold cancel_run. rewrite Hget, Hterm. cbn [snd]. unfold _active_run.
    cbn [with_runs _runs].
    apply (@count_zero_find _ (fun run0 => is_active (status run0))).
    match goal with
    | |- Spec.count _ (PyDict.set _ ?new _) = 0 =>
        pose proof (@count_set_off _ Spec.active run_id_ run new (_runs self)
                      Hget Hactive eq_refl) as Hoff
    end.
    unfold Spec.active in *. lia. }
  split; [|split; [exact Hnone|]].
  - unfold cancel_run. rewrite Hget, Hterm. reflexivity.
  - unfold start_run. rewrite Hins, Hnone. reflexivity.
Qed.

(** X24, tried on the sample service with its run in progress. *)
Lemma cancelling_frees_the_service_witness :
  fst (cancel_run Sample.running_service "run-1") = true
  /\ _active_run (snd (cancel_run Sample.running_service "run-1")) = None.
Proof.
  destruct (get_run Sample.running_service "run-1") as [run|] eqn:E;
    [|vm_compute in E; discriminate].
  assert (Hactive : is_active (status run) = true).
  { vm_compute in E. injection E as <-. reflexivity. }
  destruct (@cancelling_frees_the_service 200 300
              [StartRun "session-1" "open the mail app" "run-1" 1000] "run-1" run
              "session-2" "close the mail app" "run-2" 1005 E Hactive eq_refl)
    as (Hc & Hnone & _).
  split; [exact Hc|exact Hnone].
Defined.

End ServiceExtras.

(** ** Properties of the environment patch *)

Module EnvironExtras.
Import PyStr PyVal Profiles Notions PyStrFacts StoreFacts.

Section Dicts.
Variable V : Type.

Lemma keys_set_in (k k' : string) (v : V) (d : PyDict.dict V) :
  In k' (PyDict.keys (PyDict.set k v d)) -> k' = k \/ In k' (PyDict.keys d).
Proof.
  induction d as [|[k0 v0] d IH]; simpl.
  - intros [H|[]]; auto.
  - destruct (String.eqb k0 k); simpl; intros [H|H]; auto.
    destruct (IH H); auto.
Qed.

Lemma nodup_set (k : string) (v : V) (d : PyDict.dict V) :
  NoDup (PyDict.keys d) -> NoDup (PyDict.keys (PyDict.set k v d)).
Proof.
  induction d as [|[k0 v0] d IH]; simpl; intro H.
  - constructor; [intros []|constructor].
  - inversion H as [|? ? Hnotin Hrest]; subst.
    destruct (String.eqb k0 k) eqn:E; simpl; constructor; auto.
    intro Hin. apply keys_set_in in Hin as [->|Hin]; [|contradiction].
    rewrite String.eqb_refl in E. discriminate.
Qed.

Lemma keys_pop_in (k k' : string) (d : PyDict.dict V) :
  In k' (PyDict.keys (PyDict.pop k d)) -> In k' (PyDict.keys d).
Proof.
  induction d as [|[k0 v0] d IH]; simpl; [auto|].
  destruct (String.eqb k0 k); simpl; [auto|]. intros [H|H]; auto.
Qed.

Lemma nodup_pop (k : string) (d : PyDict.dict V) :
  NoDup (PyDict.keys d) -> NoDup (PyDict.keys (PyDict.pop k d)).
Proof.
  induction d as [|[k0 v0] d IH]; simpl; intro H; [constructor|].
  inversion H as [|? ? Hnotin Hrest]; subst.
  destruct (String.eqb k0 k); [exact Hrest|]. simpl. constructor; auto.
  intro Hin. apply Hnotin. exact (@keys_pop_in _ _ _ Hin).
Qed.

Lemma get_some_in_keys (k : string) (v : V) (d : PyDict.dict V) :
  PyDict.get k d = Some v -> In k (PyDict.keys d).
Proof.
  induction d as [|[k0 v0] d IH]; simpl; [discriminate|].
  destruct (String.eqb k0 k) eqn:E; [|auto].
  apply String.eqb_eq in E. auto.
Qed.

Lemma set_fresh (k : string) (v : V) (d : PyDict.dict V) :
  ~ In k (PyDict.keys d) -> PyDict.set k v d = (d ++ [(k, v)])%list.
Proof.
  induction d as [|[k0 v0] d IH]; simpl; intro H; [reflexivity|].
  destruct (String.eqb k0 k) eqn:E.
  - apply String.eqb_eq in E. subst. exfalso. apply H. left. reflexivity.
  - rewrite IH; [reflexivity|]. intro Hin. apply H. right. exact Hin.
Qed.

End Dicts.

Lemma setenv_legal (key value : string) (environ : list (string * string)) :
  legal_name key = true -> legal_value value = true ->
  setenv key value environ = Ok (PyDict.set key value environ).
Proof.
  unfold legal_name, legal_value, setenv. intros Hk Hv.
  apply andb_prop in Hk as [Hk Hnul]. apply andb_prop in Hk as [Hne Heq].
  apply negb_true_iff in Hne, Heq, Hnul, Hv.
  rewrite Hnul, Hv, Hne, Heq. reflexivity.
Qed.

Lemma legal_get (environ : list (string * string)) (key value : string) :
  legal environ -> PyDict.get key environ = Some value -> legal_value value = true.
Proof.
  intros H Hget. apply (@get_in_values _ _ _ _) in Hget.
  unfold PyDict.values in Hget. apply in_map_iff in Hget as ([k v] & <- & Hin).
  unfold legal in H. rewrite Forall_forall in H. exact (proj2 (H _ Hin)).
Qed.

Lemma legal_set (environ : list (string * string)) (key value : string) :
  legal environ -> legal_name key = true -> legal_value value = true ->
  legal (PyDict.set key value environ).
Proof.
  intros H Hk Hv. induction environ as [|[k0 v0] d IH]; simpl.
  - constructor; [split; assumption|constructor].
  - inversion H as [|? ? [Hk0 Hv0] Hrest]; subst. cbn [fst snd] in *.
    destruct (String.eqb k0 key).
    + constructor; [split; assumption|exact Hrest].
    + constructor; [split; assumption|]. apply IH. exact Hrest.
Qed.

Lemma legal_pop (environ : list (string * string)) (key : string) :
  legal environ -> legal (PyDict.pop key environ).
Proof.
  intro H. induction environ as [|[k0 v0] d IH]; simpl; [constructor|].
  inversion H as [|? ? Hkv Hrest]; subst.
  destruct (String.eqb k0 key); [exact Hrest|].
  constructor; [exact Hkv|apply IH; exact Hrest].
Qed.

(** The loop that patches: what it keeps and what it leaves. *)
Lemma patch_spec (env_patch : list (string * string)) :
  forall previous environ,
    NoDup (PyDict.keys env_patch) ->
    (forall key, In key (PyDict.keys env_patch) -> ~ In key (PyDict.keys previous)) ->
    legal env_patch -> legal environ -> NoDup (PyDict.keys environ) ->
    exists patched,
      patch env_patch previous environ
      = (Ok (previous ++ map (fun kv => (fst kv, PyDict.get (fst kv) environ)) env_patch)%list,
         patched)
      /\ legal patched /\ NoDup (PyDict.keys patched)
      /\ (forall key,
            PyDict.get key patched
            = match PyDict.get key env_patch with
              | Some value => Some value
              | None => PyDict.get key environ
              end).
Proof.
  induction env_patch as [|[k v] rest IH]; intros previous environ Hnd Hfresh Hlp Hle Hne.
  - exists environ. cbn [patch map]. rewrite app_nil_r. auto.
  - cbn [patch]. inversion Hnd as [|? ? Hk Hrest]; subst.
    inversion Hlp as [|? ? [Hkn Hvn] Hlrest]; subst. cbn [fst snd] in *.
    rewrite (@setenv_legal k v environ Hkn Hvn).
    rewrite set_fresh by (apply Hfresh; left; reflexivity).
    destruct (IH (previous ++ [(k, PyDict.get k environ)])%list (PyDict.set k v environ))
      as (patched & Hp & Hl & Hn & Hget).
    + exact Hrest.
    + intros key Hin Hprev. unfold PyDict.keys in Hprev. rewrite map_app in Hprev.
      apply in_app_or in Hprev as [Hprev|[<-|[]]].
      * apply (Hfresh key); [right; exact Hin|exact Hprev].
      * contradiction.
    + exact Hlrest.
    + apply legal_set; assumption.
    + apply nodup_set. exact Hne.
    + exists patched. split; [|split; [exact Hl|split; [exact Hn|]]].
      * rewrite Hp. f_equal. f_equal. rewrite <- app_assoc. cbn [app map fst]. f_equal. f_equal.
        apply map_ext_in. intros [k' v'] Hin. cbn [fst]. f_equal.
        apply PyDictFacts.get_set_other. intros ->.
        apply Hk. unfold PyDict.keys. apply in_map_iff. exists (k, v'). auto.
      * intro key. rewrite Hget. cbn [PyDict.get].
        destruct (String.eqb k key) eqn:E.
        -- apply String.eqb_eq in E. subst key.
           rewrite (@get_none_not_in _ _ _ Hk). apply PyDictFacts.get_set_same.
        -- destruct (PyDict.get key rest); [reflexivity|].
           apply PyDictFacts.get_set_other. intros ->.
           rewrite String.eqb_refl in E. discriminate.
Qed.

(** The loop of the [finally] block puts back what was kept. *)
Lemma restore_spec (previous : list (string * option string)) :
  forall environ,
    NoDup (PyDict.keys previous) ->
    Forall (fun kv => legal_name (fst kv) = true
                      /\ match snd kv with
                         | Some value => legal_value value = true
                         | None => True
                         end) previous ->
    NoDup (PyDict.keys environ) ->
    exists restored,
      restore previous environ = (Ok tt, restored)
      /\ (forall key,
            PyDict.get key restored
            = match PyDict.get key previous with
              | Some old => old
              | None => PyDict.get key environ
              end).
Proof.
  induction previous as [|[k old] rest IH]; intros environ Hnd Hlegal Hne.
  - exists environ. split; reflexivity.
  - inversion Hnd as [|? ? Hk Hrest]; subst.
    inversion Hlegal as [|? ? [Hkn Hold] Hlrest]; subst. cbn [fst snd] in *.
    cbn [restore]. destruct old as [value|].
    + rewrite (@setenv_legal k value environ Hkn Hold).
      destruct (IH (PyDict.set k value environ) Hrest Hlrest (@nodup_set _ k value _ Hne))
        as (restored & Hr & Hget).
      exists restored. split; [exact Hr|]. intro key. rewrite Hget. cbn [PyDict.get].
      destruct (String.eqb k key) eqn:E.
      * apply String.eqb_eq in E. subst key.
        rewrite (@get_none_not_in _ _ _ Hk). apply PyDictFacts.get_set_same.
      * destruct (PyDict.get key rest); [reflexivity|].
        apply PyDictFacts.get_set_other. intros ->.
        rewrite String.eqb_refl in E. discriminate.
    + destruct (IH (PyDict.pop k environ) Hrest Hlrest (@nodup_pop _ k _ Hne))
        as (restored & Hr & Hget).
      exists restored. split; [exact Hr|]. intro key. rewrite Hget. cbn [PyDict.get].
      destruct (String.eqb k key) eqn:E.
      * apply String.eqb_eq in E. subst key.
        rewrite (@get_none_not_in _ _ _ Hk). apply get_pop_same. exact Hne.
      * destruct (PyDict.get key rest); [reflexivity|].
        apply get_pop_other. intros ->.
        rewrite String.eqb_refl in E. discriminate.
Qed.

Lemma get_kept (environ env_patch : list (string * string)) (key : string) :
  PyDict.get key (map (fun kv => (fst kv, PyDict.get (fst kv) environ)) env_patch)
  = match PyDict.get key env_patch with
    | Some _ => Some (PyDict.get key environ)
    | None => None
    end.
Proof.
  induction env_patch as [|[k v] rest IH]; [reflexivity|]. cbn [map fst PyDict.get].
  destruct (String.eqb k key) eqn:E; [|exact IH].
  apply String.eqb_eq in E. subst. reflexivity.
Qed.

(** X25.  [_invoke_agent] puts back what it found: for a patch and an
    environment whose names and values [os.environ] accepts,
    [run_prompt] starts in the environment with the patch applied, and
    when the call ends every variable of the patch has the value it had
    when the call began (or is absent as it was), whether [run_prompt]
    returned or raised, while every other variable is as the time of
    [run_prompt] left it.  So a call during which nothing else writes to
    the environment leaves it as it found it; a call that begins while
    an earlier one is running puts back the values of the earlier
    patch. *)
Theorem patched_variables_are_put_back (A : Type)
    (run_prompt : list (string * string) -> result A * list (string * string))
    (env_patch environ : list (string * string)) :
  NoDup (PyDict.keys env_patch) -> NoDup (PyDict.keys environ) ->
  legal env_patch -> legal environ ->
  (forall started, NoDup (PyDict.keys started) ->
                   NoDup (PyDict.keys (snd (run_prompt started)))) ->
  exists patched restored,
    _invoke_agent run_prompt env_patch environ = (fst (run_prompt patched), restored)
    /\ (forall key,
          PyDict.get key patched
          = match PyDict.get key env_patch with
            | Some value => Some value
            | None => PyDict.get key environ
            end)
    /\ (forall key,
          PyDict.get key restored
          = match PyDict.get key env_patch with
            | Some _ => PyDict.get key environ
            | None => PyDict.get key (snd (run_prompt patched))
            end)
    /\ (snd (run_prompt patched) = patched ->
        forall key, PyDict.get key restored = PyDict.get key environ).
Proof.
  intros Hnp Hne Hlp Hle Hdict.
  destruct (@patch_spec env_patch [] environ Hnp (fun _ _ H => H) Hlp Hle Hne)
    as (patched & Hp & Hl & Hn & Hget).
  cbn [app] in Hp.
  destruct (@restore_spec
              (map (fun kv => (fst kv, PyDict.get (fst kv) environ)) env_patch)
              (snd (run_prompt patched)))
    as (restored & Hr & Hback).
  - unfold PyDict.keys in *. rewrite map_map. cbn [fst]. exact Hnp.
  - apply Forall_forall. intros [k old] Hin. apply in_map_iff in Hin as ([k' v'] & [= <- <-] & Hin).
    cbn [fst snd]. unfold legal in Hlp. rewrite Forall_forall in Hlp.
    split; [exact (proj1 (Hlp _ Hin))|].
    destruct (PyDict.get k' environ) as [value|] eqn:E; [|exact I].
    exact (@legal_get _ _ _ Hle E).
  - apply Hdict. exact Hn.
  - assert (Hall : forall key,
               PyDict.get key restored
               = match PyDict.get key env_patch with
                 | Some _ => PyDict.get key environ
                 | None => PyDict.get key (snd (run_prompt patched))
                 end).
    { intro key. rewrite Hback, get_kept.
      destruct (PyDict.get key env_patch); reflexivity. }
    exists patched, restored. unfold _invoke_agent. rewrite Hp.
    destruct (run_prompt patched) as [outcome later] eqn:Erun. cbn [fst snd] in *.
    rewrite Hr. split; [reflexivity|]. split; [exact Hget|]. split; [exact Hall|].
    intros -> key. rewrite Hall, Hget.
    destruct (PyDict.get key env_patch); reflexivity.
Qed.

(** X25, tried with a [run_prompt] that raises and writes nothing. *)
Lemma patched_variables_are_put_back_witness :
  exists restored,
    _invoke_agent (fun started => (@Raise string (RuntimeError "stopped"), started))
      [("TIP_LLM_MODEL", "LLM"); ("TIP_LLM_TIMEOUT", "60.0")]
      [("HOME", "/root"); ("TIP_LLM_MODEL", "old")]
    = (Raise (RuntimeError "stopped"), restored)
    /\ PyDict.get "TIP_LLM_MODEL" restored = Some "old"
    /\ PyDict.get "TIP_LLM_TIMEOUT" restored = None.
Proof.
  destruct (@patched_variables_are_put_back string
              (fun started => (Raise (RuntimeError "stopped"), started))
              [("TIP_LLM_MODEL", "LLM"); ("TIP_LLM_TIMEOUT", "60.0")]
              [("HOME", "/root"); ("TIP_LLM_MODEL", "old")])
    as (patched & restored & Hrun & _ & _ & Hback).
  - repeat constructor; simpl; intuition discriminate.
  - repeat constructor; simpl; intuition discriminate.
  - repeat constructor.
  - repeat constructor.
  - intros started H. exact H.
  - exists restored. split; [exact Hrun|].
    rewrite !(Hback eq_refl). split; reflexivity.
Defined.

(** Two calls that overlap.  The first call patches the model name and
    is in its [run_prompt] when the second begins; it ends while the
    second is in its [run_prompt], which from then on runs without its
    own model name, and the second call then puts back the name of the
    first patch: the environment is not as it was before the two. *)
Example overlapping_calls_keep_the_first_patch :
  let environ := [("HOME", "/root"); ("TIP_LLM_MODEL", "old")] in
  let first := [("TIP_LLM_MODEL", "first")] in
  let second := [("TIP_LLM_MODEL", "second")] in
  let during_first := snd (patch first [] environ) in
  let during_both := snd (patch second [] during_first) in
  PyDict.get "TIP_LLM_MODEL" during_both = Some "second"
  /\ PyDict.get "TIP_LLM_MODEL" (snd (restore (kept first environ) during_both))
     = Some "old"
  /\ _invoke_agent (while_earlier_ends (Ok "done") (kept first environ)) second during_first
     = (Ok "done", [("HOME", "/root"); ("TIP_LLM_MODEL", "first")]).
Proof. repeat split. Qed.

Lemma distinct_nodup (names : list string) : distinct names = true -> NoDup names.
Proof.
  induction names as [|name rest IH]; [constructor|]. cbn [distinct]. intro H.
  apply andb_prop in H as [Hn Hrest]. constructor; [|apply IH; exact Hrest].
  intro Hin. apply negb_true_iff in Hn.
  assert (E : existsb (String.eqb name) rest = true).
  { apply existsb_exists. exists name. split; [exact Hin|apply String.eqb_refl]. }
  congruence.
Qed.

Lemma rstrip_by_last (p : ascii -> bool) (s : string) :
  rstrip_by p s = EmptyString
  \/ exists a c, rstrip_by p s = a ++ String c EmptyString /\ p c = false.
Proof.
  induction s as [|c s IH]; [left; reflexivity|]. cbn [rstrip_by].
  destruct IH as [->|(a & c' & -> & Hc')].
  - destruct (p c) eqn:E; [left; reflexivity|].
    right. exists EmptyString, c. split; [reflexivity|exact E].
  - right. exists (String c a), c'. split; [|exact Hc'].
    destruct (a ++ String c' EmptyString) eqn:E; [destruct a; discriminate|].
    cbn [append]. rewrite E. reflexivity.
Qed.

Lemma rstrip_no_slash (s : string) :
  endswith (rstrip_by (mem_char "/") s) "/" = false.
Proof.
  destruct (rstrip_by_last (mem_char "/") s) as [->|(a & c & -> & Hc)]; [reflexivity|].
  unfold endswith. rewrite ParserExtras.string_length_app. cbn [String.length].
  replace (String.length a + 1 - 1) with (String.length a) by lia.
  rewrite ParserExtras.drop_app.
  replace (1 <=? String.length a + 1)%nat with true by (symmetry; apply Nat.leb_le; lia).
  cbn [andb String.eqb]. cbn [mem_char] in Hc. rewrite orb_false_r in Hc. rewrite Hc.
  reflexivity.
Qed.

Lemma get_set_if_other (test : bool) (key key' value : string)
    (payload : list (string * string)) :
  key' <> key ->
  PyDict.get key' (set_if test key value payload) = PyDict.get key' payload.
Proof.
  intro Hne. destruct test; [apply PyDictFacts.get_set_other; exact Hne|reflexivity].
Qed.

Lemma set_if_nodup (test : bool) (key value : string) (payload : list (string * string)) :
  NoDup (PyDict.keys payload) -> NoDup (PyDict.keys (set_if test key value payload)).
Proof. destruct test; [apply nodup_set|auto]. Qed.

Lemma set_if_names (test : bool) (key value : string) (payload : list (string * string)) :
  legal_name key = true ->
  Forall (fun kv => legal_name (fst kv) = true) payload ->
  Forall (fun kv => legal_name (fst kv) = true) (set_if test key value payload).
Proof.
  intros Hkey H. destruct test; [|exact H]. cbn [set_if].
  induction payload as [|[k0 v0] d IH]; cbn [PyDict.set].
  - constructor; [exact Hkey|constructor].
  - inversion H as [|? ? Hk0 Hrest]; subst.
    destruct (String.eqb k0 key); constructor; auto.
Qed.

(** X26.  In the environment patch of a profile what the profile sets
    comes first: its base URL replaces the one of the Tip Cloud and its
    API key replaces the token of the device, whatever the provider.
    The URLs taken from the profile lose their final slashes.  Every
    variable is set once and under a name that [os.environ] accepts. *)
Theorem profile_settings_come_first
    (tip_cloud_model tip_cloud_base_url tip_cloud_api_key : string)
    (auth_headers : option (result (list (string * string))))
    (float_str : PyFloat.float -> string)
    (json_dumps : list (string * string) -> string)
    (profile : LLMProfile) (payload : list (string * string)) :
  _build_env_patch tip_cloud_model tip_cloud_base_url tip_cloud_api_key
    auth_headers float_str json_dumps profile = Ok payload ->
  NoDup (PyDict.keys payload)
  /\ Forall (fun kv => legal_name (fst kv) = true) payload
  /\ (baseUrl profile <> EmptyString ->
      PyDict.get "TIP_LLM_BASE_URL" payload
      = Some (rstrip_by (mem_char "/") (baseUrl profile)))
  /\ (forall key, apiKey profile = Some key -> key <> EmptyString ->
      PyDict.get "TIP_OPENAI_API_KEY" payload = Some key)
  /\ (forall url, openaiBaseUrl profile = Some url -> url <> EmptyString ->
      PyDict.get "TIP_OPENAI_BASE_URL" payload = Some (rstrip_by (mem_char "/") url))
  /\ (forall url, baseUrl profile <> EmptyString ->
      PyDict.get "TIP_LLM_BASE_URL" payload = Some url -> endswith url "/" = false).
Proof.
  unfold _build_env_patch.
  destruct (PyFloat.int_truediv (timeoutMs profile) 1000) as [seconds|]; [|discriminate].
  unfold bind.
  set (provider_ := strip (if is_empty (provider profile) then "tip_cloud"
                           else provider profile)).
  assert (Hor : forall v key, v = Some key -> key <> EmptyString -> or_else v "" = key).
  { intros v key -> Hne. unfold or_else. destruct key; [contradiction|reflexivity]. }
  match goal with
  | |- context [let '(payload, headers_) := ?start in _] =>
      assert (Hstart : NoDup (PyDict.keys (fst start))
                       /\ Forall (fun kv => legal_name (fst kv) = true) (fst start));
        [|destruct start as [base headers_]]
  end.
  { destruct (String.eqb provider_ "tip_cloud"); cbn [fst PyDict.set String.eqb
      Ascii.eqb Bool.eqb]; (split; [apply distinct_nodup; reflexivity|repeat constructor]). }
  cbn [fst] in Hstart. destruct Hstart as [Hnodup Hnames].
  intros [= <-].
  split; [repeat apply set_if_nodup; exact Hnodup|].
  split; [repeat (apply set_if_names; [reflexivity|]); exact Hnames|].
  split; [|split; [|split]].
  - intro Hne. apply is_empty_false in Hne.
    rewrite !get_set_if_other by discriminate. rewrite Hne. apply PyDictFacts.get_set_same.
  - intros key Hk Hne. rewrite (Hor _ _ Hk Hne).
    rewrite !get_set_if_other by discriminate.
    apply is_empty_false in Hne. rewrite Hne. apply PyDictFacts.get_set_same.
  - intros url Hk Hne. rewrite (Hor _ _ Hk Hne).
    rewrite !get_set_if_other by discriminate.
    apply is_empty_false in Hne. rewrite Hne. apply PyDictFacts.get_set_same.
  - intros url Hne. apply is_empty_false in Hne.
    rewrite !get_set_if_other by discriminate. rewrite Hne. cbn [negb set_if].
    rewrite PyDictFacts.get_set_same. intros [= <-]. apply rstrip_no_slash.
Qed.

(** X26, tried on a profile of the Tip Cloud with a base URL and a key
    of its own. *)
Lemma profile_settings_come_first_witness :
  exists payload,
    _build_env_patch "LLM" "https://cloud.example/v1" "sk-cloud" None
      (fun _ => "60.0") (fun _ => "{}") Cases.cloud_profile = Ok payload
    /\ PyDict.get "TIP_LLM_BASE_URL" payload = Some "https://llm.example/v1"
    /\ PyDict.get "TIP_OPENAI_API_KEY" payload = Some "sk-profile".
Proof.
  destruct (_build_env_patch "LLM" "https://cloud.example/v1" "sk-cloud" None
              (fun _ => "60.0") (fun _ => "{}") Cases.cloud_profile)
    as [payload|] eqn:E; [|vm_compute in E; discriminate].
  exists payload. split; [reflexivity|].
  destruct (profile_settings_come_first _ _ _ _ _ _ _ E) as (_ & _ & Hurl & Hkey & _).
  split.
  - rewrite Hurl; [reflexivity|discriminate].
  - apply Hkey; [reflexivity|discriminate].
Defined.

End EnvironExtras.

(** ** Properties of the stored runs and of the run endpoints *)

Module RunExtras.
Import PyStr PyVal Service Profiles Execution Notions PyStrFacts StoreFacts GuiRoutes SkillRoutes.

Section Entries.
Variable V : Type.
Variable P : string * V -> Prop.

Lemma get_entry (k : string) (v : V) (d : PyDict.dict V) :
  PyDict.get k d = Some v -> In (k, v) d.
Proof.
  induction d as [|[k0 v0] d IH]; [discriminate|]. cbn [PyDict.get].
  destruct (String.eqb k0 k) eqn:E.
  - apply String.eqb_eq in E. subst. intros [= <-]. left. reflexivity.
  - intro H. right. apply IH. exact H.
Qed.

Lemma entries_set (k : string) (v : V) (d : PyDict.dict V) :
  P (k, v) -> Forall P d -> Forall P (PyDict.set k v d).
Proof.
  intros Hv. induction d as [|[k0 v0] d IH]; intro H; cbn [PyDict.set].
  - constructor; [exact Hv|constructor].
  - inversion H as [|? ? H0 Hrest]; subst. destruct (String.eqb k0 k) eqn:E.
    + apply String.eqb_eq in E. subst. constructor; assumption.
    + constructor; [exact H0|apply IH; exact Hrest].
Qed.

Lemma entries_pop (k : string) (d : PyDict.dict V) :
  Forall P d -> Forall P (PyDict.pop k d).
Proof.
  induction d as [|[k0 v0] d IH]; intro H; cbn [PyDict.pop]; [constructor|].
  inversion H as [|? ? H0 Hrest]; subst.
  destruct (String.eqb k0 k); [exact Hrest|constructor; [exact H0|apply IH; exact Hrest]].
Qed.

End Entries.

Lemma tagged_entry (self : service) (rid : string) (run : GuiAgentRun) :
  Forall well_tagged (_runs self) -> PyDict.get rid (_runs self) = Some run ->
  well_tagged (rid, run).
Proof.
  intros H Hget. rewrite Forall_forall in H. apply H. apply get_entry. exact Hget.
Qed.

Lemma event_of_untagged (tid : string) (e : emitted) : ev_run_id (event_of tid e) = None.
Proof. destruct e; reflexivity. Qed.

Lemma step_tagged (self : service) (c : call) :
  Forall well_tagged (_runs self) -> Forall well_tagged (_runs (step self c)).
Proof.
  intro H. destruct c as [sid ins uuid now|rid|rid tid e|rid o now|rid]; cbn [step].
  - unfold start_run. destruct (is_empty (strip ins)); [exact H|].
    destruct (_active_run self) as [active_|];
      [destruct (is_active (status active_)); [exact H|]|];
      cbn [snd with_runs _runs]; apply entries_set; try exact H;
      (split; [reflexivity|split; constructor]).
  - unfold cancel_run. destruct (PyDict.get rid (_runs self)) as [run|] eqn:Eg; [|exact H].
    destruct (is_terminal (status run)); [exact H|]. cbn [snd with_runs _runs].
    destruct (@tagged_entry _ _ _ H Eg) as (Hid & Hh & Hq). cbn [fst snd] in *.
    apply entries_set; [|exact H]. split; [exact Hid|]. cbn [fst snd history queue].
    split; [exact Hh|]. apply Forall_app. split; [exact Hq|].
    constructor; [left; reflexivity|constructor].
  - unfold _handle_event.
    destruct (PyDict.get rid (_runs self)) as [run|] eqn:Eg; [|exact H].
    destruct (@tagged_entry _ _ _ H Eg) as (Hid & Hh & Hq). cbn [fst snd] in *.
    cbn [with_runs _runs]. apply entries_set; [|exact H].
    rewrite event_of_untagged.
    split; [exact Hid|]. cbn [fst snd history queue]. split.
    + match goal with |- context [if ?b then _ else _] => destruct b end.
      * destruct (history run) as [|e0 h]; cbn [app tl].
        -- constructor.
        -- inversion Hh; subst. apply Forall_app. split; [assumption|].
           constructor; [reflexivity|constructor].
      * apply Forall_app. split; [exact Hh|]. constructor; [reflexivity|constructor].
    + apply Forall_app. split; [exact Hq|]. constructor; [left; reflexivity|constructor].
  - unfold finish_execute.
    assert (Hfin : forall self1, Forall well_tagged (_runs self1) ->
                     Forall well_tagged (_runs (_finalize_run self1 rid now))).
    { intros self1 H1. unfold _finalize_run.
      destruct (PyDict.get rid (_runs self1)) as [run|] eqn:Eg; [|exact H1].
      destruct (@tagged_entry _ _ _ H1 Eg) as (Hid & Hh & Hq). cbn [fst snd] in *.
      cbn [_runs]. apply entries_set; [|exact H1].
      split; [exact Hid|]. cbn [fst snd history queue]. split; [exact Hh|].
      apply Forall_app. split; [exact Hq|]. constructor; [right; reflexivity|constructor]. }
    apply Hfin. destruct o as [|task_id_ result_dir_|]; [| |exact H]; unfold update_run;
      destruct (PyDict.get rid (_runs self)) as [run|] eqn:Eg; try exact H;
      destruct (@tagged_entry _ _ _ H Eg) as (Hid & Hh & Hq); cbn [fst snd] in *;
      cbn [with_runs _runs]; apply entries_set; try exact H;
      (split; [exact Hid|]); cbn [fst snd history queue]; (split; [exact Hh|]);
      try exact Hq.
    apply Forall_app. split; [exact Hq|]. rewrite Hid.
    constructor; [left; reflexivity|constructor].
  - unfold expire. destruct (existsb (String.eqb rid) (scheduled self)); [|exact H].
    cbn [_runs]. apply entries_pop. exact H.
Qed.

(** X27.  Events are tagged with their run: in every state the service
    reaches, each run is stored under its own id, every event of its
    history carries that id as its [run_id], and so does every entry of
    its queue except the closing marker. *)
Theorem events_carry_their_run_id (history_limit retention_seconds : Z)
    (calls : list call) :
  Forall well_tagged (_runs (run_calls (new_service history_limit retention_seconds) calls)).
Proof.
  unfold run_calls.
  assert (H : forall self, Forall well_tagged (_runs self) ->
                Forall well_tagged (_runs (fold_left step calls self))).
  { induction calls as [|c calls IH]; intros self Hself; [exact Hself|].
    cbn [fold_left]. apply IH. apply step_tagged. exact Hself. }
  apply H. constructor.
Qed.

Lemma find_some_in (V : Type) (p : V -> bool) (v : V) (l : list V) :
  In v l -> p v = true -> find p l <> None.
Proof.
  intros Hin Hp Hnone. pose proof (find_none _ _ Hnone _ Hin). congruence.
Qed.

(** X28.  A second start right after a start is refused: when
    [start_gui_agent_run] has answered with a run, the same request made
    again, for any known session and any instruction that is not blank,
    is answered 409 with the text of the conflict, and it leaves the
    service as it was. *)
Theorem second_start_is_refused (service_ : service)
    (session_id_ instruction_ uuid : string) (now : Z)
    (answer : GuiAgentRunResponse) (service' : service)
    (session_id2 instruction2 uuid2 : string) (now2 : Z) :
  start_gui_agent_run true session_id_ instruction_ uuid now service_
  = (Response answer, service') ->
  is_empty (strip instruction2) = false ->
  answer = {| response_run_id := uuid; response_session_id := session_id_;
              response_instruction := strip instruction_; response_task_id := None |}
  /\ start_gui_agent_run true session_id2 instruction2 uuid2 now2 service'
     = (HTTPException 409 "Another GUI agent task is already running", service').
Proof.
  unfold start_gui_agent_run at 1. intros Hfirst Hins.
  assert (Hcreated : PyDict.get uuid (_runs service')
                     = Some {| run_id := uuid; session_id := session_id_;
                               instruction := strip instruction_; queue := [];
                               status := "running"; history := []; task := true;
                               task_id := None; result_dir := None;
                               created_at := now; completed_at := None;
                               cancel_event := false |}
                     /\ answer = {| response_run_id := uuid;
                                    response_session_id := session_id_;
                                    response_instruction := strip instruction_;
                                    response_task_id := None |}).
  { unfold start_run in Hfirst.
    destruct (is_empty (strip instruction_)); [discriminate|].
    destruct (_active_run service_) as [active_|];
      [destruct (is_active (status active_)); [discriminate|]|];
      injection Hfirst as <- <-; cbn [with_runs _runs];
      (split; [apply PyDictFacts.get_set_same|reflexivity]). }
  destruct Hcreated as [Hget ->]. split; [reflexivity|].
  unfold start_gui_agent_run, start_run. rewrite Hins.
  destruct (_active_run service') as [active_|] eqn:Ea.
  - rewrite (@ServiceFacts.active_run_some _ _ Ea). reflexivity.
  - exfalso. unfold _active_run in Ea.
    apply (@find_some_in _ (fun run => is_active (status run)) _ _
             (@get_in_values _ _ _ _ Hget)); [reflexivity|exact Ea].
Qed.

(** X28, tried on a new service. *)
Lemma second_start_is_refused_witness :
  exists answer service',
    start_gui_agent_run true "session-1" "open the mail app" "run-1" 1000
      (new_service 200 300) = (Response answer, service')
    /\ start_gui_agent_run true "session-2" "close it" "run-2" 1001 service'
       = (HTTPException 409 "Another GUI agent task is already running", service').
Proof.
  destruct (start_gui_agent_run true "session-1" "open the mail app" "run-1" 1000
              (new_service 200 300)) as [[answer| |] service'] eqn:E;
    try (vm_compute in E; discriminate).
  exists answer, service'. split; [reflexivity|].
  exact (proj2 (@second_start_is_refused _ _ _ _ _ _ _ "session-2" "close it" "run-2" 1001
                  E eq_refl)).
Defined.

End RunExtras.
